(** * CustomerMapper: the CSV-to-XML customer mapper and its driver

    A shallow embedding of [Mappers/customer_mapper.py] and
    [process_customers.py], with the parts of the Python standard library
    they call ([xml.etree.ElementTree], [xml.dom.minidom], as shipped with
    CPython 3.11), and the properties the specification states about them. *)

From Stdlib Require Import ZArith NArith List String Ascii Bool Lia DecimalString.
From stdpp Require Import gmap.

Set Default Proof Using "Type".
Set Warnings "-register-all".
Local Open Scope N_scope.

(** ** Python values *)

(** A Python [str] is a sequence of Unicode code points. *)
Abbreviation char := N.
Abbreviation str := (list N).

(** An ASCII literal of the source, as a [str]. *)
Definition lit (s : string) : str := map N_of_ascii (list_ascii_of_string s).
Arguments lit s%_string.

(** The objects a record can hold: [csv.DictReader] yields [str] cells and
    [None] for the cells a short row lacks; the driver stores an [int] under
    ["Index"]. (A row longer than the header also gets its extra cells as a
    list under the key [None], which neither function reads; it is left
    out.) *)
Inductive pyval :=
| VNone
| VInt (z : Z)
| VStr (s : str).

Inductive exn :=
| TypeError
| KeyError
| ValueError
| ExpatError
| UnicodeEncodeError
| OSError.

Inductive result (A : Type) :=
| Ok (a : A)
| Raise (e : exn).
Arguments Ok {A} a.
Arguments Raise {A} e.

Definition bind {A B} (r : result A) (k : A -> result B) : result B :=
  match r with
  | Ok a => k a
  | Raise e => Raise e
  end.

Notation "x <- r ;; k" := (bind r (fun x => k))
  (at level 60, r at next level, right associativity).

(** Truth value of an object, as [if obj:] tests it. *)
Definition truthy (v : pyval) : bool :=
  match v with
  | VNone => false
  | VInt z => negb (Z.eqb z 0)
  | VStr [] => false
  | VStr (_ :: _) => true
  end.

(** [str(obj)]. *)
Definition py_str (v : pyval) : str :=
  match v with
  | VNone => lit "None"
  | VInt z => lit (NilZero.string_of_int (Z.to_int z))
  | VStr s => s
  end.

(** A record is a [dict] with [str] keys. *)
Abbreviation record := (gmap str pyval).

(** [d.get(k)] and [d.get(k, dflt)]. *)
Definition get (d : record) (k : str) : pyval := default VNone (d !! k).
Definition get_or (d : record) (k : str) (dflt : pyval) : pyval := default dflt (d !! k).

(** [str.isspace] on one code point (CPython's [_PyUnicode_IsWhitespace]). *)
Definition isspace (c : char) : bool :=
  ((9 <=? c) && (c <=? 13)) || ((28 <=? c) && (c <=? 32))
  || (c =? 133) || (c =? 160) || (c =? 5760)
  || ((8192 <=? c) && (c <=? 8202))
  || (c =? 8232) || (c =? 8233) || (c =? 8239) || (c =? 8287) || (c =? 12288).

Fixpoint lstrip (s : str) : str :=
  match s with
  | [] => []
  | c :: s' => if isspace c then lstrip s' else s
  end.

Definition rstrip (s : str) : str := rev (lstrip (rev s)).

(** [s.strip()]. *)
Definition strip (s : str) : str := rstrip (lstrip s).

(** [sep.join(items)]: every item has to be a [str]. *)
Fixpoint join (sep : str) (items : list pyval) : result str :=
  match items with
  | [] => Ok []
  | VStr s :: [] => Ok s
  | VStr s :: rest => t <- join sep rest ;; Ok (s ++ sep ++ t)
  | _ :: _ => Raise TypeError
  end.

(** [s.replace(c, by)] for a one-character pattern [c]. *)
Definition replace (c : char) (by_ : str) (s : str) : str :=
  flat_map (fun x => if x =? c then by_ else [x]) s.

(** [c in s]. *)
Definition contains (c : char) (s : str) : bool := existsb (N.eqb c) s.

(** ** Characters of the XML grammar *)

Definition TAB : char := 9.
Definition LF : char := 10.
Definition CR : char := 13.
Definition SP : char := 32.
Definition QUOT : char := 34.
Definition AMP : char := 38.
Definition APOS : char := 39.
Definition SLASH : char := 47.
Definition SEMI : char := 59.
Definition LT : char := 60.
Definition EQ : char := 61.
Definition GT : char := 62.

(** ** xml.etree.ElementTree *)

Module ET.

(** An element: tag, attributes in insertion order, text, children.
    [tail] is never set by the mapper and is left out. *)
Inductive element :=
| Elem (tag : str) (attrib : list (str * str)) (text : pyval) (children : list element).

Definition tag (e : element) : str := let '(Elem t _ _ _) := e in t.
Definition attrib (e : element) : list (str * str) := let '(Elem _ a _ _) := e in a.
Definition text (e : element) : pyval := let '(Elem _ _ x _) := e in x.
Definition children (e : element) : list element := let '(Elem _ _ _ c) := e in c.

(** [ET.Element(tag)]. *)
Definition Element (tag : str) : element := Elem tag [] VNone [].

(** [attrib[key] = value] on an insertion-ordered dict. *)
Fixpoint assign (key value : str) (a : list (str * str)) : list (str * str) :=
  match a with
  | [] => [(key, value)]
  | (k, v) :: a' =>
      if decide (k = key) then (k, value) :: a' else (k, v) :: assign key value a'
  end.

(** [elem.set(key, value)]. *)
Definition set (e : element) (key value : str) : element :=
  let '(Elem t a x c) := e in Elem t (assign key value a) x c.

(** [elem.text = value]. *)
Definition set_text (e : element) (value : pyval) : element :=
  let '(Elem t a _ c) := e in Elem t a value c.

(** [parent.append(child)]. [ET.SubElement(parent, tag)] appends a new
    element to [parent] and hands it back to be filled in place; the mapper
    fills each one before it touches [parent] again, so here the child is
    completed first and appended then. *)
Definition append (parent child : element) : element :=
  let '(Elem t a x c) := parent in Elem t a x (c ++ [child]).

(** [elem.get(key)]. *)
Definition get (e : element) (key : str) : option str :=
  snd <$> List.find (fun kv => bool_decide (fst kv = key)) (attrib e).

(** [elem.find(tag)]: the first child with that tag. *)
Definition find (e : element) (t : str) : option element :=
  List.find (fun c => bool_decide (tag c = t)) (children e).

(** [elem.findall(tag)]. *)
Definition findall (e : element) (t : str) : list element :=
  List.filter (fun c => bool_decide (tag c = t)) (children e).

(** [_escape_cdata(text)]: a text that is not a [str] cannot be
    serialized. *)
Definition escape_cdata (text : pyval) : result str :=
  match text with
  | VStr text =>
      let text := if contains AMP text then replace AMP (lit "&amp;") text else text in
      let text := if contains LT text then replace LT (lit "&lt;") text else text in
      let text := if contains GT text then replace GT (lit "&gt;") text else text in
      Ok text
  | _ => Raise TypeError
  end.

(** [_escape_attrib(text)]; the mapper only stores [str] values. *)
Definition escape_attrib (text : str) : str :=
  let text := if contains AMP text then replace AMP (lit "&amp;") text else text in
  let text := if contains LT text then replace LT (lit "&lt;") text else text in
  let text := if contains GT text then replace GT (lit "&gt;") text else text in
  let text := if contains QUOT text then replace QUOT (lit "&quot;") text else text in
  let text := if contains CR text then replace CR (lit "&#13;") text else text in
  let text := if contains LF text then replace LF (lit "&#10;") text else text in
  let text := if contains TAB text then replace TAB (lit "&#09;") text else text in
  text.

(** The attribute part of a start tag: a space, the key, an equals sign
    and the escaped value between double quotes, for each item. *)
Definition serialize_items (items : list (str * str)) : str :=
  flat_map (fun kv => [SP] ++ fst kv ++ [EQ; QUOT] ++ escape_attrib (snd kv) ++ [QUOT]) items.

(** [_serialize_xml(write, elem, qnames, None, short_empty_elements=True)],
    returning what it writes. The tags and keys of the mapper are plain
    names, which [qnames] maps to themselves. *)
Fixpoint serialize_xml (elem : element) : result str :=
  let '(Elem tag attrib text children) := elem in
  let start := [LT] ++ tag ++ serialize_items attrib in
  if truthy text || negb (Nat.eqb (length children) 0) then
    escaped <- (if truthy text then escape_cdata text else Ok []) ;;
    inner <- (fix each (l : list element) : result str :=
                match l with
                | [] => Ok []
                | e :: l' => x <- serialize_xml e ;; y <- each l' ;; Ok (x ++ y)
                end) children ;;
    Ok (start ++ [GT] ++ escaped ++ inner ++ [LT; SLASH] ++ tag ++ [GT])
  else Ok (start ++ lit " />").

(** [ET.tostring(element, encoding='unicode')]. *)
Definition tostring (e : element) : result str := serialize_xml e.

End ET.

(** ** xml.dom.minidom *)

Module minidom.

(** The nodes of a document built from the mapper's output: elements and
    text. A document is its root element. *)
Inductive node :=
| Element (tagName : str) (attributes : list (str * str)) (childNodes : list node)
| Text (data : str).

(** *** The parser

    [minidom.parseString] feeds the string to expat, which is a push parser:
    it consumes the input one character at a time and keeps the elements that
    are still open on a stack. The model below does the same for the part of
    XML 1.0 that the two serializers emit: an optional
    [<?xml version="1.0" ?>] declaration, elements with attributes,
    character data, the five predefined entities and numeric character
    references. It applies the rules of the recommendation that matter for
    text: every character has to match the [Char] production, a line end
    written CR or CR LF is read as LF (section 2.11), white space in an
    attribute value is read as a space (section 3.3.3). It refuses what the
    serializers never write for the mapper: comments, processing
    instructions, CDATA sections, a DOCTYPE, namespaces (a colon in a name,
    an [xmlns] attribute), names outside ASCII and a bare [>] in character
    data. *)

(** The [Char] production. *)
Definition is_char (c : char) : bool :=
  (c =? 9) || (c =? 10) || (c =? 13)
  || ((32 <=? c) && (c <=? 55295))
  || ((57344 <=? c) && (c <=? 65533))
  || ((65536 <=? c) && (c <=? 1114111)).

(** The [S] production. *)
Definition is_space (c : char) : bool :=
  (c =? SP) || (c =? TAB) || (c =? CR) || (c =? LF).

Definition is_letter (c : char) : bool :=
  ((65 <=? c) && (c <=? 90)) || ((97 <=? c) && (c <=? 122)).

Definition is_digit (c : char) : bool := (48 <=? c) && (c <=? 57).

(** [NameStartChar] and [NameChar], ASCII only and without the colon, which
    stands between a namespace prefix and a name. *)
Definition is_name_start (c : char) : bool :=
  is_letter c || (c =? 95).

Definition is_name_char (c : char) : bool :=
  is_name_start c || is_digit c || (c =? 45) || (c =? 46).

Definition digit_val (c : char) : option N :=
  if is_digit c then Some (c - 48) else None.

Definition hex_val (c : char) : option N :=
  if is_digit c then Some (c - 48)
  else if (65 <=? c) && (c <=? 70) then Some (c - 55)
  else if (97 <=? c) && (c <=? 102) then Some (c - 87)
  else None.

Fixpoint number (base : N) (val : char -> option N) (digits : str) (acc : N) : option N :=
  match digits with
  | [] => Some acc
  | c :: digits' =>
      match val c with
      | Some d => number base val digits' (acc * base + d)
      | None => None
      end
  end.

(** The character a reference [&name;] stands for. *)
Definition decode_ref (name : str) : option char :=
  if decide (name = lit "amp") then Some AMP
  else if decide (name = lit "lt") then Some LT
  else if decide (name = lit "gt") then Some GT
  else if decide (name = lit "quot") then Some QUOT
  else if decide (name = lit "apos") then Some APOS
  else
    let code :=
      match name with
      | 35 :: 120 :: ((_ :: _) as digits) => number 16 hex_val digits 0
      | 35 :: ((_ :: _) as digits) => number 10 digit_val digits 0
      | _ => None
      end in
    match code with
    | Some c => if is_char c then Some c else None
    | None => None
    end.

(** An open element: its name, its attributes and the children read so
    far, last one first. *)
Definition frame : Type := str * list (str * str) * list node.

(** Where the parser is inside the markup. Names, values and text under
    construction are kept last character first. *)
Inductive mode :=
| Content (acc : str) (cr : bool)
| ContentRef (acc : str) (ref : str)
| TagOpen
| STagName (name : str)
| STagSpace (name : str) (attrs : list (str * str))
| AttrName (name : str) (attrs : list (str * str)) (aname : str)
| AttrEqPre (name : str) (attrs : list (str * str)) (aname : str)
| AttrEqPost (name : str) (attrs : list (str * str)) (aname : str)
| AttrValue (name : str) (attrs : list (str * str)) (aname : str)
    (quote : char) (acc : str) (cr : bool)
| AttrRef (name : str) (attrs : list (str * str)) (aname : str)
    (quote : char) (acc : str) (ref : str)
| AfterAttr (name : str) (attrs : list (str * str))
| EmptySlash (name : str) (attrs : list (str * str))
| ETagStart
| ETagName (name : str)
| ETagSpace (name : str).

Record state := St {
  st_mode : mode;
  st_stack : list frame;
  st_root : option node
}.

(** A finished node goes to the element that is open, or becomes the
    root; a document has one root. *)
Definition add_node (n : node) (stk : list frame) (root : option node) : option state :=
  match stk with
  | (name, attrs, ch) :: stk' =>
      Some (St (Content [] false) ((name, attrs, n :: ch) :: stk') root)
  | [] =>
      match root with
      | None => Some (St (Content [] false) [] (Some n))
      | Some _ => None
      end
  end.

Definition open_tag (name : str) (attrs : list (str * str))
    (stk : list frame) (root : option node) : option state :=
  Some (St (Content [] false) ((rev name, attrs, []) :: stk) root).

Definition empty_tag (name : str) (attrs : list (str * str))
    (stk : list frame) (root : option node) : option state :=
  add_node (Element (rev name) attrs []) stk root.

(** An end tag has to name the element that is open. *)
Definition close_tag (name : str) (stk : list frame) (root : option node) : option state :=
  match stk with
  | (n, attrs, ch) :: stk' =>
      if decide (n = rev name) then add_node (Element n attrs (rev ch)) stk' root else None
  | [] => None
  end.

(** Character data read so far becomes one [Text] node. *)
Definition flush (acc : str) (stk : list frame) : list frame :=
  match acc, stk with
  | _ :: _, (n, a, ch) :: stk' => (n, a, Text (rev acc) :: ch) :: stk'
  | _, _ => stk
  end.

(** An attribute name may occur once in a tag, and is not [xmlns]. *)
Definition add_attr (attrs : list (str * str)) (aname value : str)
  : option (list (str * str)) :=
  if bool_decide (rev aname = lit "xmlns") then None
  else if existsb (fun kv => bool_decide (fst kv = rev aname)) attrs then None
  else Some (attrs ++ [(rev aname, rev value)]).

Definition step (st : state) (c : char) : option state :=
  let '(St m stk root) := st in
  if negb (is_char c) then None else
  match m with
  | Content acc cr =>
      match stk with
      | [] =>
          if is_space c then Some (St (Content [] false) [] root)
          else if c =? LT then
            match root with
            | None => Some (St TagOpen [] None)
            | Some _ => None
            end
          else None
      | _ :: _ =>
          if c =? LT then Some (St TagOpen (flush acc stk) root)
          else if c =? AMP then Some (St (ContentRef acc []) stk root)
          else if c =? GT then None
          else if c =? CR then Some (St (Content (LF :: acc) true) stk root)
          else if (c =? LF) && cr then Some (St (Content acc false) stk root)
          else Some (St (Content (c :: acc) false) stk root)
      end
  | ContentRef acc ref =>
      if c =? SEMI then
        match decode_ref (rev ref) with
        | Some x => Some (St (Content (x :: acc) false) stk root)
        | None => None
        end
      else Some (St (ContentRef acc (c :: ref)) stk root)
  | TagOpen =>
      if c =? SLASH then Some (St ETagStart stk root)
      else if is_name_start c then Some (St (STagName [c]) stk root)
      else None
  | STagName name =>
      if is_name_char c then Some (St (STagName (c :: name)) stk root)
      else if is_space c then Some (St (STagSpace name []) stk root)
      else if c =? GT then open_tag name [] stk root
      else if c =? SLASH then Some (St (EmptySlash name []) stk root)
      else None
  | STagSpace name attrs =>
      if is_space c then Some (St (STagSpace name attrs) stk root)
      else if c =? GT then open_tag name attrs stk root
      else if c =? SLASH then Some (St (EmptySlash name attrs) stk root)
      else if is_name_start c then Some (St (AttrName name attrs [c]) stk root)
      else None
  | AttrName name attrs aname =>
      if is_name_char c then Some (St (AttrName name attrs (c :: aname)) stk root)
      else if c =? EQ then Some (St (AttrEqPost name attrs aname) stk root)
      else if is_space c then Some (St (AttrEqPre name attrs aname) stk root)
      else None
  | AttrEqPre name attrs aname =>
      if is_space c then Some (St (AttrEqPre name attrs aname) stk root)
      else if c =? EQ then Some (St (AttrEqPost name attrs aname) stk root)
      else None
  | AttrEqPost name attrs aname =>
      if is_space c then Some (St (AttrEqPost name attrs aname) stk root)
      else if (c =? QUOT) || (c =? APOS) then
        Some (St (AttrValue name attrs aname c [] false) stk root)
      else None
  | AttrValue name attrs aname quote acc cr =>
      if c =? quote then
        match add_attr attrs aname acc with
        | Some attrs' => Some (St (AfterAttr name attrs') stk root)
        | None => None
        end
      else if c =? LT then None
      else if c =? AMP then Some (St (AttrRef name attrs aname quote acc []) stk root)
      else if c =? CR then Some (St (AttrValue name attrs aname quote (SP :: acc) true) stk root)
      else if (c =? LF) && cr then Some (St (AttrValue name attrs aname quote acc false) stk root)
      else if (c =? LF) || (c =? TAB) then
        Some (St (AttrValue name attrs aname quote (SP :: acc) false) stk root)
      else Some (St (AttrValue name attrs aname quote (c :: acc) false) stk root)
  | AttrRef name attrs aname quote acc ref =>
      if c =? SEMI then
        match decode_ref (rev ref) with
        | Some x => Some (St (AttrValue name attrs aname quote (x :: acc) false) stk root)
        | None => None
        end
      else Some (St (AttrRef name attrs aname quote acc (c :: ref)) stk root)
  | AfterAttr name attrs =>
      if is_space c then Some (St (STagSpace name attrs) stk root)
      else if c =? GT then open_tag name attrs stk root
      else if c =? SLASH then Some (St (EmptySlash name attrs) stk root)
      else None
  | EmptySlash name attrs =>
      if c =? GT then empty_tag name attrs stk root else None
  | ETagStart =>
      if is_name_start c then Some (St (ETagName [c]) stk root) else None
  | ETagName name =>
      if is_name_char c then Some (St (ETagName (c :: name)) stk root)
      else if is_space c then Some (St (ETagSpace name) stk root)
      else if c =? GT then close_tag name stk root
      else None
  | ETagSpace name =>
      if is_space c then Some (St (ETagSpace name) stk root)
      else if c =? GT then close_tag name stk root
      else None
  end.

Fixpoint run (st : state) (input : str) : option state :=
  match input with
  | [] => Some st
  | c :: input' =>
      match step st c with
      | Some st' => run st' input'
      | None => None
      end
  end.

(** At the end of the input the root has to be closed. *)
Definition finish (st : state) : option node :=
  match st with
  | St (Content _ _) [] (Some root) => Some root
  | _ => None
  end.

Definition initial : state := St (Content [] false) [] None.

(** The declaration [Document.writexml] writes. *)
Definition xml_declaration : str :=
  lit "<?xml version=" ++ [QUOT] ++ lit "1.0" ++ [QUOT] ++ lit " ?>".

Fixpoint strip_prefix (p s : str) : option str :=
  match p, s with
  | [], _ => Some s
  | a :: p', b :: s' => if a =? b then strip_prefix p' s' else None
  | _ :: _, [] => None
  end.

(** The document a conformant parser reads from [document], if the model
    accepts it. *)
Definition parse (document : str) : option node :=
  let body := default document (strip_prefix xml_declaration document) in
  st ← run initial body; finish st.

Definition is_surrogate (c : char) : bool := (55296 <=? c) && (c <=? 57343).

(** [minidom.parseString(string)]: the string is encoded to UTF-8, which a
    lone surrogate does not allow, and parsed. *)
Definition parseString (string : str) : result node :=
  if existsb is_surrogate string then Raise UnicodeEncodeError
  else
    match parse string with
    | Some root => Ok root
    | None => Raise ExpatError
    end.

(** *** The writer *)

(** [_write_data(writer, data)]. *)
Definition write_data (data : str) : str :=
  replace GT (lit "&gt;")
    (replace QUOT (lit "&quot;")
       (replace LT (lit "&lt;")
          (replace AMP (lit "&amp;") data))).

Definition write_attrs (attrs : list (str * str)) : str :=
  flat_map (fun kv => [SP] ++ fst kv ++ [EQ; QUOT] ++ write_data (snd kv) ++ [QUOT]) attrs.

(** [node.writexml(writer, indent, addindent, newl)], returning what it
    writes. *)
Fixpoint writexml (n : node) (indent addindent newl : str) : str :=
  match n with
  | Text data => write_data (indent ++ data ++ newl)
  | Element tagName attrs childNodes =>
      indent ++ [LT] ++ tagName ++ write_attrs attrs ++
      match childNodes with
      | [] => lit "/>" ++ newl
      | [Text data] =>
          [GT] ++ write_data data ++ [LT; SLASH] ++ tagName ++ [GT] ++ newl
      | _ =>
          [GT] ++ newl ++
          flat_map (fun c => writexml c (indent ++ addindent) addindent newl) childNodes ++
          indent ++ [LT; SLASH] ++ tagName ++ [GT] ++ newl
      end
  end.

(** [dom.toprettyxml(indent)]: [Document.writexml] writes the declaration
    and then the root. *)
Definition toprettyxml (dom : node) (indent : str) : str :=
  xml_declaration ++ [LF] ++ writexml dom [] indent [LF].

End minidom.

(** ** Mappers/customer_mapper.py *)

Module CustomerMapper.

(** Lines 23-24: the contact name before the default is applied. *)
Definition contact_name_str (customer_dict : record) : result str :=
  let contact_name_parts :=
    [get_or customer_dict (lit "First Name") (VStr []);
     get_or customer_dict (lit "Last Name") (VStr [])] in
  joined <- join (lit " ") (List.filter truthy contact_name_parts) ;;
  Ok (strip joined).

(** Lines 42-58: the FullAddress subtree. *)
Definition full_address (customer_dict : record) : ET.element :=
  let full_address_element := ET.Element (lit "FullAddress") in
  let address := ET.set_text (ET.Element (lit "Address")) (VStr (lit "N/A")) in
  let full_address_element := ET.append full_address_element address in
  let city :=
    ET.set_text (ET.Element (lit "City")) (get_or customer_dict (lit "City") (VStr (lit "N/A"))) in
  let full_address_element := ET.append full_address_element city in
  let region := ET.set_text (ET.Element (lit "Region")) (VStr (lit "N/A")) in
  let full_address_element := ET.append full_address_element region in
  let postal_code_val := VInt 0 in
  let postal_code := ET.set_text (ET.Element (lit "PostalCode")) (VStr (py_str postal_code_val)) in
  let full_address_element := ET.append full_address_element postal_code in
  let country :=
    ET.set_text (ET.Element (lit "Country"))
      (get_or customer_dict (lit "Country") (VStr (lit "N/A"))) in
  ET.append full_address_element country.

(** Lines 12-58: the body of the loop, for one record. *)
Definition customer (customer_dict : record) : result ET.element :=
  let customer_element := ET.Element (lit "Customer") in
  let customer_element :=
    if truthy (get customer_dict (lit "Customer Id"))
    then ET.set customer_element (lit "CustomerID") (py_str (get customer_dict (lit "Customer Id")))
    else customer_element in
  let company_name :=
    ET.set_text (ET.Element (lit "CompanyName"))
      (get_or customer_dict (lit "Company") (VStr (lit "N/A"))) in
  let customer_element := ET.append customer_element company_name in
  contact_name_str <- contact_name_str customer_dict ;;
  let contact_name :=
    ET.set_text (ET.Element (lit "ContactName"))
      (VStr (if truthy (VStr contact_name_str) then contact_name_str else lit "N/A")) in
  let customer_element := ET.append customer_element contact_name in
  let contact_title := ET.set_text (ET.Element (lit "ContactTitle")) (VStr (lit "N/A")) in
  let customer_element := ET.append customer_element contact_title in
  let phone :=
    ET.set_text (ET.Element (lit "Phone"))
      (get_or customer_dict (lit "Phone 1") (VStr (lit "N/A"))) in
  let customer_element := ET.append customer_element phone in
  let customer_element :=
    if truthy (get customer_dict (lit "Phone 2"))
    then ET.append customer_element
           (ET.set_text (ET.Element (lit "Fax")) (get customer_dict (lit "Phone 2")))
    else customer_element in
  Ok (ET.append customer_element (full_address customer_dict)).

(** Lines 11-58: the loop over the records. *)
Fixpoint customers (customers_data : list record) (root_element : ET.element)
  : result ET.element :=
  match customers_data with
  | [] => Ok root_element
  | customer_dict :: rest =>
      customer_element <- customer customer_dict ;;
      customers rest (ET.append root_element customer_element)
  end.

(** Lines 9-58: the tree handed to the serializer. *)
Definition root_element (customers_data : list record) : result ET.element :=
  customers customers_data (ET.Element (lit "Customers")).

(** Lines 5-63. *)
Definition json_to_xml (customers_data : list record) : result str :=
  root_element <- root_element customers_data ;;
  xml_str <- ET.tostring root_element ;;
  dom <- minidom.parseString xml_str ;;
  Ok (minidom.toprettyxml dom (lit "  ")).

End CustomerMapper.

(** ** Field derivation rules, on the tree the mapper builds *)

Section Fields.
Import CustomerMapper.

(** The text of the first child of [e] tagged [t]. *)
Definition child_text (e : ET.element) (t : str) : option pyval :=
  ET.text <$> ET.find e t.

Lemma customer_inv d e :
  customer d = Ok e ->
  exists name, contact_name_str d = Ok name /\
    e = ET.Elem (lit "Customer")
          (if truthy (get d (lit "Customer Id"))
           then [(lit "CustomerID", py_str (get d (lit "Customer Id")))] else [])
          VNone
          ([ET.Elem (lit "CompanyName") [] (get_or d (lit "Company") (VStr (lit "N/A"))) [];
            ET.Elem (lit "ContactName") []
              (VStr (if truthy (VStr name) then name else lit "N/A")) [];
            ET.Elem (lit "ContactTitle") [] (VStr (lit "N/A")) [];
            ET.Elem (lit "Phone") [] (get_or d (lit "Phone 1") (VStr (lit "N/A"))) []]
           ++ (if truthy (get d (lit "Phone 2"))
               then [ET.Elem (lit "Fax") [] (get d (lit "Phone 2")) []] else [])
           ++ [full_address d]).
Proof.
  unfold customer. destruct (contact_name_str d) as [name|] eqn:Hn; [|discriminate].
  cbn [bind]. intros [= <-]. exists name. split; [reflexivity|].
  destruct (truthy (get d (lit "Customer Id"))), (truthy (get d (lit "Phone 2"))); reflexivity.
Qed.

Lemma full_address_eq d :
  full_address d =
    ET.Elem (lit "FullAddress") [] VNone
      [ET.Elem (lit "Address") [] (VStr (lit "N/A")) [];
       ET.Elem (lit "City") [] (get_or d (lit "City") (VStr (lit "N/A"))) [];
       ET.Elem (lit "Region") [] (VStr (lit "N/A")) [];
       ET.Elem (lit "PostalCode") [] (VStr (lit "0")) [];
       ET.Elem (lit "Country") [] (get_or d (lit "Country") (VStr (lit "N/A"))) []].
Proof. reflexivity. Qed.

End Fields.

(** ** The parser on what the serializers write *)

Module parser_facts.
Import minidom.

Ltac list_norm := repeat (cbn [app]; rewrite <- ?app_assoc).

Ltac split_andb :=
  repeat match goal with
    | H : _ && _ = true |- _ => apply andb_true_iff in H; destruct H
    end.

Lemma run_app st s1 s2 :
  run st (s1 ++ s2) = st' ← run st s1; run st' s2.
Proof.
  revert st. induction s1 as [|c s1 IH]; intros st; [reflexivity|].
  cbn [app run]. destruct (step st c); [apply IH | reflexivity].
Qed.

Lemma step_char st c st' : step st c = Some st' -> is_char c = true.
Proof.
  destruct st as [m stk root]. unfold step.
  destruct (is_char c); [reflexivity | discriminate].
Qed.

(** The parser reads every character it is given: an input it accepts
    holds only characters of the [Char] production. *)
Lemma run_chars s : forall st st', run st s = Some st' -> forallb is_char s = true.
Proof.
  induction s as [|c s IH]; intros st st' H; [reflexivity|].
  cbn [run] in H. destruct (step st c) as [st1|] eqn:Hs; [|discriminate].
  cbn [forallb]. rewrite (step_char _ _ _ Hs). exact (IH _ _ H).
Qed.

Ltac bool_to_prop :=
  repeat match goal with
    | H : _ && _ = true |- _ => apply andb_true_iff in H; destruct H
    | H : _ || _ = true |- _ => apply orb_true_iff in H; destruct H
    | H : _ || _ = false |- _ => apply orb_false_iff in H; destruct H
    | H : negb _ = true |- _ => apply negb_true_iff in H
    | H : (_ <=? _) = true |- _ => apply N.leb_le in H
    | H : (_ <=? _) = false |- _ => apply N.leb_gt in H
    | H : (_ =? _) = true |- _ => apply N.eqb_eq in H
    | H : (_ =? _) = false |- _ => apply N.eqb_neq in H
    end.

Lemma name_char_is_char c : is_name_char c = true -> is_char c = true.
Proof.
  unfold is_name_char, is_name_start, is_letter, is_digit, is_char. intros H.
  assert (32 <= c <= 55295) as [Hlo Hhi] by (bool_to_prop; lia).
  apply N.leb_le in Hlo, Hhi. rewrite Hlo, Hhi.
  destruct (c =? 9), (c =? 10), (c =? 13); reflexivity.
Qed.

Lemma name_start_is_name_char c : is_name_start c = true -> is_name_char c = true.
Proof. unfold is_name_char. intros ->. reflexivity. Qed.

(** A name character is none of the characters that end a name. *)
Lemma name_char_plain c :
  is_name_char c = true ->
  is_space c = false /\ (c =? GT) = false /\ (c =? SLASH) = false /\ (c =? EQ) = false.
Proof.
  unfold is_name_char, is_name_start, is_letter, is_digit, is_space, SP, TAB, CR, LF,
    GT, SLASH, EQ.
  intros H.
  assert (c <> 32 /\ c <> 9 /\ c <> 13 /\ c <> 10 /\ c <> 62 /\ c <> 47 /\ c <> 61)
    as (H1 & H2 & H3 & H4 & H5 & H6 & H7) by (bool_to_prop; lia).
  apply N.eqb_neq in H1, H2, H3, H4, H5, H6, H7.
  rewrite H1, H2, H3, H4, H5, H6, H7. auto.
Qed.

(** A well-formed name, as the parser reads one. *)
Definition is_name (n : str) : bool :=
  match n with
  | c :: n' => is_name_start c && forallb is_name_char n'
  | [] => false
  end.

Section Names.
Context (stk : list frame) (root : option node).

Lemma run_stag_name n acc :
  forallb is_name_char n = true ->
  run (St (STagName acc) stk root) n = Some (St (STagName (rev n ++ acc)) stk root).
Proof.
  revert acc. induction n as [|c n IH]; intros acc H; [reflexivity|].
  cbn [forallb] in H. apply andb_true_iff in H as [Hc Hn].
  cbn [run]. unfold step. rewrite (name_char_is_char _ Hc), Hc. cbn [negb].
  rewrite (IH _ Hn). cbn [rev]. rewrite <- app_assoc. reflexivity.
Qed.

Lemma run_etag_name n acc :
  forallb is_name_char n = true ->
  run (St (ETagName acc) stk root) n = Some (St (ETagName (rev n ++ acc)) stk root).
Proof.
  revert acc. induction n as [|c n IH]; intros acc H; [reflexivity|].
  cbn [forallb] in H. apply andb_true_iff in H as [Hc Hn].
  cbn [run]. unfold step. rewrite (name_char_is_char _ Hc), Hc. cbn [negb].
  rewrite (IH _ Hn). cbn [rev]. rewrite <- app_assoc. reflexivity.
Qed.

Lemma run_attr_name name attrs n acc :
  forallb is_name_char n = true ->
  run (St (AttrName name attrs acc) stk root) n
  = Some (St (AttrName name attrs (rev n ++ acc)) stk root).
Proof.
  revert acc. induction n as [|c n IH]; intros acc H; [reflexivity|].
  cbn [forallb] in H. apply andb_true_iff in H as [Hc Hn].
  cbn [run]. unfold step. rewrite (name_char_is_char _ Hc), Hc. cbn [negb].
  rewrite (IH _ Hn). cbn [rev]. rewrite <- app_assoc. reflexivity.
Qed.

(** [<name] read from the start of a tag. *)
Lemma run_open_name n :
  is_name n = true ->
  run (St TagOpen stk root) n = Some (St (STagName (rev n)) stk root).
Proof.
  destruct n as [|c n]; [discriminate|]. cbn [is_name]. intros H.
  apply andb_true_iff in H as [Hc Hn].
  cbn [run]. unfold step at 1.
  pose proof (name_start_is_name_char _ Hc) as Hc'.
  destruct (name_char_plain _ Hc') as (_ & _ & Hs & _).
  rewrite (name_char_is_char _ Hc'), Hs, Hc. cbn [negb].
  rewrite (run_stag_name _ _ Hn). reflexivity.
Qed.

(** [</name] read from the start of a tag. *)
Lemma run_close_name n :
  is_name n = true ->
  run (St TagOpen stk root) (SLASH :: n) = Some (St (ETagName (rev n)) stk root).
Proof.
  destruct n as [|c n]; [discriminate|]. cbn [is_name]. intros H.
  apply andb_true_iff in H as [Hc Hn].
  change (run (St TagOpen stk root) (SLASH :: c :: n))
    with (run (St ETagStart stk root) (c :: n)).
  cbn [run]. unfold step at 1.
  rewrite (name_char_is_char _ (name_start_is_name_char _ Hc)), Hc. cbn [negb].
  rewrite (run_etag_name _ _ Hn). reflexivity.
Qed.

End Names.

(** *** Escaping, one character at a time *)

Lemma flat_map_flat_map {A B C} (f : A -> list B) (g : B -> list C) l :
  flat_map g (flat_map f l) = flat_map (fun x => flat_map g (f x)) l.
Proof.
  induction l as [|x l IH]; [reflexivity|].
  cbn [flat_map]. rewrite flat_map_app, IH. reflexivity.
Qed.

Lemma replace_guard c by_ s :
  (if contains c s then replace c by_ s else s) = replace c by_ s.
Proof.
  destruct (contains c s) eqn:H; [reflexivity|].
  unfold contains in H. unfold replace.
  induction s as [|x s IH]; [reflexivity|].
  cbn [existsb] in H. apply orb_false_iff in H as [Hx Hs].
  cbn [flat_map]. rewrite N.eqb_sym, Hx. cbn [app]. f_equal. exact (IH Hs).
Qed.

(** What [_escape_cdata] writes for one character. *)
Definition cdata_char (c : char) : str :=
  if c =? AMP then lit "&amp;"
  else if c =? LT then lit "&lt;"
  else if c =? GT then lit "&gt;"
  else [c].

(** What [_escape_attrib] writes for one character. *)
Definition attrib_char (c : char) : str :=
  if c =? AMP then lit "&amp;"
  else if c =? LT then lit "&lt;"
  else if c =? GT then lit "&gt;"
  else if c =? QUOT then lit "&quot;"
  else if c =? CR then lit "&#13;"
  else if c =? LF then lit "&#10;"
  else if c =? TAB then lit "&#09;"
  else [c].

(** What [_write_data] writes for one character. *)
Definition data_char (c : char) : str :=
  if c =? AMP then lit "&amp;"
  else if c =? LT then lit "&lt;"
  else if c =? GT then lit "&gt;"
  else if c =? QUOT then lit "&quot;"
  else [c].

Ltac by_cases c :=
  unfold AMP, LT, GT, QUOT, CR, LF, TAB;
  repeat match goal with
    | |- context [c =? ?k] => destruct (N.eqb_spec c k) as [->|]; [reflexivity|]
    end;
  repeat (cbn [flat_map app];
          match goal with
          | H : c <> ?k |- context [c =? ?k] => rewrite (proj2 (N.eqb_neq c k) H)
          end);
  cbn [flat_map app]; rewrite ?app_nil_r; reflexivity.

Lemma escape_cdata_eq t : ET.escape_cdata (VStr t) = Ok (flat_map cdata_char t).
Proof.
  unfold ET.escape_cdata. rewrite !replace_guard. f_equal.
  unfold replace. rewrite !flat_map_flat_map. apply flat_map_ext. intros c.
  unfold cdata_char. by_cases c.
Qed.

Lemma escape_attrib_eq t : ET.escape_attrib t = flat_map attrib_char t.
Proof.
  unfold ET.escape_attrib. rewrite !replace_guard.
  unfold replace. rewrite !flat_map_flat_map. apply flat_map_ext. intros c.
  unfold attrib_char. by_cases c.
Qed.

Lemma write_data_eq t : write_data t = flat_map data_char t.
Proof.
  unfold write_data, replace. rewrite !flat_map_flat_map. apply flat_map_ext. intros c.
  unfold data_char. by_cases c.
Qed.

(** *** Character data *)

(** Line ends as the parser reports them: CR LF and a lone CR are read as
    LF. [cr] tells that the character before was a CR. *)
Fixpoint eol_from (cr : bool) (s : str) : str :=
  match s with
  | [] => []
  | c :: s' =>
      if c =? CR then LF :: eol_from true s'
      else if (c =? LF) && cr then eol_from false s'
      else c :: eol_from false s'
  end.

Definition eol (s : str) : str := eol_from false s.

(** Whether the text read so far ends with a CR. *)
Fixpoint last_cr (cr : bool) (s : str) : bool :=
  match s with
  | [] => cr
  | c :: s' => last_cr (c =? CR) s'
  end.

Definition push_text (cr : bool) (c : char) (acc : str) : str :=
  if c =? CR then LF :: acc
  else if (c =? LF) && cr then acc
  else c :: acc.

Lemma eol_push cr c t acc :
  rev (eol_from (c =? CR) t) ++ push_text cr c acc = rev (eol_from cr (c :: t)) ++ acc.
Proof.
  cbn [eol_from]. unfold push_text.
  destruct (c =? CR) eqn:E1; [cbn [rev]; rewrite <- app_assoc; reflexivity|].
  destruct ((c =? LF) && cr); [reflexivity|].
  cbn [rev]. rewrite <- app_assoc. reflexivity.
Qed.

Section Text.
Context (f : frame) (stk : list frame) (root : option node).

Lemma step_content c acc cr :
  is_char c = true -> (c =? LT) = false -> (c =? AMP) = false -> (c =? GT) = false ->
  step (St (Content acc cr) (f :: stk) root) c
  = Some (St (Content (push_text cr c acc) (c =? CR)) (f :: stk) root).
Proof.
  intros Hc H1 H2 H3. unfold step, push_text. rewrite Hc, H1, H2, H3. cbn [negb].
  destruct (c =? CR); [reflexivity|]. destruct ((c =? LF) && cr); reflexivity.
Qed.

Lemma run_cdata_char c acc cr :
  is_char c = true ->
  run (St (Content acc cr) (f :: stk) root) (cdata_char c)
  = Some (St (Content (push_text cr c acc) (c =? CR)) (f :: stk) root).
Proof.
  intros Hc. unfold cdata_char, AMP, LT, GT.
  destruct (N.eqb_spec c 38) as [->|H1]; [reflexivity|].
  destruct (N.eqb_spec c 60) as [->|H2]; [reflexivity|].
  destruct (N.eqb_spec c 62) as [->|H3]; [reflexivity|].
  cbn [run]. rewrite step_content; [reflexivity|assumption|..]; by apply N.eqb_neq.
Qed.

Lemma run_data_char c acc cr :
  is_char c = true ->
  run (St (Content acc cr) (f :: stk) root) (data_char c)
  = Some (St (Content (push_text cr c acc) (c =? CR)) (f :: stk) root).
Proof.
  intros Hc. unfold data_char, AMP, LT, GT, QUOT.
  destruct (N.eqb_spec c 38) as [->|H1]; [reflexivity|].
  destruct (N.eqb_spec c 60) as [->|H2]; [reflexivity|].
  destruct (N.eqb_spec c 62) as [->|H3]; [reflexivity|].
  destruct (N.eqb_spec c 34) as [->|H4]; [reflexivity|].
  cbn [run]. rewrite step_content; [reflexivity|assumption|..]; by apply N.eqb_neq.
Qed.

(** Escaped character data: the parser gets the text back, its line
    ends normalized. *)
Lemma run_text (enc : char -> str) t :
  (forall c acc cr, is_char c = true ->
     run (St (Content acc cr) (f :: stk) root) (enc c)
     = Some (St (Content (push_text cr c acc) (c =? CR)) (f :: stk) root)) ->
  forallb is_char t = true ->
  forall acc cr rest,
  run (St (Content acc cr) (f :: stk) root) (flat_map enc t ++ rest)
  = run (St (Content (rev (eol_from cr t) ++ acc) (last_cr cr t)) (f :: stk) root) rest.
Proof.
  intros Henc. induction t as [|c t IH]; intros Ht acc cr rest; [reflexivity|].
  cbn [forallb] in Ht. apply andb_true_iff in Ht as [Hc Ht].
  cbn [flat_map]. rewrite <- app_assoc, run_app, (Henc _ _ _ Hc).
  cbn [mbind option_bind]. rewrite (IH Ht), eol_push. reflexivity.
Qed.

End Text.

(** *** Attribute values *)

(** White space in an attribute value written as it is: the parser reads
    a space for each CR LF, CR, LF and TAB. *)
Fixpoint attr_norm_from (cr : bool) (s : str) : str :=
  match s with
  | [] => []
  | c :: s' =>
      if c =? CR then SP :: attr_norm_from true s'
      else if (c =? LF) && cr then attr_norm_from false s'
      else if (c =? LF) || (c =? TAB) then SP :: attr_norm_from false s'
      else c :: attr_norm_from false s'
  end.

Definition attr_norm (s : str) : str := attr_norm_from false s.

Definition push_attr (cr : bool) (c : char) (acc : str) : str :=
  if c =? CR then SP :: acc
  else if (c =? LF) && cr then acc
  else if (c =? LF) || (c =? TAB) then SP :: acc
  else c :: acc.

Lemma attr_norm_push cr c t acc :
  rev (attr_norm_from (c =? CR) t) ++ push_attr cr c acc
  = rev (attr_norm_from cr (c :: t)) ++ acc.
Proof.
  cbn [attr_norm_from]. unfold push_attr.
  destruct (c =? CR) eqn:E1; [cbn [rev]; rewrite <- app_assoc; reflexivity|].
  destruct ((c =? LF) && cr); [reflexivity|].
  destruct ((c =? LF) || (c =? TAB)); cbn [rev]; rewrite <- app_assoc; reflexivity.
Qed.

Section Values.
Context (name : str) (attrs : list (str * str)) (an : str)
  (stk : list frame) (root : option node).

Lemma run_attrib_char c acc cr :
  is_char c = true ->
  run (St (AttrValue name attrs an QUOT acc cr) stk root) (attrib_char c)
  = Some (St (AttrValue name attrs an QUOT (c :: acc) false) stk root).
Proof.
  intros Hc. unfold attrib_char, AMP, LT, GT, QUOT, CR, LF, TAB.
  destruct (N.eqb_spec c 38) as [->|H1]; [reflexivity|].
  destruct (N.eqb_spec c 60) as [->|H2]; [reflexivity|].
  destruct (N.eqb_spec c 62) as [->|H3]; [reflexivity|].
  destruct (N.eqb_spec c 34) as [->|H4]; [reflexivity|].
  destruct (N.eqb_spec c 13) as [->|H5]; [reflexivity|].
  destruct (N.eqb_spec c 10) as [->|H6]; [reflexivity|].
  destruct (N.eqb_spec c 9) as [->|H7]; [reflexivity|].
  apply N.eqb_neq in H1, H2, H4, H5, H6, H7.
  cbn [run]. unfold step, QUOT, LT, AMP, CR, LF, TAB.
  rewrite Hc, H1, H2, H4, H5, H6, H7. reflexivity.
Qed.

Lemma run_data_char_attr c acc cr :
  is_char c = true ->
  run (St (AttrValue name attrs an QUOT acc cr) stk root) (data_char c)
  = Some (St (AttrValue name attrs an QUOT (push_attr cr c acc) (c =? CR)) stk root).
Proof.
  intros Hc. unfold data_char, AMP, LT, GT, QUOT.
  destruct (N.eqb_spec c 38) as [->|H1]; [reflexivity|].
  destruct (N.eqb_spec c 60) as [->|H2]; [reflexivity|].
  destruct (N.eqb_spec c 62) as [->|H3]; [reflexivity|].
  destruct (N.eqb_spec c 34) as [->|H4]; [reflexivity|].
  apply N.eqb_neq in H1, H2, H4.
  cbn [run]. unfold step, push_attr, QUOT, LT, AMP.
  rewrite Hc, H1, H2, H4. cbn [negb].
  destruct (c =? CR); [reflexivity|]. destruct ((c =? LF) && cr); [reflexivity|].
  destruct ((c =? LF) || (c =? TAB)); reflexivity.
Qed.

Definition value_read (acc : str) (rest : str) : option state :=
  match add_attr attrs an acc with
  | Some attrs' => run (St (AfterAttr name attrs') stk root) rest
  | None => None
  end.

(** A value as [_escape_attrib] writes it, up to the closing quote. *)
Lemma run_attrib_value v :
  forallb is_char v = true ->
  forall acc cr rest,
  run (St (AttrValue name attrs an QUOT acc cr) stk root)
    (flat_map attrib_char v ++ QUOT :: rest)
  = value_read (rev v ++ acc) rest.
Proof.
  induction v as [|c v IH]; intros Hv acc cr rest.
  { unfold value_read. cbn. destruct (add_attr attrs an acc); reflexivity. }
  cbn [forallb] in Hv. apply andb_true_iff in Hv as [Hc Hv].
  cbn [flat_map]. rewrite <- app_assoc, run_app, (run_attrib_char _ _ _ Hc).
  cbn [mbind option_bind]. rewrite (IH Hv). cbn [rev]. rewrite <- app_assoc. reflexivity.
Qed.

(** A value as [_write_data] writes it, up to the closing quote. *)
Lemma run_data_value v :
  forallb is_char v = true ->
  forall acc cr rest,
  run (St (AttrValue name attrs an QUOT acc cr) stk root)
    (flat_map data_char v ++ QUOT :: rest)
  = value_read (rev (attr_norm_from cr v) ++ acc) rest.
Proof.
  induction v as [|c v IH]; intros Hv acc cr rest.
  { unfold value_read. cbn. destruct (add_attr attrs an acc); reflexivity. }
  cbn [forallb] in Hv. apply andb_true_iff in Hv as [Hc Hv].
  cbn [flat_map]. rewrite <- app_assoc, run_app, (run_data_char_attr _ _ _ Hc).
  cbn [mbind option_bind]. rewrite (IH Hv), attr_norm_push. reflexivity.
Qed.

End Values.

(** *** Tags *)

(** Inside a start tag, after the name or after an attribute. *)
Definition tag_mode (name : str) (attrs : list (str * str)) : mode :=
  match attrs with
  | [] => STagName name
  | _ :: _ => AfterAttr name attrs
  end.

(** The names of a start tag are well formed, none is [xmlns] and no
    attribute is written twice. [seen] holds the attribute names before
    [keys]. *)
Fixpoint keys_ok (seen keys : list str) : bool :=
  match keys with
  | [] => true
  | k :: keys' =>
      is_name k && negb (bool_decide (k = lit "xmlns"))
      && negb (existsb (fun k' => bool_decide (k' = k)) seen)
      && keys_ok (seen ++ [k]) keys'
  end.

Definition values_ok (items : list (str * str)) : bool :=
  forallb (fun kv => forallb is_char (snd kv)) items.

Lemma existsb_key k (attrs : list (str * str)) :
  existsb (fun kv => bool_decide (fst kv = k)) attrs
  = existsb (fun k' => bool_decide (k' = k)) (map fst attrs).
Proof. induction attrs as [|kv attrs IH]; [reflexivity|]. cbn. by rewrite IH. Qed.

Lemma tag_mode_snoc name attrs kv : tag_mode name (attrs ++ [kv]) = AfterAttr name (attrs ++ [kv]).
Proof. destruct attrs; reflexivity. Qed.

Section Tags.
Context (stk : list frame) (root : option node).

Lemma run_tag_space name attrs rest :
  run (St (tag_mode name attrs) stk root) (SP :: rest)
  = run (St (STagSpace name attrs) stk root) rest.
Proof. destruct attrs; reflexivity. Qed.

Lemma run_tag_open name attrs rest :
  run (St (tag_mode name attrs) stk root) (GT :: rest)
  = run (St (Content [] false) ((rev name, attrs, []) :: stk) root) rest.
Proof. destruct attrs; reflexivity. Qed.

Lemma run_tag_empty name attrs rest :
  run (St (tag_mode name attrs) stk root) (SLASH :: GT :: rest)
  = st ← add_node (Element (rev name) attrs []) stk root; run st rest.
Proof.
  destruct attrs; cbn; unfold empty_tag;
    destruct (add_node _ stk root); reflexivity.
Qed.

Lemma run_tag_space_empty name attrs rest :
  run (St (tag_mode name attrs) stk root) (SP :: SLASH :: GT :: rest)
  = st ← add_node (Element (rev name) attrs []) stk root; run st rest.
Proof.
  destruct attrs; cbn; unfold empty_tag;
    destruct (add_node _ stk root); reflexivity.
Qed.

(** [/name>] closes the element that is open under that name. *)
Lemma run_end_tag tag attrs ch rest :
  is_name tag = true ->
  run (St TagOpen ((tag, attrs, ch) :: stk) root) (SLASH :: tag ++ GT :: rest)
  = st ← add_node (Element tag attrs (rev ch)) stk root; run st rest.
Proof.
  intros Hn. change (SLASH :: tag ++ GT :: rest) with ((SLASH :: tag) ++ GT :: rest).
  rewrite run_app, (run_close_name _ _ _ Hn). cbn [mbind option_bind run].
  replace (step (St (ETagName (rev tag)) ((tag, attrs, ch) :: stk) root) GT)
    with (add_node (Element tag attrs (rev ch)) stk root).
  { destruct (add_node _ stk root); reflexivity. }
  cbn. rewrite rev_involutive. destruct (decide (tag = tag)); [reflexivity | contradiction].
Qed.

(** The attributes of a start tag, whatever writes their values:
    [enc] is what is written for a value and [dec] what the parser reads
    back from it. *)
Section Items.
Context (enc dec : str -> str).
Context (Hvalue : forall name attrs an v rest,
  forallb is_char v = true ->
  run (St (AttrValue name attrs an QUOT [] false) stk root) (enc v ++ QUOT :: rest)
  = value_read name attrs an stk root (rev (dec v)) rest).

Definition items_str (items : list (str * str)) : str :=
  flat_map (fun kv => [SP] ++ fst kv ++ [EQ; QUOT] ++ enc (snd kv) ++ [QUOT]) items.

Definition decoded (items : list (str * str)) : list (str * str) :=
  map (fun kv => (fst kv, dec (snd kv))) items.

Lemma run_item name attrs k v rest :
  is_name k = true ->
  bool_decide (k = lit "xmlns") = false ->
  existsb (fun k' => bool_decide (k' = k)) (map fst attrs) = false ->
  forallb is_char v = true ->
  run (St (tag_mode name attrs) stk root)
    (([SP] ++ k ++ [EQ; QUOT] ++ enc v ++ [QUOT]) ++ rest)
  = run (St (tag_mode name (attrs ++ [(k, dec v)])) stk root) rest.
Proof using Hvalue.
  intros Hk Hns Hfresh Hv.
  replace (([SP] ++ k ++ [EQ; QUOT] ++ enc v ++ [QUOT]) ++ rest)
    with (SP :: (k ++ EQ :: QUOT :: (enc v ++ QUOT :: rest)))
    by (repeat (cbn [app]; rewrite <- ?app_assoc); reflexivity).
  rewrite run_tag_space.
  destruct k as [|c k]; [discriminate|]. cbn [is_name] in Hk.
  apply andb_true_iff in Hk as [Hc Hk].
  pose proof (name_start_is_name_char _ Hc) as Hc'.
  destruct (name_char_plain _ Hc') as (H1 & H2 & H3 & _).
  cbn [app run]. unfold step at 1.
  rewrite (name_char_is_char _ Hc'), H1, H2, H3, Hc. cbn [negb].
  rewrite run_app, (run_attr_name _ _ _ _ _ _ Hk). cbn [mbind option_bind].
  change (run (St (AttrName name attrs (rev k ++ [c])) stk root)
            (EQ :: QUOT :: enc v ++ QUOT :: rest))
    with (run (St (AttrValue name attrs (rev k ++ [c]) QUOT [] false) stk root)
            (enc v ++ QUOT :: rest)).
  rewrite (Hvalue _ _ _ _ _ Hv). unfold value_read, add_attr.
  rewrite rev_app_distr, !rev_involutive. cbn [rev app].
  rewrite Hns, existsb_key, Hfresh, tag_mode_snoc. reflexivity.
Qed.

Lemma run_items name items : forall attrs rest,
  keys_ok (map fst attrs) (map fst items) = true ->
  values_ok items = true ->
  run (St (tag_mode name attrs) stk root) (items_str items ++ rest)
  = run (St (tag_mode name (attrs ++ decoded items)) stk root) rest.
Proof using Hvalue.
  induction items as [|[k v] items IH]; intros attrs rest Hk Hv.
  { cbn. rewrite app_nil_r. reflexivity. }
  cbn [map fst keys_ok] in Hk. apply andb_true_iff in Hk as [Hk Hks].
  apply andb_true_iff in Hk as [Hk Hfresh]. apply negb_true_iff in Hfresh.
  apply andb_true_iff in Hk as [Hk Hns]. apply negb_true_iff in Hns.
  cbn [values_ok forallb snd] in Hv. apply andb_true_iff in Hv as [Hv Hvs].
  cbn [items_str flat_map fst snd]. rewrite <- app_assoc.
  rewrite (run_item _ _ _ _ _ Hk Hns Hfresh Hv).
  fold (items_str items). rewrite IH.
  - cbn [decoded map fst snd]. rewrite <- app_assoc. reflexivity.
  - rewrite map_app. exact Hks.
  - exact Hvs.
Qed.

(** [<name k1="v1" ...] read from the start of a tag. *)
Lemma run_start_tag tag items rest :
  is_name tag = true ->
  keys_ok [] (map fst items) = true ->
  values_ok items = true ->
  run (St TagOpen stk root) (tag ++ items_str items ++ rest)
  = run (St (tag_mode (rev tag) (decoded items)) stk root) rest.
Proof using Hvalue.
  intros Hn Hk Hv. rewrite run_app, (run_open_name _ _ _ Hn). cbn [mbind option_bind].
  exact (run_items (rev tag) items [] rest Hk Hv).
Qed.

End Items.
End Tags.

(** *** What the parser builds from [ET.tostring] *)

Lemma element_ind' (P : ET.element -> Prop) :
  (forall t a x cs, Forall P cs -> P (ET.Elem t a x cs)) -> forall e, P e.
Proof.
  intros H. fix IH 1. intros [t a x cs]. apply H.
  induction cs as [|c cs IHcs]; constructor; [apply IH | exact IHcs].
Qed.

(** The text of an element, as a list of child nodes. *)
Definition text_node (text : pyval) : list node :=
  match text with
  | VStr (c :: s) => [Text (eol (c :: s))]
  | _ => []
  end.

(** The document [minidom.parseString] builds from a serialized tree. *)
Fixpoint to_dom (e : ET.element) : node :=
  let '(ET.Elem tag attrib text children) := e in
  Element tag attrib (text_node text ++ map to_dom children).

(** A text can be written if it is a [str] or is not written at all, and
    is read back if its characters are XML characters. *)
Definition text_ok (text : pyval) : bool :=
  match text with
  | VStr s => forallb is_char s
  | v => negb (truthy v)
  end.

Fixpoint serializable (e : ET.element) : bool :=
  let '(ET.Elem tag attrib text children) := e in
  is_name tag && keys_ok [] (map fst attrib) && values_ok attrib && text_ok text
  && forallb serializable children.

Definition serialize_all : list ET.element -> result str :=
  fix each (l : list ET.element) : result str :=
    match l with
    | [] => Ok []
    | e :: l' => x <- ET.serialize_xml e ;; y <- each l' ;; Ok (x ++ y)
    end.

Lemma serialize_xml_eq tag attrib text children :
  ET.serialize_xml (ET.Elem tag attrib text children)
  = if truthy text || negb (Nat.eqb (length children) 0) then
      escaped <- (if truthy text then ET.escape_cdata text else Ok []) ;;
      inner <- serialize_all children ;;
      Ok (([LT] ++ tag ++ ET.serialize_items attrib) ++ [GT] ++ escaped ++ inner
          ++ [LT; SLASH] ++ tag ++ [GT])
    else Ok (([LT] ++ tag ++ ET.serialize_items attrib) ++ lit " />").
Proof. reflexivity. Qed.

Definition flushed (acc : str) (ch : list node) : list node :=
  match acc with
  | [] => ch
  | _ :: _ => Text (rev acc) :: ch
  end.

Lemma flush_cons acc n a ch stk : flush acc ((n, a, ch) :: stk) = (n, a, flushed acc ch) :: stk.
Proof. destruct acc; reflexivity. Qed.

Lemma decoded_id items : decoded (fun v => v) items = items.
Proof.
  unfold decoded. induction items as [|[k v] items IH]; [reflexivity|].
  cbn [map fst snd]. rewrite IH. reflexivity.
Qed.

Lemma attrib_value_read stk root name attrs an v rest :
  forallb is_char v = true ->
  run (St (AttrValue name attrs an QUOT [] false) stk root) (ET.escape_attrib v ++ QUOT :: rest)
  = value_read name attrs an stk root (rev v) rest.
Proof.
  intros Hv. rewrite escape_attrib_eq, (run_attrib_value _ _ _ _ _ _ Hv), app_nil_r.
  reflexivity.
Qed.

Lemma eol_cons_rev c s : exists x acc, rev (eol (c :: s)) = x :: acc.
Proof.
  assert (exists y l, eol (c :: s) = y :: l) as (y & l & ->).
  { unfold eol. cbn [eol_from]. rewrite andb_false_r. destruct (c =? CR); eauto. }
  destruct (rev (y :: l)) as [|x acc] eqn:E; [|eauto].
  apply (f_equal (@length _)) in E. rewrite length_rev in E. discriminate.
Qed.

(** The children of an open element followed by its end tag. *)
Lemma run_children tag cs :
  is_name tag = true ->
  Forall (fun e => serializable e = true ->
    exists s, ET.serialize_xml e = Ok (LT :: s) /\
      forall stk root rest,
        run (St TagOpen stk root) (s ++ rest)
        = st ← add_node (to_dom e) stk root; run st rest) cs ->
  forallb serializable cs = true ->
  exists inner, serialize_all cs = Ok inner /\
    forall attrs acc cr ch stk root rest,
      run (St (Content acc cr) ((tag, attrs, ch) :: stk) root)
        (inner ++ LT :: SLASH :: tag ++ GT :: rest)
      = st ← add_node (Element tag attrs (rev (flushed acc ch) ++ map to_dom cs)) stk root;
        run st rest.
Proof.
  intros Hn. induction 1 as [|c cs Hc _ IH]; intros Hser.
  - exists []. split; [reflexivity|]. intros.
    change (run (St (Content acc cr) ((tag, attrs, ch) :: stk) root)
              ([] ++ LT :: SLASH :: tag ++ GT :: rest))
      with (run (St TagOpen (flush acc ((tag, attrs, ch) :: stk)) root)
              (SLASH :: tag ++ GT :: rest)).
    rewrite flush_cons, (run_end_tag _ _ _ _ _ _ Hn). cbn [map]. rewrite app_nil_r.
    reflexivity.
  - cbn [forallb] in Hser. apply andb_true_iff in Hser as [Hser1 Hser2].
    destruct (Hc Hser1) as (s & Hs & Hrun). destruct (IH Hser2) as (inner & Hi & Hrest).
    exists ((LT :: s) ++ inner). split.
    { cbn [serialize_all]. rewrite Hs. cbn [bind]. fold serialize_all. rewrite Hi.
      reflexivity. }
    intros.
    change (run (St (Content acc cr) ((tag, attrs, ch) :: stk) root)
              (((LT :: s) ++ inner) ++ LT :: SLASH :: tag ++ GT :: rest))
      with (run (St TagOpen (flush acc ((tag, attrs, ch) :: stk)) root)
              ((s ++ inner) ++ LT :: SLASH :: tag ++ GT :: rest)).
    rewrite <- app_assoc, Hrun, flush_cons. cbn [add_node mbind option_bind].
    rewrite Hrest. cbn [flushed map rev]. rewrite <- app_assoc. reflexivity.
Qed.

Lemma to_dom_open e :
  serializable e = true ->
  exists s, ET.serialize_xml e = Ok (LT :: s) /\
    forall stk root rest,
      run (St TagOpen stk root) (s ++ rest)
      = st ← add_node (to_dom e) stk root; run st rest.
Proof.
  induction e as [tag attrib text cs IH] using element_ind'. intros Hser.
  cbn [serializable] in Hser.
  apply andb_true_iff in Hser as [Hser Hcs]. apply andb_true_iff in Hser as [Hser Htext].
  apply andb_true_iff in Hser as [Hser Hvals]. apply andb_true_iff in Hser as [Hn Hkeys].
  destruct (run_children tag cs Hn IH Hcs) as (inner & Hinner & Hrun).
  assert (Hstart : forall stk root rest,
    run (St TagOpen stk root) (tag ++ ET.serialize_items attrib ++ rest)
    = run (St (tag_mode (rev tag) attrib) stk root) rest).
  { intros. rewrite <- (decoded_id attrib) at 2.
    apply (run_start_tag stk root ET.escape_attrib (fun v => v)); try assumption.
    intros. by apply attrib_value_read. }
  rewrite serialize_xml_eq.
  destruct (truthy text) eqn:Htruthy.
  - destruct text as [|z|[|c t]]; try discriminate; [destruct z; discriminate|].
    cbn [orb]. rewrite escape_cdata_eq. cbn [bind]. rewrite Hinner. cbn [bind].
    eexists. split; [cbn [app]; reflexivity|]. intros.
    list_norm. rewrite Hstart, run_tag_open, rev_involutive.
    rewrite (run_text _ _ _ cdata_char (c :: t)); [|by intros; apply run_cdata_char|exact Htext].
    rewrite Hrun, app_nil_r.
    destruct (eol_cons_rev c t) as (x & acc & Hrev).
    fold (eol (c :: t)). rewrite Hrev. cbn [flushed]. rewrite <- Hrev, rev_involutive.
    reflexivity.
  - cbn [orb].
    assert (text_node text = []) as Hnode.
    { destruct text as [|z|[|c t]]; try reflexivity. discriminate. }
    destruct cs as [|c cs].
    + cbn [length Nat.eqb negb]. eexists. split; [cbn [app]; reflexivity|]. intros.
      list_norm. rewrite Hstart. cbn [to_dom]. rewrite Hnode.
      change (lit " />" ++ rest) with (SP :: SLASH :: GT :: rest).
      rewrite run_tag_space_empty, rev_involutive. reflexivity.
    + cbn [length Nat.eqb negb bind]. rewrite Hinner. cbn [bind].
      eexists. split; [cbn [app]; reflexivity|]. intros.
      list_norm. rewrite Hstart, run_tag_open, rev_involutive.
      rewrite Hrun. cbn [to_dom flushed rev app].
      rewrite Hnode. reflexivity.
Qed.

Lemma char_not_surrogate c : is_char c = true -> is_surrogate c = false.
Proof.
  unfold is_char, is_surrogate. intros H.
  destruct (55296 <=? c) eqn:E1; [|reflexivity].
  destruct (c <=? 57343) eqn:E2; [|reflexivity].
  exfalso. bool_to_prop; lia.
Qed.

Lemma chars_no_surrogate s : forallb is_char s = true -> existsb is_surrogate s = false.
Proof.
  induction s as [|c s IH]; [reflexivity|]. cbn [forallb existsb]. intros H.
  apply andb_true_iff in H as [Hc Hs]. by rewrite (char_not_surrogate _ Hc), (IH Hs).
Qed.

(** A document that opens with a tag has no declaration to skip. *)
Lemma no_declaration tag s :
  is_name tag = true ->
  strip_prefix xml_declaration (LT :: tag ++ s) = None.
Proof.
  destruct tag as [|c tag]; [discriminate|]. cbn [is_name]. intros H.
  apply andb_true_iff in H as [Hc _].
  change (strip_prefix xml_declaration (LT :: (c :: tag) ++ s))
    with (if 63 =? c then strip_prefix (lit "xml version=" ++ [QUOT] ++ lit "1.0"
                                           ++ [QUOT] ++ lit " ?>") (tag ++ s)
          else None).
  destruct (N.eqb_spec 63 c) as [<-|]; [discriminate | reflexivity].
Qed.

Lemma serialize_starts e s :
  ET.serialize_xml e = Ok s -> exists s', s = LT :: ET.tag e ++ s'.
Proof.
  destruct e as [tag attrib text cs]. rewrite serialize_xml_eq.
  destruct (truthy text || negb (Nat.eqb (length cs) 0)).
  - destruct (if truthy text then ET.escape_cdata text else Ok []); [|discriminate].
    cbn [bind]. destruct (serialize_all cs); [|discriminate]. cbn [bind].
    intros [= <-]. eexists. list_norm. reflexivity.
  - intros [= <-]. eexists. list_norm. reflexivity.
Qed.

(** [ET.tostring] followed by [minidom.parseString]. *)
Theorem parse_tostring e :
  serializable e = true ->
  exists s, ET.tostring e = Ok s /\ parse s = Some (to_dom e) /\ parseString s = Ok (to_dom e).
Proof.
  intros Hser. destruct (to_dom_open e Hser) as (s & Hs & Hrun).
  exists (LT :: s). split; [exact Hs|].
  assert (Hn : is_name (ET.tag e) = true).
  { destruct e. cbn [serializable] in Hser. cbn [ET.tag].
    repeat (apply andb_true_iff in Hser as [Hser _]). exact Hser. }
  destruct (serialize_starts _ _ Hs) as (s' & Hs'). injection Hs' as Hs'.
  assert (Hrun0 : run initial (LT :: s) = Some (St (Content [] false) [] (Some (to_dom e)))).
  { change (run initial (LT :: s)) with (run (St TagOpen [] None) s).
    rewrite <- (app_nil_r s), Hrun. reflexivity. }
  assert (Hparse : parse (LT :: s) = Some (to_dom e)).
  { unfold parse. rewrite Hs', (no_declaration _ _ Hn). cbn [default].
    rewrite <- Hs', Hrun0. reflexivity. }
  split; [exact Hparse|]. unfold parseString.
  rewrite (chars_no_surrogate _ (run_chars _ _ _ Hrun0)), Hparse. reflexivity.
Qed.

(** *** What the parser accepts

    A serialized tree that the parser accepts was serializable: the
    characters of its texts and attribute values are XML characters. *)

Fixpoint names_ok (e : ET.element) : bool :=
  let '(ET.Elem tag attrib _ children) := e in
  is_name tag && keys_ok [] (map fst attrib) && forallb names_ok children.

Lemma escaped_chars (enc : char -> str) t :
  (forall c, forallb is_char (enc c) = true -> is_char c = true) ->
  forallb is_char (flat_map enc t) = true -> forallb is_char t = true.
Proof.
  intros Henc. induction t as [|c t IH]; [reflexivity|].
  cbn [flat_map forallb]. rewrite forallb_app. intros H.
  apply andb_true_iff in H as [Hc Ht]. by rewrite (Henc _ Hc), (IH Ht).
Qed.

Lemma cdata_char_valid c : forallb is_char (cdata_char c) = true -> is_char c = true.
Proof.
  unfold cdata_char, AMP, LT, GT.
  repeat match goal with
    | |- context [c =? ?k] => destruct (N.eqb_spec c k) as [->|_]; [reflexivity|]
    end.
  cbn [forallb]. by rewrite andb_true_r.
Qed.

Lemma attrib_char_valid c : forallb is_char (attrib_char c) = true -> is_char c = true.
Proof.
  unfold attrib_char, AMP, LT, GT, QUOT, CR, LF, TAB.
  repeat match goal with
    | |- context [c =? ?k] => destruct (N.eqb_spec c k) as [->|_]; [reflexivity|]
    end.
  cbn [forallb]. by rewrite andb_true_r.
Qed.

Lemma items_chars attrib :
  forallb is_char (ET.serialize_items attrib) = true -> values_ok attrib = true.
Proof.
  unfold ET.serialize_items, values_ok.
  induction attrib as [|[k v] attrib IH]; [reflexivity|].
  cbn [flat_map forallb fst snd]. rewrite !forallb_app. intros H.
  split_andb.
  apply andb_true_iff. split; [|apply IH; assumption].
  apply (escaped_chars attrib_char); [apply attrib_char_valid|].
  rewrite <- escape_attrib_eq. assumption.
Qed.

Lemma serialized_chars e :
  forall s, names_ok e = true -> ET.serialize_xml e = Ok s ->
    forallb is_char s = true -> serializable e = true.
Proof.
  induction e as [tag attrib text cs IH] using element_ind'. intros s Hnames.
  cbn [names_ok] in Hnames.
  apply andb_true_iff in Hnames as [Hnames Hcs]. apply andb_true_iff in Hnames as [Hn Hk].
  assert (Hall : forall inner, serialize_all cs = Ok inner ->
            forallb is_char inner = true -> forallb serializable cs = true).
  { clear -IH Hcs. induction IH as [|c cs Hc _ IHcs]; [reflexivity|].
    cbn [forallb] in Hcs. apply andb_true_iff in Hcs as [Hc1 Hcs].
    intros inner. cbn [serialize_all].
    destruct (ET.serialize_xml c) as [x|] eqn:Hx; [|discriminate]. cbn [bind].
    fold serialize_all. destruct (serialize_all cs) as [y|] eqn:Hy; [|discriminate].
    cbn [bind]. intros [= <-]. rewrite forallb_app. intros H.
    apply andb_true_iff in H as [H1 H2]. cbn [forallb].
    by rewrite (Hc _ Hc1 eq_refl H1), (IHcs Hcs _ eq_refl H2). }
  rewrite serialize_xml_eq. cbn [serializable]. rewrite Hn, Hk. cbn [andb].
  destruct (truthy text) eqn:Htruthy; cbn [orb].
  - destruct text as [|z|t]; [discriminate| |].
    { destruct (Z.eqb z 0); discriminate. }
    rewrite escape_cdata_eq. cbn [bind].
    destruct (serialize_all cs) as [inner|] eqn:Hinner; [|discriminate]. cbn [bind].
    intros [= <-]. repeat (rewrite forallb_app || (progress cbn [forallb])). intros H.
    split_andb.
    rewrite (items_chars attrib) by assumption. cbn [text_ok andb].
    rewrite (escaped_chars cdata_char t cdata_char_valid) by assumption.
    by rewrite (Hall inner).
  - assert (Htext : text_ok text = true).
    { destruct text as [|z|[|c t]]; try discriminate; [reflexivity| |reflexivity].
      cbn [text_ok]. by rewrite Htruthy. }
    rewrite Htext. destruct cs as [|c cs].
    + cbn [length Nat.eqb negb]. intros [= <-]. repeat (rewrite forallb_app || (progress cbn [forallb])). intros H.
      split_andb.
      by rewrite (items_chars attrib).
    + cbn [length Nat.eqb negb bind].
      destruct (serialize_all (c :: cs)) as [inner|] eqn:Hinner; [|discriminate].
      cbn [bind]. intros [= <-]. specialize (Hall inner eq_refl). revert Hall.
      generalize (forallb serializable (c :: cs)). intros b Hall.
      repeat (rewrite forallb_app || (progress cbn [forallb])). intros H.
      split_andb.
      rewrite (items_chars attrib) by assumption. by rewrite Hall.
Qed.

(** When [ET.tostring] and [minidom.parseString] both return, the tree
    was serializable and the document is the one [to_dom] describes. *)
Theorem parse_tostring_inv e s d :
  names_ok e = true -> ET.tostring e = Ok s -> parseString s = Ok d ->
  serializable e = true /\ d = to_dom e.
Proof.
  intros Hnames Hs Hd.
  assert (Hn : is_name (ET.tag e) = true).
  { destruct e. cbn [names_ok] in Hnames. cbn [ET.tag].
    repeat (apply andb_true_iff in Hnames as [Hnames _]). exact Hnames. }
  destruct (serialize_starts _ _ Hs) as (s' & ->).
  unfold parseString in Hd. destruct (existsb is_surrogate _); [discriminate|].
  destruct (parse _) as [d'|] eqn:Hparse; [|discriminate]. injection Hd as ->.
  unfold parse in Hparse. rewrite (no_declaration _ _ Hn) in Hparse. cbn [default] in Hparse.
  destruct (run initial _) as [st|] eqn:Hrun; [|discriminate].
  pose proof (serialized_chars e _ Hnames Hs (run_chars _ _ _ Hrun)) as Hser.
  split; [exact Hser|].
  destruct (parse_tostring e Hser) as (s2 & Hs2 & Hp2 & _).
  unfold ET.tostring in Hs, Hs2. rewrite Hs in Hs2. injection Hs2 as <-.
  unfold parse in Hp2. rewrite (no_declaration _ _ Hn) in Hp2. cbn [default] in Hp2.
  rewrite Hrun in Hp2. cbn [mbind option_bind] in Hp2, Hparse. congruence.
Qed.

(** *** What the parser builds from [toprettyxml] *)

Lemma node_ind' (P : node -> Prop) :
  (forall t a cs, Forall P cs -> P (Element t a cs)) ->
  (forall d, P (Text d)) -> forall n, P n.
Proof.
  intros H1 H2. fix IH 1. intros [t a cs|d]; [|apply H2]. apply H1.
  induction cs as [|c cs IHcs]; constructor; [apply IH | exact IHcs].
Qed.

(** The documents the mapper prints: an element holds one text, or
    elements only, or nothing. *)
Fixpoint printable (n : node) : bool :=
  match n with
  | Text _ => false
  | Element t attrs cs =>
      is_name t && keys_ok [] (map fst attrs) && values_ok attrs
      && match cs with
         | [Text d] => match d with [] => false | _ :: _ => forallb is_char d end
         | _ => forallb printable cs
         end
  end.

(** The document a parser reads from the pretty-printed [n]: the
    indentation shows up as text between the elements. *)
Fixpoint reparsed (indent : str) (n : node) : node :=
  match n with
  | Text d => Text d
  | Element t attrs cs =>
      Element t (decoded attr_norm attrs)
        match cs with
        | [] => []
        | [Text d] => [Text (eol d)]
        | _ =>
            flat_map (fun c => [Text (LF :: indent ++ lit "  ");
                                reparsed (indent ++ lit "  ") c]) cs
            ++ [Text (LF :: indent)]
        end
  end.

Definition is_indent (s : str) : bool := forallb (N.eqb SP) s.

Lemma run_indent f stk root ind : forall acc rest,
  is_indent ind = true ->
  run (St (Content acc false) (f :: stk) root) (ind ++ rest)
  = run (St (Content (rev ind ++ acc) false) (f :: stk) root) rest.
Proof.
  induction ind as [|c ind IH]; intros acc rest H; [reflexivity|].
  cbn [is_indent forallb] in H. apply andb_true_iff in H as [Hc H].
  apply N.eqb_eq in Hc as <-.
  change (run (St (Content acc false) (f :: stk) root) ((SP :: ind) ++ rest))
    with (run (St (Content (SP :: acc) false) (f :: stk) root) (ind ++ rest)).
  rewrite (IH _ _ H). cbn [rev]. rewrite <- app_assoc. reflexivity.
Qed.

Lemma flushed_indent ind ch : flushed (rev ind ++ [LF]) ch = Text (LF :: ind) :: ch.
Proof.
  replace (LF :: ind) with (rev (rev ind ++ [LF]))
    by (rewrite rev_app_distr, rev_involutive; reflexivity).
  destruct (rev ind); reflexivity.
Qed.

Lemma data_value_read stk root name attrs an v rest :
  forallb is_char v = true ->
  run (St (AttrValue name attrs an QUOT [] false) stk root) (write_data v ++ QUOT :: rest)
  = value_read name attrs an stk root (rev (attr_norm v)) rest.
Proof.
  intros Hv. rewrite write_data_eq, (run_data_value _ _ _ _ _ _ Hv), app_nil_r.
  reflexivity.
Qed.

Definition printed (n : node) (ind : str) : str := writexml n ind (lit "  ") [LF].

(** The children of an open element, one per line. *)
Lemma run_printed_children (cs : list node) (ind : str) :
  is_indent ind = true ->
  Forall (fun n : node => printable n = true -> forall ind : str, is_indent ind = true ->
    exists s : str, printed n ind = ind ++ LT :: s ++ [LF] /\
      forall stk root rest,
        run (St TagOpen stk root) (s ++ rest)
        = st ← add_node (reparsed ind n) stk root; run st rest) cs ->
  forallb printable cs = true ->
  forall tag attrs ch stk root rest,
    run (St (Content [LF] false) ((tag, attrs, ch) :: stk) root)
      (flat_map (fun c => printed c ind) cs ++ rest)
    = run (St (Content [LF] false)
             ((tag, attrs,
               rev (flat_map (fun c => [Text (LF :: ind); reparsed ind c]) cs) ++ ch) :: stk)
             root) rest.
Proof.
  intros Hind. induction 1 as [|c cs Hc _ IH]; intros Hp; intros; [reflexivity|].
  cbn [forallb] in Hp. apply andb_true_iff in Hp as [Hp1 Hp2].
  destruct (Hc Hp1 ind Hind) as (s & Hs & Hrun).
  cbn [flat_map]. rewrite Hs. list_norm. rewrite (run_indent _ _ _ _ _ _ Hind).
  change (run (St (Content (rev ind ++ [LF]) false) ((tag, attrs, ch) :: stk) root)
            (LT :: s ++ LF :: flat_map (fun c => printed c ind) cs ++ rest))
    with (run (St TagOpen (flush (rev ind ++ [LF]) ((tag, attrs, ch) :: stk)) root)
            (s ++ LF :: flat_map (fun c => printed c ind) cs ++ rest)).
  rewrite Hrun, flush_cons, flushed_indent. cbn [add_node mbind option_bind].
  change (run (St (Content [] false)
                 ((tag, attrs, reparsed ind c :: Text (LF :: ind) :: ch) :: stk) root)
            (LF :: flat_map (fun c => printed c ind) cs ++ rest))
    with (run (St (Content [LF] false)
                 ((tag, attrs, reparsed ind c :: Text (LF :: ind) :: ch) :: stk) root)
            (flat_map (fun c => printed c ind) cs ++ rest)).
  rewrite (IH Hp2). cbn [flat_map app rev]. list_norm. reflexivity.
Qed.

Lemma is_indent_app a b : is_indent a = true -> is_indent b = true -> is_indent (a ++ b) = true.
Proof. unfold is_indent. rewrite forallb_app. by intros -> ->. Qed.

Lemma eol_chars t : forall cr, forallb is_char t = true -> forallb is_char (eol_from cr t) = true.
Proof.
  induction t as [|c t IH]; intros cr H; [reflexivity|].
  cbn [forallb] in H. apply andb_true_iff in H as [Hc Ht]. cbn [eol_from].
  destruct (c =? CR); [cbn [forallb]; by rewrite IH|].
  destruct ((c =? LF) && cr); [by apply IH|]. cbn [forallb]. by rewrite Hc, IH.
Qed.

Lemma printed_open n :
  printable n = true -> forall ind, is_indent ind = true ->
  exists s, printed n ind = ind ++ LT :: s ++ [LF] /\
    forall stk root rest,
      run (St TagOpen stk root) (s ++ rest)
      = st ← add_node (reparsed ind n) stk root; run st rest.
Proof.
  induction n as [t attrs cs IH|d] using node_ind'; [|discriminate].
  intros Hp ind Hind. cbn [printable] in Hp.
  apply andb_true_iff in Hp as [Hp Hcs]. apply andb_true_iff in Hp as [Hp Hvals].
  apply andb_true_iff in Hp as [Hn Hkeys].
  assert (Hstart : forall stk root rest,
    run (St TagOpen stk root) (t ++ write_attrs attrs ++ rest)
    = run (St (tag_mode (rev t) (decoded attr_norm attrs)) stk root) rest).
  { intros. apply (run_start_tag stk root write_data attr_norm); try assumption.
    intros. by apply data_value_read. }
  destruct cs as [|[t1 a1 c1|d] cs].
  - (* no child *)
    exists (t ++ write_attrs attrs ++ [SLASH; GT]). split.
    { unfold printed. cbn [writexml]. change (lit "/>") with [SLASH; GT]. list_norm.
      reflexivity. }
    intros. list_norm. rewrite Hstart, run_tag_empty, rev_involutive. reflexivity.
  - (* elements *)
    set (cs' := Element t1 a1 c1 :: cs) in *.
    set (ind2 := ind ++ lit "  ").
    assert (Hind2 : is_indent ind2 = true) by (apply is_indent_app; [assumption|reflexivity]).
    exists (t ++ write_attrs attrs ++ GT :: LF :: flat_map (fun c => printed c ind2) cs'
            ++ ind ++ LT :: SLASH :: t ++ [GT]). split.
    { unfold printed, cs'. cbn [writexml]. list_norm. reflexivity. }
    intros. list_norm. rewrite Hstart, run_tag_open, rev_involutive.
    change (run (St (Content [] false) ((t, decoded attr_norm attrs, []) :: stk) root)
              (LF :: flat_map (fun c => printed c ind2) cs'
                     ++ ind ++ LT :: SLASH :: t ++ GT :: rest))
      with (run (St (Content [LF] false) ((t, decoded attr_norm attrs, []) :: stk) root)
              (flat_map (fun c => printed c ind2) cs'
                 ++ ind ++ LT :: SLASH :: t ++ GT :: rest)).
    rewrite (run_printed_children cs' ind2 Hind2 IH Hcs).
    rewrite (run_indent _ _ _ _ _ _ Hind).
    change (run (St (Content (rev ind ++ [LF]) false) ?f root) (LT :: ?x))
      with (run (St TagOpen (flush (rev ind ++ [LF]) f) root) x).
    rewrite flush_cons, flushed_indent, (run_end_tag _ _ _ _ _ _ Hn).
    cbn [rev]. rewrite app_nil_r, rev_involutive. reflexivity.
  - destruct cs as [|c2 cs]; [|discriminate].
    (* one text *)
    destruct d as [|c d]; [discriminate|].
    exists (t ++ write_attrs attrs ++ GT :: write_data (c :: d) ++ LT :: SLASH :: t ++ [GT]).
    split.
    { unfold printed. cbn [writexml]. list_norm. reflexivity. }
    intros. list_norm. rewrite Hstart, run_tag_open, rev_involutive, write_data_eq.
    rewrite (run_text _ _ _ data_char (c :: d)); [|by intros; apply run_data_char|exact Hcs].
    change (run (St (Content ?acc ?cr) ?f root) (LT :: ?x))
      with (run (St TagOpen (flush acc f) root) x).
    rewrite flush_cons, (run_end_tag _ _ _ _ _ _ Hn), app_nil_r.
    destruct (eol_cons_rev c d) as (x & acc & Hrev).
    fold (eol (c :: d)). rewrite Hrev. cbn [flushed]. rewrite <- Hrev, rev_involutive.
    reflexivity.
Qed.

Lemma strip_prefix_app p s : strip_prefix p (p ++ s) = Some s.
Proof. induction p as [|c p IH]; [reflexivity|]. cbn. by rewrite N.eqb_refl. Qed.

(** [toprettyxml] read back by a parser. *)
Theorem parse_toprettyxml d :
  printable d = true ->
  parse (toprettyxml d (lit "  ")) = Some (reparsed [] d).
Proof.
  intros Hp. destruct (printed_open d Hp [] eq_refl) as (s & Hs & Hrun).
  unfold toprettyxml, parse. fold (printed d []). rewrite Hs, strip_prefix_app.
  cbn [default app].
  change (run initial (id (LF :: LT :: s ++ [LF])))
    with (run (St TagOpen [] None) (s ++ [LF])).
  rewrite Hrun. reflexivity.
Qed.

(** *** The two passes together *)

(** An element with a text has no children: the trees of the mapper. *)
Fixpoint leafy (e : ET.element) : bool :=
  let '(ET.Elem _ _ text children) := e in
  (negb (truthy text) || match children with [] => true | _ :: _ => false end)
  && forallb leafy children.

Lemma eol_cons c s : exists x l, eol (c :: s) = x :: l.
Proof. unfold eol. cbn [eol_from]. rewrite andb_false_r. destruct (c =? CR); eauto. Qed.

Lemma printable_to_dom e :
  serializable e = true -> leafy e = true -> printable (to_dom e) = true.
Proof.
  induction e as [tag attrib text cs IH] using element_ind'. intros Hser Hleafy.
  cbn [serializable] in Hser. cbn [leafy] in Hleafy.
  apply andb_true_iff in Hser as [Hser Hcs]. apply andb_true_iff in Hser as [Hser Htext].
  apply andb_true_iff in Hleafy as [Hshape Hlcs].
  cbn [to_dom printable]. rewrite Hser. cbn [andb].
  assert (Hall : forallb printable (map to_dom cs) = true).
  { clear -IH Hcs Hlcs. induction IH as [|c cs Hc _ IHcs]; [reflexivity|].
    cbn [forallb map] in *. apply andb_true_iff in Hcs as [? ?].
    apply andb_true_iff in Hlcs as [? ?]. by rewrite Hc, IHcs. }
  destruct (truthy text) eqn:Htruthy.
  - destruct text as [|z|[|c t]]; try discriminate; [destruct z; discriminate|].
    destruct cs; [|discriminate]. cbn [text_node map app].
    pose proof (eol_chars (c :: t) false Htext) as Hchars. fold (eol (c :: t)) in Hchars.
    destruct (eol_cons c t) as (x & l & Heol). rewrite Heol in *. exact Hchars.
  - assert (text_node text = []) as ->.
    { destruct text as [|z|[|c t]]; try reflexivity. discriminate. }
    cbn [app]. destruct cs as [|[t1 a1 x1 c1] cs]; [reflexivity|]. exact Hall.
Qed.

(** [ET.tostring], [minidom.parseString] and [toprettyxml], and the
    result read back. *)
Theorem parse_pretty e :
  serializable e = true -> leafy e = true ->
  exists s, ET.tostring e = Ok s /\ parseString s = Ok (to_dom e)
    /\ parse (toprettyxml (to_dom e) (lit "  ")) = Some (reparsed [] (to_dom e)).
Proof.
  intros Hser Hleafy. destruct (parse_tostring e Hser) as (s & Hs & _ & Hp).
  exists s. split; [exact Hs|]. split; [exact Hp|].
  apply parse_toprettyxml, printable_to_dom; assumption.
Qed.

End parser_facts.

(** ** The trees of the mapper *)

Module mapper_facts.
Import minidom parser_facts CustomerMapper.

(** The loop appends one element per record, in order. *)
Lemma customers_spec rs : forall root tree,
  customers rs root = Ok tree <->
  exists es, Forall2 (fun d e => customer d = Ok e) rs es /\
    tree = ET.Elem (ET.tag root) (ET.attrib root) (ET.text root) (ET.children root ++ es).
Proof.
  induction rs as [|d rs IH]; intros root tree; cbn [customers].
  - split.
    + intros [= <-]. exists []. split; [constructor|]. destruct root. cbn.
      by rewrite app_nil_r.
    + intros (es & Hes & ->). inversion Hes. destruct root. cbn. by rewrite app_nil_r.
  - destruct (customer d) as [e|] eqn:He; cbn [bind].
    + rewrite IH. destruct root as [t a x cs]. cbn [ET.append ET.tag ET.attrib ET.text ET.children].
      split.
      * intros (es & Hes & ->). exists (e :: es). split; [by constructor|].
        by rewrite <- app_assoc.
      * intros (es & Hes & ->). inversion Hes as [|? e' ? es' He' Hes']; subst.
        rewrite He in He'. injection He' as <-. exists es'. split; [assumption|].
        by rewrite <- app_assoc.
    + split; [discriminate|]. intros (es & Hes & _). inversion Hes; congruence.
Qed.

Lemma root_element_spec rs tree :
  root_element rs = Ok tree <->
  exists es, Forall2 (fun d e => customer d = Ok e) rs es /\
    tree = ET.Elem (lit "Customers") [] VNone es.
Proof. unfold root_element. rewrite customers_spec. reflexivity. Qed.

Lemma customer_shape d e : customer d = Ok e -> names_ok e = true /\ leafy e = true.
Proof.
  intros He. destruct (customer_inv d e He) as (name & _ & ->).
  rewrite full_address_eq.
  destruct (truthy (get d (lit "Customer Id"))), (truthy (get d (lit "Phone 2")));
    (split; [reflexivity|]); cbn [leafy forallb app]; rewrite ?orb_true_r; reflexivity.
Qed.

(** One [Customer] child of the root per record. *)
Lemma findall_customers rs es :
  Forall2 (fun d e => customer d = Ok e) rs es ->
  ET.findall (ET.Elem (lit "Customers") [] VNone es) (lit "Customer") = es.
Proof.
  unfold ET.findall. cbn [ET.children].
  induction 1 as [|d e rs es He _ IH]; [reflexivity|].
  cbn [List.filter]. rewrite IH.
  destruct (customer_inv d e He) as (name & _ & ->). reflexivity.
Qed.

Lemma customers_shape rs es :
  Forall2 (fun d e => customer d = Ok e) rs es ->
  forallb names_ok es = true /\ forallb leafy es = true.
Proof.
  induction 1 as [|d e rs es He _ [IH1 IH2]]; [split; reflexivity|].
  destruct (customer_shape d e He) as [H1 H2]. cbn [forallb]. by rewrite H1, H2, IH1, IH2.
Qed.

(** The document the mapper prints for [es], and what a parser reads from
    it. *)
Definition document (es : list ET.element) : node :=
  to_dom (ET.Elem (lit "Customers") [] VNone es).

(** Lines 5-63: when [json_to_xml] returns, it returns the printed
    document of the elements built from the records, and that document
    parses. *)
Theorem json_to_xml_inv rs out :
  json_to_xml rs = Ok out ->
  exists es, Forall2 (fun d e => customer d = Ok e) rs es
    /\ forallb serializable es = true
    /\ out = toprettyxml (document es) (lit "  ")
    /\ parse out = Some (reparsed [] (document es)).
Proof.
  unfold json_to_xml. destruct (root_element rs) as [tree|] eqn:Htree; [|discriminate].
  cbn [bind]. destruct (ET.tostring tree) as [s|] eqn:Hs; [|discriminate]. cbn [bind].
  destruct (parseString s) as [d|] eqn:Hd; [|discriminate]. cbn [bind]. intros [= <-].
  apply root_element_spec in Htree as (es & Hes & ->). exists es.
  destruct (customers_shape rs es Hes) as [Hnames Hleafy].
  destruct (parse_tostring_inv (ET.Elem (lit "Customers") [] VNone es) s d)
    as [Hser ->]; [exact Hnames|exact Hs|exact Hd|].
  split; [exact Hes|]. split; [exact Hser|]. split; [reflexivity|].
  destruct (parse_pretty _ Hser) as (_ & _ & _ & Hp); [exact Hleafy|exact Hp].
Qed.

Theorem json_to_xml_ok rs es :
  Forall2 (fun d e => customer d = Ok e) rs es ->
  forallb serializable es = true ->
  json_to_xml rs = Ok (toprettyxml (document es) (lit "  ")).
Proof.
  intros Hes Hser. unfold json_to_xml.
  assert (Htree : root_element rs = Ok (ET.Elem (lit "Customers") [] VNone es)).
  { apply root_element_spec. eauto. }
  rewrite Htree. cbn [bind].
  destruct (parse_tostring (ET.Elem (lit "Customers") [] VNone es)) as (s & Hs & _ & Hp).
  { cbn [serializable]. exact Hser. }
  rewrite Hs. cbn [bind]. rewrite Hp. reflexivity.
Qed.

(** *** Records the mapper accepts *)

(** The field [k] is absent, or holds a [str] whose characters all satisfy
    [P]. *)
Definition field_all (P : char -> bool) (d : record) (k : str) : bool :=
  match d !! k with
  | Some (VStr s) => forallb P s
  | Some _ => false
  | None => true
  end.

(** The field [k] is absent or holds a [str] of XML characters. *)
Definition field_ok (d : record) (k : str) : bool := field_all is_char d k.

(** The fields the mapper reads. *)
Definition mapped_fields : list str :=
  [lit "Customer Id"; lit "Company"; lit "First Name"; lit "Last Name";
   lit "Phone 1"; lit "Phone 2"; lit "City"; lit "Country"].

(** Every field the mapper reads is absent or holds a [str] of XML
    characters. *)
Definition record_ok (d : record) : bool := forallb (field_ok d) mapped_fields.

Lemma field_all_get_or P d k dflt :
  field_all P d k = true -> forallb P dflt = true ->
  exists s, get_or d k (VStr dflt) = VStr s /\ forallb P s = true.
Proof.
  unfold field_all, get_or. destruct (d !! k) as [[|z|s]|]; try discriminate; cbn; eauto.
Qed.

Lemma field_all_get P d k :
  field_all P d k = true ->
  get d k = VNone \/ exists s, get d k = VStr s /\ forallb P s = true.
Proof.
  unfold field_all, get. destruct (d !! k) as [[|z|s]|]; try discriminate; cbn; eauto.
Qed.

Lemma field_get_or d k dflt :
  field_ok d k = true -> forallb is_char dflt = true ->
  exists s, get_or d k (VStr dflt) = VStr s /\ forallb is_char s = true.
Proof. apply field_all_get_or. Qed.

Lemma field_get d k :
  field_ok d k = true ->
  get d k = VNone \/ exists s, get d k = VStr s /\ forallb is_char s = true.
Proof. apply field_all_get. Qed.

Lemma forallb_rev {A} (P : A -> bool) l : forallb P (rev l) = forallb P l.
Proof.
  induction l as [|x l IH]; [reflexivity|].
  cbn [rev forallb]. rewrite forallb_app, IH. cbn [forallb].
  rewrite andb_true_r. apply andb_comm.
Qed.

Lemma lstrip_forallb (P : char -> bool) s : forallb P s = true -> forallb P (lstrip s) = true.
Proof.
  induction s as [|c s IH]; [reflexivity|]. intros H. cbn [lstrip].
  destruct (isspace c); [|exact H]. cbn [forallb] in H.
  apply andb_true_iff in H as [_ H]. exact (IH H).
Qed.

Lemma strip_forallb (P : char -> bool) s : forallb P s = true -> forallb P (strip s) = true.
Proof.
  intros H. unfold strip, rstrip. rewrite forallb_rev. apply lstrip_forallb.
  rewrite forallb_rev. by apply lstrip_forallb.
Qed.

Lemma contact_name_all (P : char -> bool) d :
  P SP = true ->
  field_all P d (lit "First Name") = true -> field_all P d (lit "Last Name") = true ->
  exists name, contact_name_str d = Ok name /\ forallb P name = true.
Proof.
  intros Hsp H1 H2.
  destruct (field_all_get_or P d _ [] H1 eq_refl) as (f & Hf & Hfc).
  destruct (field_all_get_or P d _ [] H2 eq_refl) as (l & Hl & Hlc).
  unfold contact_name_str. rewrite Hf, Hl. change (lit " ") with [SP].
  destruct f as [|a f], l as [|b l]; cbn [List.filter truthy join bind];
    eexists; (split; [reflexivity|]); apply strip_forallb;
    rewrite ?forallb_app; cbn [forallb] in *; rewrite ?Hfc, ?Hlc, ?Hsp; reflexivity.
Qed.

Lemma contact_name_ok d :
  field_ok d (lit "First Name") = true -> field_ok d (lit "Last Name") = true ->
  exists name, contact_name_str d = Ok name /\ forallb is_char name = true.
Proof. by apply contact_name_all. Qed.

Lemma serializable_leaf tag v :
  is_name tag = true -> text_ok v = true -> serializable (ET.Elem tag [] v []) = true.
Proof. intros H1 H2. cbn [serializable map keys_ok values_ok forallb]. by rewrite H1, H2. Qed.

Lemma serializable_branch tag attrs cs :
  is_name tag = true -> keys_ok [] (map fst attrs) = true -> values_ok attrs = true ->
  Forall (fun e => serializable e = true) cs ->
  serializable (ET.Elem tag attrs VNone cs) = true.
Proof.
  intros H1 H2 H3 H4. cbn [serializable text_ok truthy negb]. rewrite H1, H2, H3. cbn [andb].
  induction H4 as [|c cs Hc _ IH]; [reflexivity|]. cbn [forallb]. by rewrite Hc, IH.
Qed.

(** A record whose mapped fields are XML strings gives an element that
    can be serialized and read back. *)
Lemma customer_serializable d :
  record_ok d = true -> exists e, customer d = Ok e /\ serializable e = true.
Proof.
  unfold record_ok, mapped_fields. cbn [forallb]. intros H. split_andb.
  destruct (contact_name_ok d) as (name & Hname & Hnc); [assumption..|].
  assert (exists e, customer d = Ok e) as (e & He).
  { unfold customer. rewrite Hname. cbn [bind]. eauto. }
  exists e. split; [exact He|].
  destruct (customer_inv d e He) as (name' & Hname' & ->).
  rewrite Hname in Hname'. injection Hname' as <-.
  rewrite full_address_eq.
  destruct (field_get_or d (lit "Company") (lit "N/A")) as (s1 & -> & Hs1);
    [assumption|reflexivity|].
  destruct (field_get_or d (lit "Phone 1") (lit "N/A")) as (s2 & -> & Hs2);
    [assumption|reflexivity|].
  destruct (field_get_or d (lit "City") (lit "N/A")) as (s3 & -> & Hs3);
    [assumption|reflexivity|].
  destruct (field_get_or d (lit "Country") (lit "N/A")) as (s4 & -> & Hs4);
    [assumption|reflexivity|].
  assert (Hcn : forallb is_char (if truthy (VStr name) then name else lit "N/A") = true).
  { destruct (truthy (VStr name)); [exact Hnc|reflexivity]. }
  apply serializable_branch; [reflexivity| | |].
  - destruct (truthy (get d (lit "Customer Id"))); reflexivity.
  - destruct (field_get d (lit "Customer Id")) as [->|(s & -> & Hs)]; [assumption|reflexivity|].
    destruct (truthy (VStr s)); [|reflexivity].
    cbn [values_ok forallb snd py_str]. by rewrite Hs.
  - apply Forall_app. split; [|apply Forall_app; split].
    + repeat constructor; apply serializable_leaf; (reflexivity || assumption).
    + destruct (field_get d (lit "Phone 2")) as [->|(s & -> & Hs)];
        [assumption|constructor|].
      destruct (truthy (VStr s)); repeat constructor.
      apply serializable_leaf; [reflexivity|exact Hs].
    + constructor; [|constructor].
      apply serializable_branch; [reflexivity..|].
      repeat constructor; apply serializable_leaf; (reflexivity || assumption).
Qed.

Lemma customers_serializable rs :
  forallb record_ok rs = true ->
  exists es, Forall2 (fun d e => customer d = Ok e) rs es /\ forallb serializable es = true.
Proof.
  induction rs as [|d rs IH]; intros H.
  - exists []. split; [constructor|reflexivity].
  - cbn [forallb] in H. apply andb_true_iff in H as [Hd Hrs].
    destruct (customer_serializable d Hd) as (e & He & Hse).
    destruct (IH Hrs) as (es & Hes & Hses).
    exists (e :: es). split; [by constructor|]. cbn [forallb]. by rewrite Hse, Hses.
Qed.

End mapper_facts.

(** ** Reading a parsed document

    The calls a client makes on a document it has parsed, as the test suite
    does with [root.findall], [find], [findtext] and [get]. *)

Module read.
Import minidom.

Definition tag (n : node) : str :=
  match n with
  | Element t _ _ => t
  | Text _ => []
  end.

Definition attributes (n : node) : list (str * str) :=
  match n with
  | Element _ a _ => a
  | Text _ => []
  end.

Definition childNodes (n : node) : list node :=
  match n with
  | Element _ _ cs => cs
  | Text _ => []
  end.

Definition is_element (n : node) : bool :=
  match n with
  | Element _ _ _ => true
  | Text _ => false
  end.

Definition named (t : str) (n : node) : bool := is_element n && bool_decide (tag n = t).

(** The child elements of [n]. *)
Definition elements (n : node) : list node := List.filter is_element (childNodes n).

(** [n.findall(t)]: the child elements tagged [t], in document order. *)
Definition findall (n : node) (t : str) : list node := List.filter (named t) (childNodes n).

(** [n.find(t)]: the first child element tagged [t]. *)
Definition find (n : node) (t : str) : option node := List.find (named t) (childNodes n).

(** The text at the start of the element, empty when there is none, which
    is what [findtext] gives for an element that is found. *)
Definition text (n : node) : str :=
  match childNodes n with
  | Text d :: _ => d
  | _ => []
  end.

(** [n.findtext(t)]. *)
Definition findtext (n : node) (t : str) : option str := text <$> find n t.

(** [n.get(k)]. *)
Definition get (n : node) (k : str) : option str :=
  snd <$> List.find (fun kv => bool_decide (fst kv = k)) (attributes n).

(** The [Customer] elements of the document written in [out]. *)
Definition customers_of (out : str) : list node :=
  match parse out with
  | Some doc => findall doc (lit "Customer")
  | None => []
  end.

End read.

(** ** The document the mapper returns, read back *)

Module output_facts.
Import minidom parser_facts CustomerMapper mapper_facts.

Lemma eol_from_no_cr s : forall cr, contains CR (eol_from cr s) = false.
Proof.
  unfold contains. induction s as [|c s IH]; intros cr; [reflexivity|].
  cbn [eol_from]. destruct (N.eqb_spec c CR) as [->|Hc]; [cbn [existsb]; by rewrite IH|].
  destruct ((c =? LF) && cr); [apply IH|]. cbn [existsb]. rewrite IH, orb_false_r.
  apply N.eqb_neq. congruence.
Qed.

(** A text without a CR is read back as it is. *)
Lemma eol_id s : contains CR s = false -> eol s = s.
Proof.
  unfold contains, eol. induction s as [|c s IH]; [reflexivity|].
  cbn [existsb eol_from]. intros H. apply orb_false_iff in H as [Hc Hs].
  rewrite N.eqb_sym, Hc, andb_false_r, (IH Hs). reflexivity.
Qed.

Lemma eol_idem s : eol (eol s) = eol s.
Proof. apply eol_id, eol_from_no_cr. Qed.

(** The text of a field as a [str]: nothing when it is not one. *)
Definition source_text (v : pyval) : str :=
  match v with
  | VStr s => s
  | _ => []
  end.

(** An element that holds the text [v] and nothing else, as a parser
    reads it from the output. *)
Definition leaf (tag : str) (v : pyval) : node :=
  Element tag []
    match v with
    | VStr (c :: s) => [Text (eol (c :: s))]
    | _ => []
    end.

Lemma reparsed_leaf ind tag v : reparsed ind (to_dom (ET.Elem tag [] v [])) = leaf tag v.
Proof.
  destruct v as [|z|[|c s]]; try reflexivity.
  cbn [to_dom text_node map app reparsed decoded]. by rewrite eol_idem.
Qed.

Lemma leaf_text tag v : read.text (leaf tag v) = eol (source_text v).
Proof. destruct v as [|z|[|c s]]; reflexivity. Qed.

(** An element that holds elements only. *)
Lemma reparsed_branch ind tag attrs c cs :
  reparsed ind (to_dom (ET.Elem tag attrs VNone (c :: cs)))
  = Element tag (decoded attr_norm attrs)
      (flat_map (fun e => [Text (LF :: ind ++ lit "  ");
                           reparsed (ind ++ lit "  ") (to_dom e)]) (c :: cs)
       ++ [Text (LF :: ind)]).
Proof.
  destruct c as [t a x c1]. cbn [to_dom text_node app map reparsed]. f_equal.
  cbn [flat_map app]. do 2 f_equal. f_equal.
  induction cs as [|c2 cs IH]; [reflexivity|]. cbn [map flat_map app]. by rewrite IH.
Qed.

Definition pad (n : nat) : str := LF :: repeat SP n.

(** The [FullAddress] element of a record as a parser reads it from the
    output. *)
Definition address_node (d : record) : node :=
  Element (lit "FullAddress") []
    [Text (pad 6); leaf (lit "Address") (VStr (lit "N/A"));
     Text (pad 6); leaf (lit "City") (get_or d (lit "City") (VStr (lit "N/A")));
     Text (pad 6); leaf (lit "Region") (VStr (lit "N/A"));
     Text (pad 6); leaf (lit "PostalCode") (VStr (lit "0"));
     Text (pad 6); leaf (lit "Country") (get_or d (lit "Country") (VStr (lit "N/A")));
     Text (pad 4)].

(** The [Customer] element of a record as a parser reads it from the
    output; [name] is the contact name of lines 23-24. *)
Definition customer_node (d : record) (name : str) : node :=
  Element (lit "Customer")
    (if truthy (get d (lit "Customer Id"))
     then [(lit "CustomerID", attr_norm (py_str (get d (lit "Customer Id"))))] else [])
    ([Text (pad 4); leaf (lit "CompanyName") (get_or d (lit "Company") (VStr (lit "N/A")));
      Text (pad 4);
      leaf (lit "ContactName") (VStr (if truthy (VStr name) then name else lit "N/A"));
      Text (pad 4); leaf (lit "ContactTitle") (VStr (lit "N/A"));
      Text (pad 4); leaf (lit "Phone") (get_or d (lit "Phone 1") (VStr (lit "N/A")))]
     ++ (if truthy (get d (lit "Phone 2"))
         then [Text (pad 4); leaf (lit "Fax") (get d (lit "Phone 2"))] else [])
     ++ [Text (pad 4); address_node d; Text (pad 2)]).

Lemma customer_node_eq d e :
  customer d = Ok e ->
  exists name, contact_name_str d = Ok name
    /\ reparsed (lit "  ") (to_dom e) = customer_node d name.
Proof.
  intros He. destruct (customer_inv d e He) as (name & Hname & ->).
  exists name. split; [exact Hname|]. unfold customer_node.
  rewrite full_address_eq.
  destruct (truthy (get d (lit "Customer Id"))), (truthy (get d (lit "Phone 2")));
    cbn [app]; rewrite reparsed_branch; cbn [flat_map app];
    rewrite reparsed_branch; cbn [flat_map app]; rewrite !reparsed_leaf; reflexivity.
Qed.

(** What [find], [findtext] and [get] return on these elements. *)
Lemma customer_node_reads d name :
  let c := customer_node d name in
  read.get c (lit "CustomerID")
  = (if truthy (get d (lit "Customer Id"))
     then Some (attr_norm (py_str (get d (lit "Customer Id")))) else None)
  /\ read.findtext c (lit "CompanyName")
     = Some (eol (source_text (get_or d (lit "Company") (VStr (lit "N/A")))))
  /\ read.findtext c (lit "ContactName")
     = Some (eol (if truthy (VStr name) then name else lit "N/A"))
  /\ read.findtext c (lit "ContactTitle") = Some (lit "N/A")
  /\ read.findtext c (lit "Phone")
     = Some (eol (source_text (get_or d (lit "Phone 1") (VStr (lit "N/A")))))
  /\ read.find c (lit "Fax")
     = (if truthy (get d (lit "Phone 2"))
        then Some (leaf (lit "Fax") (get d (lit "Phone 2"))) else None)
  /\ read.find c (lit "FullAddress") = Some (address_node d).
Proof.
  cbn zeta. unfold read.findtext, customer_node.
  split; [destruct (truthy (get d (lit "Customer Id"))); reflexivity|].
  split.
  { change (read.find _ (lit "CompanyName"))
      with (Some (leaf (lit "CompanyName") (get_or d (lit "Company") (VStr (lit "N/A"))))).
    cbn [fmap option_fmap option_map]. by rewrite leaf_text. }
  split.
  { change (read.find _ (lit "ContactName"))
      with (Some (leaf (lit "ContactName")
                    (VStr (if truthy (VStr name) then name else lit "N/A")))).
    cbn [fmap option_fmap option_map]. by rewrite leaf_text. }
  split; [reflexivity|].
  split.
  { change (read.find _ (lit "Phone"))
      with (Some (leaf (lit "Phone") (get_or d (lit "Phone 1") (VStr (lit "N/A"))))).
    cbn [fmap option_fmap option_map]. by rewrite leaf_text. }
  split; destruct (truthy (get d (lit "Phone 2"))); reflexivity.
Qed.

Lemma address_node_reads d :
  let a := address_node d in
  read.findtext a (lit "Address") = Some (lit "N/A")
  /\ read.findtext a (lit "City")
     = Some (eol (source_text (get_or d (lit "City") (VStr (lit "N/A")))))
  /\ read.findtext a (lit "Region") = Some (lit "N/A")
  /\ read.findtext a (lit "PostalCode") = Some (lit "0")
  /\ read.findtext a (lit "Country")
     = Some (eol (source_text (get_or d (lit "Country") (VStr (lit "N/A"))))).
Proof.
  cbn zeta. unfold read.findtext.
  split; [reflexivity|]. split.
  { change (read.find _ (lit "City"))
      with (Some (leaf (lit "City") (get_or d (lit "City") (VStr (lit "N/A"))))).
    cbn [fmap option_fmap option_map]. by rewrite leaf_text. }
  split; [reflexivity|]. split; [reflexivity|].
  change (read.find _ (lit "Country"))
    with (Some (leaf (lit "Country") (get_or d (lit "Country") (VStr (lit "N/A"))))).
  cbn [fmap option_fmap option_map]. by rewrite leaf_text.
Qed.

Lemma customer_node_tag d name : read.named (lit "Customer") (customer_node d name) = true.
Proof. reflexivity. Qed.

(** The [Customer] elements of the printed document, in order. *)
Lemma findall_document es :
  Forall (fun e => read.named (lit "Customer") (reparsed (lit "  ") (to_dom e)) = true) es ->
  read.findall (reparsed [] (document es)) (lit "Customer")
  = map (fun e => reparsed (lit "  ") (to_dom e)) es
  /\ read.elements (reparsed [] (document es))
     = map (fun e => reparsed (lit "  ") (to_dom e)) es.
Proof.
  intros Hes. destruct es as [|e es]; [split; reflexivity|].
  unfold document. rewrite reparsed_branch. unfold read.findall, read.elements.
  cbn [read.childNodes]. change ([] ++ lit "  ") with (lit "  ").
  induction Hes as [|e1 es1 He1 _ IH]; [split; reflexivity|].
  destruct IH as [IH1 IH2]. cbn [flat_map app List.filter map].
  change (read.named (lit "Customer") (Text (LF :: lit "  "))) with false. cbn iota.
  rewrite He1.
  assert (read.is_element (reparsed (lit "  ") (to_dom e1)) = true) as ->.
  { unfold read.named in He1. by apply andb_true_iff in He1 as [? _]. }
  by rewrite IH1, IH2.
Qed.

(** The output of [json_to_xml] parses, its root is [Customers], and its
    [Customer] elements are those of the records, in the order of the
    records. *)
Theorem output_customers rs out :
  json_to_xml rs = Ok out ->
  exists doc, parse out = Some doc
    /\ read.tag doc = lit "Customers"
    /\ read.elements doc = read.customers_of out
    /\ Forall2 (fun d c => exists name, contact_name_str d = Ok name /\ c = customer_node d name)
         rs (read.customers_of out).
Proof.
  intros Hout. destruct (json_to_xml_inv rs out Hout) as (es & Hes & Hser & -> & Hparse).
  exists (reparsed [] (document es)). split; [exact Hparse|]. split; [reflexivity|].
  unfold read.customers_of. rewrite Hparse.
  assert (Hnodes : Forall2 (fun d c => exists name,
            contact_name_str d = Ok name /\ c = customer_node d name)
            rs (map (fun e => reparsed (lit "  ") (to_dom e)) es)).
  { clear -Hes. induction Hes as [|d e rs es He _ IH]; [constructor|].
    cbn [map]. constructor; [|exact IH]. by apply customer_node_eq. }
  destruct (findall_document es) as [-> ->]; [|split; [reflexivity|exact Hnodes]].
  clear -Hes. induction Hes as [|d e rs es He _ IH]; constructor; [|exact IH].
  destruct (customer_node_eq d e He) as (name & _ & ->). reflexivity.
Qed.

End output_facts.

(** ** process_customers.py *)

Module process_customers.

(** What the driver prints, one constructor per [print] call of
    [csv_to_json_and_xml]. *)
Inductive message :=
| WarnIndex (index : pyval) (row : record)
| CsvNotFound (csv_filepath : str)
| CsvError (e : exn)
| NoData
| CreatedDir (output_dir : str)
| JsonWritten (path : str)
| JsonError (e : exn)
| XmlWritten (path : str)
| XmlError (e : exn).

(** What a run does to the outside. *)
Inductive event :=
| Print (m : message)
| MakeDirs (path : str)
| WriteFile (path : str) (content : str).

(** What opening and reading the CSV file gives: [open] fails, or the reader
    yields rows and then ends or raises. *)
Inductive csv_file :=
| Missing
| Unreadable (e : exn)
| Rows (rows : list record) (failure : option exn).

(** The outside of one run. *)
Record world := World {
  csv : csv_file;
  now : str;
  dir_exists : bool;
  makedirs_error : option exn;
  json_write_error : option exn;
  xml_write_error : option exn
}.

Section Driver.

(** [int(s)] for a [str]: the integer, or [None] when it raises
    [ValueError]. *)
Variable int_of_str : str -> option Z.

(** [json.dumps(rows, indent=2)]. *)
Variable json_dumps : list record -> str.

(** [os.path.join]. *)
Variable path_join : str -> str -> str.

(** [int(obj)]. *)
Definition int (v : pyval) : result Z :=
  match v with
  | VInt z => Ok z
  | VStr s =>
      match int_of_str s with
      | Some z => Ok z
      | None => Raise ValueError
      end
  | VNone => Raise TypeError
  end.

(** Lines 16-24: the loop over the rows. It gives what is printed and the
    rows collected, or the exception that leaves the loop. *)
Fixpoint read_rows (rows : list record) (customers_list : list record)
  : list event * result (list record) :=
  match rows with
  | [] => ([], Ok customers_list)
  | row :: rows' =>
      match row !! lit "Index" with
      | None => ([], Raise KeyError)
      | Some index =>
          match int index with
          | Ok z => read_rows rows' (customers_list ++ [<[lit "Index" := VInt z]> row])
          | Raise ValueError =>
              let '(printed, r) := read_rows rows' customers_list in
              (Print (WarnIndex index row) :: printed, r)
          | Raise e => ([], Raise e)
          end
      end
  end.

(** Lines 56-68. *)
Definition write_xml (customers_list : list record) (timestamp output_dir : str)
    (w : world) : list event :=
  match CustomerMapper.json_to_xml customers_list with
  | Raise e => [Print (XmlError e)]
  | Ok xml_output =>
      let target_xml_filename := lit "target_customers_" ++ timestamp ++ lit ".xml" in
      let target_xml_filepath := path_join output_dir target_xml_filename in
      match xml_write_error w with
      | Some e => [Print (XmlError e)]
      | None => [WriteFile target_xml_filepath xml_output; Print (XmlWritten target_xml_filepath)]
      end
  end.

(** Lines 44-54, then lines 56-68. *)
Definition write_json (customers_list : list record) (timestamp output_dir : str)
    (w : world) : list event :=
  let source_json_filename := lit "source_customers_" ++ timestamp ++ lit ".json" in
  let source_json_filepath := path_join output_dir source_json_filename in
  match json_write_error w with
  | Some e => [Print (JsonError e)]
  | None =>
      [WriteFile source_json_filepath (json_dumps customers_list);
       Print (JsonWritten source_json_filepath)]
      ++ write_xml customers_list timestamp output_dir w
  end.

(** Lines 36-68: what is done with the rows collected. *)
Definition write_outputs (customers_list : list record) (output_dir : str) (w : world)
  : list event * option exn :=
  let timestamp := now w in
  if dir_exists w then (write_json customers_list timestamp output_dir w, None)
  else
    match makedirs_error w with
    | Some e => ([], Some e)
    | None =>
        ([MakeDirs output_dir; Print (CreatedDir output_dir)]
         ++ write_json customers_list timestamp output_dir w, None)
    end.

(** Lines 7-68: what a run does, and the exception it ends with if one
    leaves the function. *)
Definition csv_to_json_and_xml (csv_filepath json_schema_filepath output_dir : str)
    (w : world) : list event * option exn :=
  match csv w with
  | Missing => ([Print (CsvNotFound csv_filepath)], None)
  | Unreadable e => ([Print (CsvError e)], None)
  | Rows rows failure =>
      let '(printed, read) := read_rows rows [] in
      match read, failure with
      | Raise e, _ => (printed ++ [Print (CsvError e)], None)
      | Ok _, Some e => (printed ++ [Print (CsvError e)], None)
      | Ok customers_list, None =>
          match customers_list with
          | [] => (printed ++ [Print NoData], None)
          | _ :: _ =>
              let '(written, raised) := write_outputs customers_list output_dir w in
              (printed ++ written, raised)
          end
      end
  end.

End Driver.

End process_customers.

(** ** csv.DictReader

    The driver and the test suite read the file through [csv.DictReader].
    [csv.reader] splits the file into lines of cells; the class turns each
    line into a [dict] ([DictReader.__next__] of [Lib/csv.py]). *)

Module DictReader.

(** [dict(zip(fieldnames, row))]: the cells by column name; of two cells
    under one name the later one stays. *)
Definition dict_zip (fieldnames row : list str) : record :=
  foldl (fun d kv => <[kv.1 := VStr kv.2]> d) ∅ (zip fieldnames row).

(** [__next__] on a line that is not empty: the columns the line does not
    reach hold [restval], which is [None]. (The cells of a line longer than
    the header go under the key [None], which no code of the repository
    reads.) *)
Definition next (fieldnames row : list str) : record :=
  foldl (fun d key => <[key := VNone]> d) (dict_zip fieldnames row)
    (drop (length row) fieldnames).

(** The rows the reader yields: the first line holds the field names, and
    the empty lines after it are passed over. *)
Definition rows (lines : list (list str)) : list record :=
  match lines with
  | [] => []
  | fieldnames :: lines' =>
      map (next fieldnames) (List.filter (fun row => negb (bool_decide (row = []))) lines')
  end.

End DictReader.

(** ** The field rules of the specification *)

Import minidom parser_facts CustomerMapper mapper_facts output_facts.

(** The text of a target element follows the source field [k] with a default
    for the absent key: ["N/A"] when the record has no [k], the value as it
    is when it has one. *)
Definition defaulted (d : record) (k : str) (text : option pyval) : Prop :=
  (d !! k = None -> text = Some (VStr (lit "N/A")))
  /\ (forall v, d !! k = Some v -> text = Some v).

Lemma get_or_defaulted d k : defaulted d k (Some (get_or d k (VStr (lit "N/A")))).
Proof. unfold defaulted, get_or. split; [intros ->; reflexivity|]. by intros v ->. Qed.

(** A record whose company is the empty string. *)
Definition empty_company : record := {[ lit "Company" := VStr [] ]}.

(** C1, as stated, fails: for a record whose "Company" is present and empty,
    the CompanyName element gets the empty text, not "N/A"; the document
    holds an empty [<CompanyName/>] and a parser reads no text from it. *)
Lemma C1_counterexample :
  empty_company !! lit "Company" = Some (VStr [])
  /\ exists e company_name out c,
       customer empty_company = Ok e
       /\ ET.find e (lit "CompanyName") = Some company_name
       /\ ET.text company_name = VStr []
       /\ ET.text company_name <> VStr (lit "N/A")
       /\ json_to_xml [empty_company] = Ok out
       /\ read.customers_of out = [c]
       /\ read.find c (lit "CompanyName") = Some (Element (lit "CompanyName") [] [])
       /\ read.findtext c (lit "CompanyName") = Some [].
Proof.
  split; [reflexivity|].
  do 4 eexists. split; [vm_compute; reflexivity|].
  split; [vm_compute; reflexivity|]. split; [reflexivity|]. split; [discriminate|].
  split; [vm_compute; reflexivity|]. split; [vm_compute; reflexivity|].
  split; vm_compute; reflexivity.
Qed.

(** C1, amended: CompanyName, Phone, City and Country take the value of
    "Company", "Phone 1", "City" and "Country"; the default "N/A" is used
    when the key is absent, and only then. *)
Theorem C1_default_on_absent_key d e :
  customer d = Ok e ->
  exists full_address,
    ET.find e (lit "FullAddress") = Some full_address
    /\ defaulted d (lit "Company") (child_text e (lit "CompanyName"))
    /\ defaulted d (lit "Phone 1") (child_text e (lit "Phone"))
    /\ defaulted d (lit "City") (child_text full_address (lit "City"))
    /\ defaulted d (lit "Country") (child_text full_address (lit "Country")).
Proof.
  intros He. destruct (customer_inv d e He) as (name & _ & ->).
  exists (full_address d).
  split; [destruct (truthy (get d (lit "Phone 2"))); reflexivity|].
  split; [apply get_or_defaulted|].
  split; [apply get_or_defaulted|].
  rewrite full_address_eq. split; apply get_or_defaulted.
Qed.

Lemma C1_default_on_absent_key_witness :
  exists e, customer empty_company = Ok e
    /\ defaulted empty_company (lit "Company") (child_text e (lit "CompanyName"))
    /\ defaulted empty_company (lit "Phone 1") (child_text e (lit "Phone")).
Proof.
  eexists. split; [vm_compute; reflexivity|].
  destruct (C1_default_on_absent_key empty_company _ eq_refl) as (fa & _ & H1 & H2 & _).
  split; [exact H1 | exact H2].
Defined.

(** [sep] between the parts. *)
Fixpoint join_with (sep : str) (parts : list str) : str :=
  match parts with
  | [] => []
  | [p] => p
  | p :: rest => p ++ sep ++ join_with sep rest
  end.

(** The contact name in the words of the specification: the first and the
    last name joined with a single space, empty parts dropped, white space
    trimmed around the result, and "N/A" when nothing is left. *)
Definition spec_contact_name (first_name last_name : str) : str :=
  let parts := List.filter (fun p => negb (bool_decide (p = []))) [first_name; last_name] in
  let trimmed := strip (join_with (lit " ") parts) in
  if bool_decide (trimmed = []) then lit "N/A" else trimmed.

(** A name field of a string-to-string record: absent, or a [str]. *)
Definition str_or_absent (d : record) (k : str) : Prop :=
  d !! k = None \/ exists s, d !! k = Some (VStr s).

Lemma str_or_absent_get_or d k :
  str_or_absent d k -> get_or d k (VStr []) = VStr (source_text (get d k)).
Proof. unfold get_or, get. by intros [->|(s & ->)]. Qed.



(** The record of the specification's example. *)
Definition maria_anders : record :=
  {[ lit "First Name" := VStr (lit "Maria"); lit "Last Name" := VStr (lit "Anders") ]}.


Example contact_name_maria_anders :
  spec_contact_name (lit "Maria") (lit "Anders") = lit "Maria Anders".
Proof. reflexivity. Qed.

Example contact_name_both_empty : spec_contact_name [] [] = lit "N/A".
Proof. reflexivity. Qed.

(** First and last name empty, or missing: "N/A". *)
Example contact_name_empty_or_missing :
  (exists e, customer {[ lit "First Name" := VStr []; lit "Last Name" := VStr [] ]} = Ok e
     /\ child_text e (lit "ContactName") = Some (VStr (lit "N/A")))
  /\ (exists e, customer ∅ = Ok e
        /\ child_text e (lit "ContactName") = Some (VStr (lit "N/A"))).
Proof. split; eexists; split; vm_compute; reflexivity. Qed.

Lemma is_Some_if {A} (b : bool) (x : A) : is_Some (if b then Some x else None) <-> b = true.
Proof.
  destruct b; [split; eauto | split; [intros [? [=]] | discriminate]].
Qed.

(** "Present and non-empty": a field is truthy when the record has it and
    its value is. *)
Lemma truthy_get d k :
  truthy (get d k) = true <-> exists v, d !! k = Some v /\ truthy v = true.
Proof.
  unfold get. destruct (d !! k) as [v|]; cbn [default].
  - split; [eauto|]. by intros (v' & [= <-] & H).
  - split; [discriminate|]. by intros (v' & [=] & _).
Qed.

(** C3: the Customer element has a CustomerID attribute exactly when
    "Customer Id" is truthy and a Fax child exactly when "Phone 2" is; a
    falsy or missing field leaves no attribute and no element, neither in the
    tree the mapper builds nor in the document it returns. *)
Theorem C3_optional_parts :
  (forall d e, customer d = Ok e ->
     (is_Some (ET.get e (lit "CustomerID")) <-> truthy (get d (lit "Customer Id")) = true)
     /\ (is_Some (ET.find e (lit "Fax")) <-> truthy (get d (lit "Phone 2")) = true)
     /\ ET.attrib e
        = (if truthy (get d (lit "Customer Id"))
           then [(lit "CustomerID", py_str (get d (lit "Customer Id")))] else [])
     /\ ET.find e (lit "Fax")
        = (if truthy (get d (lit "Phone 2"))
           then Some (ET.Elem (lit "Fax") [] (get d (lit "Phone 2")) []) else None))
  /\ (forall rs out, json_to_xml rs = Ok out ->
        Forall2 (fun d c =>
          (is_Some (read.get c (lit "CustomerID")) <-> truthy (get d (lit "Customer Id")) = true)
          /\ (is_Some (read.find c (lit "Fax")) <-> truthy (get d (lit "Phone 2")) = true))
          rs (read.customers_of out)).
Proof.
  split.
  - intros d e He. destruct (customer_inv d e He) as (name & _ & ->).
    assert (Hfax : ET.find
              (ET.Elem (lit "Customer")
                 (if truthy (get d (lit "Customer Id"))
                  then [(lit "CustomerID", py_str (get d (lit "Customer Id")))] else []) VNone
                 ([ET.Elem (lit "CompanyName") [] (get_or d (lit "Company") (VStr (lit "N/A"))) [];
                   ET.Elem (lit "ContactName") []
                     (VStr (if truthy (VStr name) then name else lit "N/A")) [];
                   ET.Elem (lit "ContactTitle") [] (VStr (lit "N/A")) [];
                   ET.Elem (lit "Phone") [] (get_or d (lit "Phone 1") (VStr (lit "N/A"))) []]
                  ++ (if truthy (get d (lit "Phone 2"))
                      then [ET.Elem (lit "Fax") [] (get d (lit "Phone 2")) []] else [])
                  ++ [full_address d])) (lit "Fax")
            = (if truthy (get d (lit "Phone 2"))
               then Some (ET.Elem (lit "Fax") [] (get d (lit "Phone 2")) []) else None)).
    { destruct (truthy (get d (lit "Phone 2"))); reflexivity. }
    rewrite Hfax. cbn [ET.attrib]. split; [|split; [apply is_Some_if|split; reflexivity]].
    unfold ET.get. cbn [ET.attrib].
    destruct (truthy (get d (lit "Customer Id")));
      [split; eauto | split; [intros [? [=]] | discriminate]].
  - intros rs out Hout. destruct (output_customers rs out Hout) as (doc & _ & _ & _ & Hcs).
    eapply Forall2_impl; [exact Hcs|]. intros d c (name & _ & ->).
    destruct (customer_node_reads d name) as (Hid & _ & _ & _ & _ & Hfax & _).
    rewrite Hid, Hfax. split; apply is_Some_if.
Qed.

(** A record with a customer id and no second phone. *)
Definition with_id : record := {[ lit "Customer Id" := VStr (lit "ALFKI"); lit "Phone 2" := VStr [] ]}.

Lemma C3_optional_parts_witness :
  exists e out,
    customer with_id = Ok e /\ json_to_xml [with_id] = Ok out
    /\ is_Some (ET.get e (lit "CustomerID")) /\ ~ is_Some (ET.find e (lit "Fax"))
    /\ Forall2 (fun d c =>
         (is_Some (read.get c (lit "CustomerID")) <-> truthy (get d (lit "Customer Id")) = true)
         /\ (is_Some (read.find c (lit "Fax")) <-> truthy (get d (lit "Phone 2")) = true))
         [with_id] (read.customers_of out).
Proof.
  do 2 eexists. split; [vm_compute; reflexivity|]. split; [vm_compute; reflexivity|].
  destruct C3_optional_parts as [Htree Hout].
  destruct (Htree with_id _ eq_refl) as (Hid & Hfax & _).
  split; [apply Hid; reflexivity|]. split; [rewrite Hfax; discriminate|].
  apply Hout. reflexivity.
Defined.

(** C5: whatever the record holds, ContactTitle, Address and Region are
    "N/A" and PostalCode is "0", in the tree the mapper builds and in every
    Customer element of the document it returns. *)
Theorem C5_constant_fields :
  (forall d e, customer d = Ok e ->
     child_text e (lit "ContactTitle") = Some (VStr (lit "N/A"))
     /\ exists full_address,
          ET.find e (lit "FullAddress") = Some full_address
          /\ child_text full_address (lit "Address") = Some (VStr (lit "N/A"))
          /\ child_text full_address (lit "Region") = Some (VStr (lit "N/A"))
          /\ child_text full_address (lit "PostalCode") = Some (VStr (lit "0")))
  /\ (forall rs out, json_to_xml rs = Ok out ->
        length (read.customers_of out) = length rs
        /\ Forall (fun c =>
             read.findtext c (lit "ContactTitle") = Some (lit "N/A")
             /\ exists full_address,
                  read.find c (lit "FullAddress") = Some full_address
                  /\ read.findtext full_address (lit "Address") = Some (lit "N/A")
                  /\ read.findtext full_address (lit "Region") = Some (lit "N/A")
                  /\ read.findtext full_address (lit "PostalCode") = Some (lit "0"))
             (read.customers_of out)).
Proof.
  split.
  - intros d e He. destruct (customer_inv d e He) as (name & _ & ->).
    split; [reflexivity|]. exists (full_address d).
    split; [destruct (truthy (get d (lit "Phone 2"))); reflexivity|].
    rewrite full_address_eq. repeat split.
  - intros rs out Hout. destruct (output_customers rs out Hout) as (doc & _ & _ & _ & Hcs).
    split; [symmetry; exact (Forall2_length _ _ _ Hcs)|].
    clear Hout. induction Hcs as [|d c rs' cs (name & _ & ->) _ IH]; [constructor|].
    constructor; [|exact IH].
    destruct (customer_node_reads d name) as (_ & _ & _ & Htitle & _ & _ & Haddr).
    destruct (address_node_reads d) as (H1 & _ & H3 & H4 & _).
    split; [exact Htitle|]. exists (address_node d). by repeat split.
Qed.

Lemma C5_constant_fields_witness :
  exists e out,
    customer with_id = Ok e /\ json_to_xml [with_id] = Ok out
    /\ child_text e (lit "ContactTitle") = Some (VStr (lit "N/A"))
    /\ length (read.customers_of out) = 1%nat.
Proof.
  do 2 eexists. split; [vm_compute; reflexivity|]. split; [vm_compute; reflexivity|].
  destruct C5_constant_fields as [Htree Hout].
  split; [exact (proj1 (Htree with_id _ eq_refl))|].
  exact (proj1 (Hout [with_id] _ eq_refl)).
Defined.

(** C4: the document has one Customer element per record, in the order of
    the records: the loop appends one element per record to the root, and
    the Customer elements a parser finds under the root of the output are
    these elements, read back, in the same order. *)
Theorem C4_one_customer_per_record rs out :
  json_to_xml rs = Ok out ->
  exists es doc,
    root_element rs = Ok (ET.Elem (lit "Customers") [] VNone es)
    /\ Forall2 (fun d e => customer d = Ok e) rs es
    /\ ET.findall (ET.Elem (lit "Customers") [] VNone es) (lit "Customer") = es
    /\ parse out = Some doc
    /\ read.tag doc = lit "Customers"
    /\ read.elements doc = read.findall doc (lit "Customer")
    /\ length (read.findall doc (lit "Customer")) = length rs
    /\ read.findall doc (lit "Customer") = map (fun e => reparsed (lit "  ") (to_dom e)) es.
Proof.
  intros Hout. destruct (json_to_xml_inv rs out Hout) as (es & Hes & Hser & -> & Hparse).
  exists es, (reparsed [] (document es)).
  split; [apply root_element_spec; eauto|]. split; [exact Hes|].
  split; [exact (findall_customers rs es Hes)|]. split; [exact Hparse|].
  split; [reflexivity|].
  destruct (findall_document es) as [Hall Hels].
  { clear -Hes. induction Hes as [|d e rs es He _ IH]; constructor; [|exact IH].
    destruct (customer_node_eq d e He) as (name & _ & ->). reflexivity. }
  rewrite Hall, Hels. split; [reflexivity|]. split; [|reflexivity].
  rewrite length_map. symmetry. exact (Forall2_length _ _ _ Hes).
Qed.

Lemma C4_one_customer_per_record_witness :
  exists out doc,
    json_to_xml [with_id; empty_company] = Ok out
    /\ parse out = Some doc
    /\ length (read.findall doc (lit "Customer")) = 2%nat.
Proof.
  eexists.
  destruct (C4_one_customer_per_record [with_id; empty_company] _ eq_refl)
    as (es & doc & _ & _ & _ & Hdoc & _ & _ & Hlen & _).
  exists doc. split; [vm_compute; reflexivity|]. split; [exact Hdoc | exact Hlen].
Defined.



(** A string-to-string record of XML characters is accepted. *)
Lemma xml_strings_ok (d : record) :
  (forall k v, d !! k = Some v -> exists s, v = VStr s /\ forallb is_char s = true) ->
  record_ok d = true.
Proof.
  intros H. unfold record_ok. apply forallb_forall. intros k _.
  unfold field_ok, field_all. destruct (d !! k) as [v|] eqn:Hk; [|reflexivity].
  by destruct (H k v Hk) as (s & -> & Hs).
Qed.

Lemma json_to_xml_returns rs : forallb record_ok rs = true -> exists out, json_to_xml rs = Ok out.
Proof.
  intros Hok. destruct (customers_serializable rs Hok) as (es & Hes & Hser).
  eexists. exact (json_to_xml_ok rs es Hes Hser).
Qed.



(** C8: for no record at all the mapper returns the XML declaration and an
    empty [Customers] element; the document is well formed, and its root has
    no child. *)
Theorem C8_empty_input :
  json_to_xml [] = Ok (xml_declaration ++ [LF] ++ lit "<Customers/>" ++ [LF])
  /\ parse (xml_declaration ++ [LF] ++ lit "<Customers/>" ++ [LF])
     = Some (Element (lit "Customers") [] [])
  /\ read.childNodes (Element (lit "Customers") [] []) = [].
Proof. split; [|split]; vm_compute; reflexivity. Qed.

(** A record whose company holds a carriage return between two letters. *)
Definition carriage_return : record :=
  {[ lit "Company" := VStr (lit "a" ++ [CR] ++ lit "b") ]}.

(** C6, as stated, fails: a carriage return is an XML character, it is
    written as it is, and the parser inside the mapper reads it as a line
    end; the text read back from the output holds a line feed in its place. *)
Lemma C6_counterexample :
  record_ok carriage_return = true
  /\ exists out c,
       json_to_xml [carriage_return] = Ok out
       /\ read.customers_of out = [c]
       /\ read.findtext c (lit "CompanyName") = Some (lit "a" ++ [LF] ++ lit "b")
       /\ lit "a" ++ [LF] ++ lit "b" <> lit "a" ++ [CR] ++ lit "b".
Proof.
  split; [vm_compute; reflexivity|]. do 2 eexists.
  split; [vm_compute; reflexivity|]. split; [vm_compute; reflexivity|].
  split; [vm_compute; reflexivity | discriminate].
Qed.

Definition not_cr (c : char) : bool := negb (c =? CR).

(** Every field the mapper reads is absent or holds a [str] without a
    carriage return. *)
Definition cr_free (d : record) : bool := forallb (field_all not_cr d) mapped_fields.

Lemma eol_not_cr s : forallb not_cr s = true -> eol s = s.
Proof.
  intros H. apply eol_id. unfold contains.
  induction s as [|c s IH]; [reflexivity|]. cbn [forallb existsb] in *.
  apply andb_true_iff in H as [Hc Hs]. unfold not_cr in Hc. apply negb_true_iff in Hc.
  by rewrite N.eqb_sym, Hc, IH.
Qed.

(** The texts a parser reads from the Customer element [c] of the output
    are the texts the mapper set for the record [d]. *)
Definition texts_read_back (d : record) (c : node) : Prop :=
  read.findtext c (lit "CompanyName")
  = Some (source_text (get_or d (lit "Company") (VStr (lit "N/A"))))
  /\ (exists name, contact_name_str d = Ok name
        /\ read.findtext c (lit "ContactName")
           = Some (if truthy (VStr name) then name else lit "N/A"))
  /\ read.findtext c (lit "ContactTitle") = Some (lit "N/A")
  /\ read.findtext c (lit "Phone")
     = Some (source_text (get_or d (lit "Phone 1") (VStr (lit "N/A"))))
  /\ (truthy (get d (lit "Phone 2")) = true ->
      read.findtext c (lit "Fax") = Some (source_text (get d (lit "Phone 2"))))
  /\ exists a, read.find c (lit "FullAddress") = Some a
       /\ read.findtext a (lit "Address") = Some (lit "N/A")
       /\ read.findtext a (lit "City")
          = Some (source_text (get_or d (lit "City") (VStr (lit "N/A"))))
       /\ read.findtext a (lit "Region") = Some (lit "N/A")
       /\ read.findtext a (lit "PostalCode") = Some (lit "0")
       /\ read.findtext a (lit "Country")
          = Some (source_text (get_or d (lit "Country") (VStr (lit "N/A")))).

Lemma get_or_eol d k :
  field_all not_cr d k = true ->
  eol (source_text (get_or d k (VStr (lit "N/A"))))
  = source_text (get_or d k (VStr (lit "N/A"))).
Proof.
  intros H. destruct (field_all_get_or not_cr d k (lit "N/A") H eq_refl) as (s & -> & Hs).
  by apply eol_not_cr.
Qed.

Lemma customer_node_texts d name :
  cr_free d = true -> contact_name_str d = Ok name ->
  texts_read_back d (customer_node d name).
Proof.
  unfold cr_free, mapped_fields. cbn [forallb]. intros H Hname. split_andb.
  destruct (customer_node_reads d name) as (_ & R1 & R2 & R3 & R4 & R5 & R6).
  destruct (address_node_reads d) as (A1 & A2 & A3 & A4 & A5).
  unfold texts_read_back. rewrite R1, R2, R3, R4, !get_or_eol by assumption.
  split; [reflexivity|]. split.
  { exists name. split; [exact Hname|]. f_equal. apply eol_not_cr.
    destruct (contact_name_all not_cr d) as (name' & Hname' & Hcr); [reflexivity|assumption..|].
    rewrite Hname in Hname'. injection Hname' as <-.
    destruct (truthy (VStr name)); [exact Hcr|reflexivity]. }
  split; [reflexivity|]. split; [reflexivity|]. split.
  { intros Hfax. unfold read.findtext. rewrite R5, Hfax.
    cbn [fmap option_fmap option_map]. rewrite leaf_text. f_equal.
    destruct (field_all_get not_cr d (lit "Phone 2")) as [->|(s & -> & Hs)];
      [assumption|reflexivity|by apply eol_not_cr]. }
  exists (address_node d). rewrite A2, A5, !get_or_eol by assumption. by repeat split.
Qed.

(** C6, amended: for records whose mapped fields are strings of XML
    characters other than the carriage return, the mapper returns a document
    from which a parser reads every text as the mapper was given it. *)
Theorem C6_text_round_trip rs :
  forallb record_ok rs = true -> forallb cr_free rs = true ->
  exists out, json_to_xml rs = Ok out /\ Forall2 texts_read_back rs (read.customers_of out).
Proof.
  intros Hok Hcr. destruct (json_to_xml_returns rs Hok) as (out & Hout).
  exists out. split; [exact Hout|].
  destruct (output_customers rs out Hout) as (doc & _ & _ & _ & Hcs).
  clear Hok Hout. induction Hcs as [|d c rs' cs (name & Hname & ->) _ IH]; [constructor|].
  cbn [forallb] in Hcr. apply andb_true_iff in Hcr as [Hd Hrs].
  constructor; [by apply customer_node_texts | exact (IH Hrs)].
Qed.

(** The record of the specification's example of escaping. *)
Definition widgets : record :=
  {[ lit "Company" := VStr (lit "Widgets & Gadgets <Inc.>");
     lit "First Name" := VStr (lit "O'Malley") ]}.

Lemma C6_text_round_trip_witness :
  exists out c,
    json_to_xml [widgets] = Ok out
    /\ read.customers_of out = [c]
    /\ read.findtext c (lit "CompanyName") = Some (lit "Widgets & Gadgets <Inc.>").
Proof.
  destruct (C6_text_round_trip [widgets]) as (out & Hout & Hcs);
    [vm_compute; reflexivity..|].
  exists out. inversion Hcs as [|d c rs cs Hc Hnil Hd Heq]; subst.
  inversion Hnil; subst. exists c. split; [exact Hout|]. split; [reflexivity|].
  exact (proj1 Hc).
Defined.

(** ** The driver *)

Import process_customers.

Section DriverRules.

Variable int_of_str : str -> option Z.
Variable json_dumps : list record -> str.
Variable path_join : str -> str -> str.

(** The row has an "Index" cell, a [str] as [csv.DictReader] reads it. *)
Definition has_str_index (row : record) : Prop :=
  exists s, row !! lit "Index" = Some (VStr s).

(** The row as it is collected: its "Index" coerced to an integer, when it
    parses as one. *)
Definition coerced (row : record) : option record :=
  match row !! lit "Index" with
  | Some (VStr s) =>
      match int_of_str s with
      | Some z => Some (<[lit "Index" := VInt z]> row)
      | None => None
      end
  | _ => None
  end.

(** The surviving rows, in the order of the file. *)
Definition surviving (rows : list record) : list record := omap coerced rows.

(** One warning per row that is skipped, in the order of the file. *)
Definition warnings (rows : list record) : list event :=
  flat_map (fun row =>
    match coerced row with
    | Some _ => []
    | None => [Print (WarnIndex (get row (lit "Index")) row)]
    end) rows.

Lemma surviving_cons row rows :
  surviving (row :: rows)
  = match coerced row with
    | Some kept => kept :: surviving rows
    | None => surviving rows
    end.
Proof. reflexivity. Qed.

Lemma warnings_cons row rows :
  warnings (row :: rows)
  = match coerced row with
    | Some _ => []
    | None => [Print (WarnIndex (get row (lit "Index")) row)]
    end ++ warnings rows.
Proof. reflexivity. Qed.

Lemma coerced_str row s :
  row !! lit "Index" = Some (VStr s) ->
  coerced row = match int_of_str s with
                | Some z => Some (<[lit "Index" := VInt z]> row)
                | None => None
                end
  /\ get row (lit "Index") = VStr s.
Proof. intros H. unfold coerced, get. by rewrite H. Qed.

Lemma read_rows_spec rows :
  Forall has_str_index rows ->
  forall customers_list,
    read_rows int_of_str rows customers_list
    = (warnings rows, Ok (customers_list ++ surviving rows)).
Proof.
  induction 1 as [|row rows (s & Hs) _ IH]; intros acc.
  - cbn. by rewrite app_nil_r.
  - destruct (coerced_str row s Hs) as [Hc Hg].
    cbn [read_rows]. rewrite surviving_cons, warnings_cons, Hc, Hg, Hs. cbn [int].
    destruct (int_of_str s) as [z|].
    + rewrite IH. cbn [app]. by rewrite <- app_assoc.
    + by rewrite IH.
Qed.

(** A row without an "Index" cell ends the loop: [row['Index']] raises
    [KeyError] when the header has no such column and [int(None)] raises
    [TypeError] when a short row lacks the cell, and only [ValueError] is
    caught inside the loop. *)
Lemma read_rows_no_index row rows customers_list :
  (row !! lit "Index" = None ->
   read_rows int_of_str (row :: rows) customers_list = ([], Raise KeyError))
  /\ (row !! lit "Index" = Some VNone ->
      read_rows int_of_str (row :: rows) customers_list = ([], Raise TypeError)).
Proof. split; intros H; cbn [read_rows]; by rewrite H. Qed.

(** Lines 7-68 when the file is read to its end. *)
Lemma driver_spec rows w csv_filepath json_schema_filepath output_dir :
  Forall has_str_index rows -> csv w = Rows rows None ->
  csv_to_json_and_xml int_of_str json_dumps path_join
    csv_filepath json_schema_filepath output_dir w
  = match surviving rows with
    | [] => (warnings rows ++ [Print NoData], None)
    | _ :: _ =>
        let '(written, raised) :=
          write_outputs json_dumps path_join (surviving rows) output_dir w in
        (warnings rows ++ written, raised)
    end.
Proof.
  intros Hrows Hcsv. unfold csv_to_json_and_xml. rewrite Hcsv, (read_rows_spec rows Hrows).
  reflexivity.
Qed.


(** C10: when the file is read to its end and no row survives, the driver
    prints its warnings and "No data processed from CSV." and returns: it
    makes no directory and writes no file. *)
Theorem C10_nothing_written rows w csv_filepath json_schema_filepath output_dir :
  csv w = Rows rows None ->
  Forall (fun row => exists s, row !! lit "Index" = Some (VStr s) /\ int_of_str s = None) rows ->
  csv_to_json_and_xml int_of_str json_dumps path_join
    csv_filepath json_schema_filepath output_dir w
  = (map (fun row => Print (WarnIndex (get row (lit "Index")) row)) rows ++ [Print NoData], None)
  /\ Forall (fun ev => exists m, ev = Print m)
       (fst (csv_to_json_and_xml int_of_str json_dumps path_join
               csv_filepath json_schema_filepath output_dir w)).
Proof.
  intros Hcsv Hrows.
  assert (Hstr : Forall has_str_index rows).
  { eapply Forall_impl; [exact Hrows|]. intros row (s & Hs & _). by exists s. }
  assert (Hnone : surviving rows = []
                  /\ warnings rows
                     = map (fun row => Print (WarnIndex (get row (lit "Index")) row)) rows).
  { clear -Hrows. induction Hrows as [|row rows (s & Hs & Hz) _ [IH1 IH2]]; [done|].
    destruct (coerced_str row s Hs) as [Hc Hg].
    rewrite surviving_cons, warnings_cons, Hc, Hz. cbn [app map].
    split; [exact IH1|]. f_equal. exact IH2. }
  destruct Hnone as [Hsurv Hwarn].
  rewrite (driver_spec rows w _ _ _ Hstr Hcsv), Hsurv, Hwarn. split; [reflexivity|].
  cbn [fst]. apply Forall_app. split; [|repeat constructor; eauto].
  apply Forall_map. apply Forall_forall. intros row _. cbn. eauto.
Qed.

End DriverRules.

(** An instance of [int_of_str] for the examples: it reads a plain ASCII
    decimal numeral, as [int] does, and refuses everything else ([int] also
    takes a sign, white space around the numeral, underscores between digits
    and the other decimal digits of Unicode). *)
Definition ascii_decimal (s : str) : option Z :=
  match s with
  | [] => None
  | _ :: _ => Z.of_N <$> number 10 digit_val s 0
  end.

(** Instances of [json_dumps] and [path_join] for the examples; the claims
    do not depend on the JSON text or on the form of a path. *)
Definition no_json (rows : list record) : str := [].
Definition posix_join (a b : str) : str := a ++ [SLASH] ++ b.

Definition row_1 : record :=
  {[ lit "Index" := VStr (lit "1"); lit "Company" := VStr (lit "ACME") ]}.
Definition row_x : record :=
  {[ lit "Index" := VStr (lit "x"); lit "Company" := VStr (lit "Umbrella") ]}.







(** A run on a file whose only row has no integer for an index, towards a
    directory that does not exist. *)
Definition world_x : world :=
  World (Rows [row_x] None) (lit "20240101120000") false None None None.

Lemma C10_nothing_written_witness :
  csv_to_json_and_xml ascii_decimal no_json posix_join
    (lit "customers.csv") (lit "schema.json") (lit "out") world_x
  = ([Print (WarnIndex (VStr (lit "x")) row_x); Print NoData], None).
Proof.
  destruct (C10_nothing_written ascii_decimal no_json posix_join [row_x] world_x
              (lit "customers.csv") (lit "schema.json") (lit "out")) as [H _];
    [reflexivity | repeat constructor; eexists; split; vm_compute; reflexivity |].
  rewrite H. vm_compute. reflexivity.
Defined.

(** ** Further properties of the mapper *)

(** *** The fields the mapper reads *)

(** Two records hold the same objects under the keys the mapper reads. *)
Definition same_mapped_fields (d d' : record) : Prop :=
  Forall (fun k => d !! k = d' !! k) mapped_fields.

Lemma customer_same_fields d d' : same_mapped_fields d d' -> customer d = customer d'.
Proof.
  unfold same_mapped_fields, mapped_fields. intros H.
  repeat match goal with
    | H : Forall _ (_ :: _) |- _ => inversion H; clear H; subst
    end.
  unfold customer, contact_name_str, full_address, get, get_or.
  repeat match goal with
    | H : _ !! _ = _ !! _ |- _ => rewrite H; clear H
    end.
  reflexivity.
Qed.

Lemma customers_same_fields rs rs' :
  Forall2 same_mapped_fields rs rs' -> forall root, customers rs root = customers rs' root.
Proof.
  induction 1 as [|d d' rs rs' Hd _ IH]; intros root; [reflexivity|].
  cbn [customers]. rewrite (customer_same_fields d d' Hd).
  destruct (customer d'); [apply IH | reflexivity].
Qed.

(** *** The records the mapper accepts *)

(** What a record has to hold for [json_to_xml] to return: two names that
    can be joined, and then only XML characters in the contact name, in the
    texts that are written and in the customer id, if there is one. *)
Definition accepted (d : record) : bool :=
  match contact_name_str d with
  | Ok name => forallb is_char name
  | Raise _ => false
  end
  && text_ok (get_or d (lit "Company") (VStr (lit "N/A")))
  && text_ok (get_or d (lit "Phone 1") (VStr (lit "N/A")))
  && text_ok (get d (lit "Phone 2"))
  && text_ok (get_or d (lit "City") (VStr (lit "N/A")))
  && text_ok (get_or d (lit "Country") (VStr (lit "N/A")))
  && (negb (truthy (get d (lit "Customer Id")))
      || forallb is_char (py_str (get d (lit "Customer Id")))).

Lemma serializable_inv tag attrs text cs :
  serializable (ET.Elem tag attrs text cs) = true ->
  values_ok attrs = true /\ text_ok text = true /\ forallb serializable cs = true.
Proof. cbn [serializable]. intros H. split_andb. by repeat split. Qed.

Lemma serializable_leaf_inv tag v :
  serializable (ET.Elem tag [] v []) = true -> text_ok v = true.
Proof. intros H. by destruct (serializable_inv _ _ _ _ H) as (_ & ? & _). Qed.

Lemma name_text_ok name :
  text_ok (VStr (if truthy (VStr name) then name else lit "N/A")) = forallb is_char name.
Proof. destruct name; reflexivity. Qed.

Lemma accepted_serializable d :
  accepted d = true <-> exists e, customer d = Ok e /\ serializable e = true.
Proof.
  split.
  - unfold accepted. intros H. split_andb.
    destruct (contact_name_str d) as [name|] eqn:Hname; [|discriminate].
    assert (exists e, customer d = Ok e) as (e & He).
    { unfold customer. rewrite Hname. cbn [bind]. eauto. }
    exists e. split; [exact He|].
    destruct (customer_inv d e He) as (name' & Hname' & ->).
    rewrite Hname in Hname'. injection Hname' as <-.
    rewrite full_address_eq.
    apply serializable_branch; [reflexivity| | |].
    + destruct (truthy (get d (lit "Customer Id"))); reflexivity.
    + destruct (truthy (get d (lit "Customer Id"))); [|reflexivity].
      cbn [values_ok forallb snd negb orb] in *. by rewrite andb_true_r.
    + apply Forall_app. split; [|apply Forall_app; split].
      * repeat constructor; apply serializable_leaf;
          (reflexivity || assumption || by rewrite name_text_ok).
      * destruct (truthy (get d (lit "Phone 2"))); repeat constructor.
        by apply serializable_leaf.
      * constructor; [|constructor].
        apply serializable_branch; [reflexivity..|].
        repeat constructor; apply serializable_leaf; (reflexivity || assumption).
  - intros (e & He & Hser).
    destruct (customer_inv d e He) as (name & Hname & ->).
    rewrite full_address_eq in Hser.
    apply serializable_inv in Hser as (Hattrs & _ & Hcs).
    rewrite !forallb_app in Hcs. cbn [forallb] in Hcs. split_andb.
    repeat match goal with
      | H : serializable (ET.Elem _ [] (VStr (lit _)) []) = true |- _ => clear H
      | H : serializable (ET.Elem _ [] _ []) = true |- _ => apply serializable_leaf_inv in H
      end.
    match goal with
    | H : serializable (ET.Elem (lit "FullAddress") _ _ _) = true |- _ =>
        apply serializable_inv in H as (_ & _ & Hfa)
    end.
    cbn [forallb] in Hfa. split_andb.
    repeat match goal with
      | H : serializable (ET.Elem _ [] (VStr (lit _)) []) = true |- _ => clear H
      | H : serializable (ET.Elem _ [] _ []) = true |- _ => apply serializable_leaf_inv in H
      end.
    match goal with
    | H : text_ok (VStr (if truthy (VStr name) then _ else _)) = true |- _ =>
        rewrite name_text_ok in H
    end.
    unfold accepted. rewrite Hname.
    repeat match goal with
      | H : ?b = true |- context [?b] => rewrite H
      end.
    cbn [andb].
    assert (Hfax : text_ok (get d (lit "Phone 2")) = true).
    { destruct (truthy (get d (lit "Phone 2"))) eqn:Ht.
      - match goal with
        | H : forallb serializable [ET.Elem (lit "Fax") _ _ _] = true |- _ =>
            cbn [forallb] in H; apply andb_true_iff in H as [H _];
            exact (serializable_leaf_inv _ _ H)
        end.
      - destruct (get d (lit "Phone 2")) as [|z|[|c s]]; try reflexivity; try discriminate.
        cbn [text_ok]. by rewrite Ht. }
    rewrite Hfax. cbn [andb].
    destruct (truthy (get d (lit "Customer Id"))); [|reflexivity].
    cbn [values_ok forallb snd negb orb] in *. by split_andb.
Qed.

Lemma accepted_all rs :
  forallb accepted rs = true <->
  exists es, Forall2 (fun d e => customer d = Ok e) rs es /\ forallb serializable es = true.
Proof.
  induction rs as [|d rs IH]; cbn [forallb].
  - split; [intros _; exists []; split; [constructor|reflexivity] | reflexivity].
  - rewrite andb_true_iff, IH, accepted_serializable. split.
    + intros [(e & He & Hse) (es & Hes & Hses)]. exists (e :: es).
      split; [by constructor|]. cbn [forallb]. by rewrite Hse, Hses.
    + intros (es & Hes & Hses). inversion Hes as [|? e ? es' He Hes']; subst.
      cbn [forallb] in Hses. apply andb_true_iff in Hses as [? ?]. split; eauto.
Qed.

Lemma json_to_xml_accepts rs :
  (exists out, json_to_xml rs = Ok out) <-> forallb accepted rs = true.
Proof.
  rewrite accepted_all. split.
  - intros (out & Hout). destruct (json_to_xml_inv rs out Hout) as (es & Hes & Hser & _).
    eauto.
  - intros (es & Hes & Hser). eexists. exact (json_to_xml_ok rs es Hes Hser).
Qed.

(** *** Objects that are not strings *)

Definition is_str (v : pyval) : bool :=
  match v with
  | VStr _ => true
  | _ => false
  end.

(** A truthy object that is not a [str]: [filter(None, ...)] keeps it and
    [join] refuses it; [_serialize_xml] writes it and [_escape_cdata]
    refuses it. *)
Definition unwritable (v : pyval) : bool := truthy v && negb (is_str v).

(** The names as line 23 reads them. *)
Definition names_wrong (d : record) : bool :=
  unwritable (get_or d (lit "First Name") (VStr []))
  || unwritable (get_or d (lit "Last Name") (VStr [])).

(** The texts as lines 20, 34, 39, 48 and 58 read them. *)
Definition texts_wrong (d : record) : bool :=
  existsb unwritable
    [get_or d (lit "Company") (VStr (lit "N/A")); get_or d (lit "Phone 1") (VStr (lit "N/A"));
     get d (lit "Phone 2");
     get_or d (lit "City") (VStr (lit "N/A")); get_or d (lit "Country") (VStr (lit "N/A"))].

(** One of the two names or of the five texts of the record is a truthy
    object that is not a [str]. *)
Definition wrong_type (d : record) : bool := names_wrong d || texts_wrong d.

Lemma contact_name_raises d :
  if names_wrong d then contact_name_str d = Raise TypeError
  else exists name, contact_name_str d = Ok name.
Proof.
  unfold names_wrong, contact_name_str, unwritable.
  destruct (get_or d (lit "First Name") (VStr [])) as [|[|p|p]|[|a f]],
    (get_or d (lit "Last Name") (VStr [])) as [|[|q|q]|[|b l]];
    cbn; eauto.
Qed.

Lemma customer_raises d :
  if names_wrong d then customer d = Raise TypeError else exists e, customer d = Ok e.
Proof.
  pose proof (contact_name_raises d) as H. unfold customer.
  destruct (names_wrong d); [by rewrite H|].
  destruct H as (name & ->). cbn [bind]. eauto.
Qed.

Lemma customers_raises rs : forall root,
  if existsb names_wrong rs then customers rs root = Raise TypeError
  else exists tree, customers rs root = Ok tree.
Proof.
  induction rs as [|d rs IH]; intros root; cbn [existsb customers]; [eauto|].
  pose proof (customer_raises d) as Hd. destruct (names_wrong d); cbn [orb].
  - by rewrite Hd.
  - destruct Hd as (e & ->). cbn [bind]. apply IH.
Qed.

(** No text of the tree is refused by [_escape_cdata]. *)
Fixpoint writable (e : ET.element) : bool :=
  let '(ET.Elem _ _ text children) := e in
  negb (unwritable text) && forallb writable children.

Lemma escape_cdata_raises text :
  truthy text = true ->
  if unwritable text then ET.escape_cdata text = Raise TypeError
  else exists s, ET.escape_cdata text = Ok s.
Proof.
  unfold unwritable. intros ->. destruct text as [|z|s]; cbn; eauto.
Qed.

(** [ET.tostring] returns on the writable trees and raises [TypeError] on
    the others. *)
Lemma serialize_writable e :
  if writable e then exists s, ET.serialize_xml e = Ok s
  else ET.serialize_xml e = Raise TypeError.
Proof.
  induction e as [tag attrib text cs IH] using element_ind'.
  assert (Hcs : if forallb writable cs then exists s, serialize_all cs = Ok s
                else serialize_all cs = Raise TypeError).
  { induction IH as [|c cs Hc _ IHcs]; [cbn; eauto|].
    cbn [forallb serialize_all]. destruct (writable c); cbn [andb].
    - destruct Hc as (x & ->). cbn [bind].
      destruct (forallb writable cs); [|by rewrite IHcs].
      destruct IHcs as (y & ->). cbn [bind]. eauto.
    - by rewrite Hc. }
  rewrite serialize_xml_eq. cbn [writable].
  destruct (truthy text) eqn:Htext; cbn [orb].
  - pose proof (escape_cdata_raises text Htext) as He.
    destruct (unwritable text); cbn [negb andb]; [by rewrite He|].
    destruct He as (x & ->). cbn [bind].
    destruct (forallb writable cs); [|by rewrite Hcs].
    destruct Hcs as (y & ->). cbn [bind]. eauto.
  - assert (unwritable text = false) as -> by (unfold unwritable; by rewrite Htext).
    cbn [negb andb]. destruct (negb (Nat.eqb (length cs) 0)) eqn:Hlen.
    + cbn [bind]. destruct (forallb writable cs); [|by rewrite Hcs].
      destruct Hcs as (y & ->). cbn [bind]. eauto.
    + destruct cs; [cbn; eauto | discriminate].
Qed.

Lemma unwritable_str s : unwritable (VStr s) = false.
Proof. unfold unwritable. apply andb_false_r. Qed.

Lemma unwritable_falsy v : truthy v = false -> unwritable v = false.
Proof. unfold unwritable. by intros ->. Qed.

Lemma customer_writable d e : customer d = Ok e -> writable e = negb (texts_wrong d).
Proof.
  intros He. destruct (customer_inv d e He) as (name & _ & ->).
  rewrite full_address_eq. unfold texts_wrong. cbn [existsb].
  destruct (truthy (get d (lit "Phone 2"))) eqn:Ht; cbn [app writable forallb];
    rewrite ?unwritable_str, ?(unwritable_falsy _ Ht);
    change (unwritable VNone) with false;
    destruct (unwritable (get_or d (lit "Company") (VStr (lit "N/A")))),
      (unwritable (get_or d (lit "Phone 1") (VStr (lit "N/A")))),
      (unwritable (get_or d (lit "City") (VStr (lit "N/A")))),
      (unwritable (get_or d (lit "Country") (VStr (lit "N/A"))));
    try reflexivity;
    destruct (unwritable (get d (lit "Phone 2"))); reflexivity.
Qed.

Lemma customers_writable rs es :
  Forall2 (fun d e => customer d = Ok e) rs es ->
  forallb writable es = negb (existsb texts_wrong rs).
Proof.
  induction 1 as [|d e rs es He _ IH]; [reflexivity|].
  cbn [forallb existsb]. rewrite IH, (customer_writable d e He), negb_orb. reflexivity.
Qed.

Lemma existsb_wrong_type rs :
  existsb wrong_type rs = existsb names_wrong rs || existsb texts_wrong rs.
Proof.
  induction rs as [|d rs IH]; [reflexivity|]. cbn [existsb]. rewrite IH. unfold wrong_type.
  destruct (names_wrong d), (texts_wrong d), (existsb names_wrong rs),
    (existsb texts_wrong rs); reflexivity.
Qed.

Lemma parseString_raises s : parseString s <> Raise TypeError.
Proof.
  unfold parseString. destruct (existsb is_surrogate s); [discriminate|].
  destruct (parse s); discriminate.
Qed.

Lemma json_to_xml_raises_type_error rs :
  json_to_xml rs = Raise TypeError <-> existsb wrong_type rs = true.
Proof.
  rewrite existsb_wrong_type. unfold json_to_xml, root_element.
  pose proof (customers_raises rs (ET.Element (lit "Customers"))) as Hloop.
  destruct (existsb names_wrong rs); cbn [orb].
  { rewrite Hloop. by split. }
  destruct Hloop as (tree & Htree). rewrite Htree. cbn [bind].
  apply customers_spec in Htree as (es & Hes & ->).
  cbn [ET.tag ET.attrib ET.text ET.children ET.Element app].
  rewrite <- (negb_involutive (existsb texts_wrong rs)), <- (customers_writable rs es Hes).
  pose proof (serialize_writable (ET.Elem (lit "Customers") [] VNone es)) as Hser.
  cbn [writable] in Hser. change (unwritable VNone) with false in Hser.
  cbn [negb andb] in Hser. unfold ET.tostring.
  destruct (forallb writable es); cbn [negb].
  - destruct Hser as (s & ->). cbn [bind]. split; [|discriminate].
    pose proof (parseString_raises s) as Hp.
    destruct (parseString s) as [dom|x]; cbn [bind]; [discriminate|].
    intros [= ->]. contradiction.
  - rewrite Hser. by split.
Qed.

(** *** [str.strip] *)


Lemma lstrip_length s : (length (lstrip s) <= length s)%nat.
Proof.
  induction s as [|c s IH]; [reflexivity|]. cbn [lstrip].
  destruct (isspace c); cbn [length]; lia.
Qed.

(** A string is left as it is exactly when it does not start with white
    space. *)
Lemma lstrip_fixed c s : lstrip (c :: s) = c :: s <-> isspace c = false.
Proof.
  cbn [lstrip]. destruct (isspace c); split; try done.
  intros H. pose proof (lstrip_length s) as Hlen. rewrite H in Hlen. cbn [length] in Hlen. lia.
Qed.






Lemma strip_sp_l s : strip (SP :: s) = strip s.
Proof. reflexivity. Qed.

Lemma lstrip_snoc_sp s :
  lstrip (s ++ [SP]) = match lstrip s with [] => [] | _ :: _ => lstrip s ++ [SP] end.
Proof.
  induction s as [|c s IH]; [reflexivity|]. cbn [app lstrip].
  destruct (isspace c); [exact IH | reflexivity].
Qed.

Lemma rstrip_snoc_sp s : rstrip (s ++ [SP]) = rstrip s.
Proof. unfold rstrip. by rewrite rev_app_distr. Qed.

Lemma strip_sp_r s : strip (s ++ [SP]) = strip s.
Proof.
  unfold strip. rewrite lstrip_snoc_sp.
  destruct (lstrip s); [reflexivity | apply rstrip_snoc_sp].
Qed.

(** *** The contact name *)

Lemma contact_name_text d e :
  customer d = Ok e ->
  exists name, contact_name_str d = Ok name
    /\ child_text e (lit "ContactName")
       = Some (VStr (if truthy (VStr name) then name else lit "N/A")).
Proof.
  intros He. destruct (customer_inv d e He) as (name & Hname & ->).
  exists name. split; [exact Hname | reflexivity].
Qed.


(** The contact name as the test computes the one it expects (line 89 of
    the test suite): an f-string of the two names with a space between them,
    stripped. *)
Module test_customer_mapper.

Definition expected_contact_name (first_csv_customer : record) : str :=
  strip (py_str (get_or first_csv_customer (lit "First Name") (VStr []))
         ++ lit " "
         ++ py_str (get_or first_csv_customer (lit "Last Name") (VStr []))).

End test_customer_mapper.

Lemma contact_name_expected d :
  str_or_absent d (lit "First Name") -> str_or_absent d (lit "Last Name") ->
  contact_name_str d = Ok (test_customer_mapper.expected_contact_name d).
Proof.
  intros Hf Hl. unfold contact_name_str, test_customer_mapper.expected_contact_name.
  rewrite (str_or_absent_get_or _ _ Hf), (str_or_absent_get_or _ _ Hl).
  change (lit " ") with [SP]. cbn [py_str].
  destruct (source_text (get d (lit "First Name"))) as [|a f],
    (source_text (get d (lit "Last Name"))) as [|b l];
    cbn [List.filter truthy join bind]; f_equal.
  change ([SP] ++ []) with [SP]. by rewrite strip_sp_r.
Qed.

(** *** The customer id *)

(** A character an attribute value keeps when it is written as it is: the
    parser reads a space for a tab, a line feed and a carriage return. *)
Definition kept_in_attribute (c : char) : bool :=
  negb ((c =? TAB) || (c =? LF) || (c =? CR)).

Lemma attr_norm_id s : forallb kept_in_attribute s = true -> attr_norm s = s.
Proof.
  unfold attr_norm. induction s as [|c s IH]; [reflexivity|].
  cbn [forallb attr_norm_from]. intros H. apply andb_true_iff in H as [Hc Hs].
  unfold kept_in_attribute in Hc. apply negb_true_iff in Hc.
  apply orb_false_iff in Hc as [Hc Hcr]. apply orb_false_iff in Hc as [Htab Hlf].
  rewrite Hcr, Hlf, Htab. cbn [andb orb]. by rewrite (IH Hs).
Qed.

(** The [CustomerID] a parser reads from the [Customer] element [c] of the
    output, against the "Customer Id" of the record [d]. *)
Definition customer_id_read_back (d : record) (c : node) : Prop :=
  read.get c (lit "CustomerID")
  = (if truthy (get d (lit "Customer Id"))
     then Some (attr_norm (py_str (get d (lit "Customer Id")))) else None)
  /\ forall s, d !! lit "Customer Id" = Some (VStr s) -> s <> [] ->
       forallb kept_in_attribute s = true -> read.get c (lit "CustomerID") = Some s.

Lemma customer_node_id d name : customer_id_read_back d (customer_node d name).
Proof.
  destruct (customer_node_reads d name) as (Hid & _). split; [exact Hid|].
  intros s Hs Hne Hkept. rewrite Hid. unfold get. rewrite Hs. cbn [default py_str].
  destruct s as [|a s]; [contradiction|]. cbn [truthy]. by rewrite attr_norm_id.
Qed.

(** *** The order of the elements *)

(** The tags of the child elements of [n], in document order. *)
Definition child_tags (n : node) : list str := map read.tag (read.elements n).

(** The children of a [Customer] and of its [FullAddress], by tag. *)
Definition in_schema_order (d : record) (c : node) : Prop :=
  child_tags c
  = [lit "CompanyName"; lit "ContactName"; lit "ContactTitle"; lit "Phone"]
    ++ (if truthy (get d (lit "Phone 2")) then [lit "Fax"] else [])
    ++ [lit "FullAddress"]
  /\ exists a, read.find c (lit "FullAddress") = Some a
       /\ child_tags a
          = [lit "Address"; lit "City"; lit "Region"; lit "PostalCode"; lit "Country"].

Lemma customer_node_order d name : in_schema_order d (customer_node d name).
Proof.
  split.
  - unfold customer_node. destruct (truthy (get d (lit "Phone 2"))); reflexivity.
  - exists (address_node d). split; [|reflexivity].
    by destruct (customer_node_reads d name) as (_ & _ & _ & _ & _ & _ & ?).
Qed.

(** *** The customers of the output as a function of the records *)

(** The [Customer] element a parser reads from the output for the record
    [d], when the mapper accepts it. *)
Definition customer_node_of (d : record) : node :=
  customer_node d match contact_name_str d with
                  | Ok name => name
                  | Raise _ => []
                  end.

Lemma customers_of_output rs out :
  json_to_xml rs = Ok out -> read.customers_of out = map customer_node_of rs.
Proof.
  intros Hout. destruct (output_customers rs out Hout) as (doc & _ & _ & _ & Hcs).
  clear Hout. revert Hcs. generalize (read.customers_of out). intros cs Hcs.
  induction Hcs as [|d c rs' cs (name & Hname & ->) _ IH]; [reflexivity|].
  cbn [map]. rewrite IH. unfold customer_node_of. by rewrite Hname.
Qed.

Lemma output_forall2 (P : record -> node -> Prop) rs out :
  (forall d name, contact_name_str d = Ok name -> P d (customer_node d name)) ->
  json_to_xml rs = Ok out -> Forall2 P rs (read.customers_of out).
Proof.
  intros HP Hout. destruct (output_customers rs out Hout) as (doc & _ & _ & _ & Hcs).
  eapply Forall2_impl; [exact Hcs|]. intros d c (name & Hname & ->). by apply HP.
Qed.

(** *** The text of the output *)

(** [s.startswith(prefix)] and [s.endswith(suffix)]. *)
Fixpoint startswith (s prefix : str) {struct prefix} : bool :=
  match prefix, s with
  | [], _ => true
  | p :: prefix', c :: s' => (c =? p) && startswith s' prefix'
  | _ :: _, [] => false
  end.

Definition endswith (s suffix : str) : bool := startswith (rev s) (rev suffix).

Lemma startswith_app p s : startswith (p ++ s) p = true.
Proof. induction p as [|c p IH]; [reflexivity|]. cbn. by rewrite N.eqb_refl. Qed.

Lemma endswith_app s p : endswith (s ++ p) p = true.
Proof. unfold endswith. rewrite rev_app_distr. apply startswith_app. Qed.

Lemma rstrip_line s z : isspace z = false -> rstrip (s ++ [z; LF]) = s ++ [z].
Proof.
  intros Hz. unfold rstrip. rewrite rev_app_distr.
  change (rev [z; LF] ++ rev s) with (LF :: z :: rev s).
  change (lstrip (LF :: z :: rev s)) with (lstrip (z :: rev s)).
  rewrite (proj2 (lstrip_fixed z (rev s)) Hz). cbn [rev]. by rewrite rev_involutive.
Qed.

(** A text between two characters that are not white space, and a line
    feed after it: [strip] takes the line feed off. *)
Lemma strip_line c a m b z :
  isspace c = false -> isspace z = false ->
  strip ((c :: a) ++ m ++ (b ++ [z]) ++ [LF]) = (c :: a) ++ m ++ b ++ [z].
Proof.
  intros Hc Hz. unfold strip.
  assert (lstrip ((c :: a) ++ m ++ (b ++ [z]) ++ [LF]) = (c :: a) ++ m ++ (b ++ [z]) ++ [LF])
    as -> by (by apply lstrip_fixed).
  replace ((c :: a) ++ m ++ (b ++ [z]) ++ [LF]) with (((c :: a) ++ m ++ b) ++ [z; LF])
    by (by rewrite <- !app_assoc).
  rewrite rstrip_line by exact Hz. by rewrite <- !app_assoc.
Qed.

(** The text [toprettyxml] writes for a root with a child element. *)
Lemma document_text e es :
  toprettyxml (document (e :: es)) (lit "  ")
  = lit "<?xml"
    ++ (lit " version=" ++ [QUOT] ++ lit "1.0" ++ [QUOT] ++ lit " ?>" ++ [LF]
        ++ lit "<Customers>" ++ [LF]
        ++ flat_map (fun c => writexml c (lit "  ") (lit "  ") [LF]) (map to_dom (e :: es)))
    ++ lit "</Customers>" ++ [LF].
Proof.
  unfold toprettyxml, document, xml_declaration. cbn [to_dom text_node app map].
  destruct e as [t a x cs]. cbn [to_dom writexml].
  change ([] ++ lit "  ") with (lit "  ").
  match goal with
  | |- context [flat_map ?f ?l] => generalize (flat_map f l)
  end.
  intros printed. vm_compute. reflexivity.
Qed.

(** ** Further properties of the driver *)

(** The files a run writes to the end, with what it writes to them, and
    the paths on which [os.makedirs] returns, in the order of the run. A
    write or a call that raises is no event: what it leaves behind (a file
    opened and not written to the end, a parent directory) is not
    modelled. *)
Definition files_written (events : list event) : list (str * str) :=
  omap (fun ev => match ev with
                  | WriteFile path content => Some (path, content)
                  | _ => None
                  end) events.

Definition dirs_made (events : list event) : list str :=
  omap (fun ev => match ev with
                  | MakeDirs path => Some path
                  | _ => None
                  end) events.

Definition is_print (ev : event) : bool :=
  match ev with
  | Print _ => true
  | _ => false
  end.

Definition is_warning (ev : event) : bool :=
  match ev with
  | Print (WarnIndex _ _) => true
  | _ => false
  end.

Lemma files_written_app l1 l2 : files_written (l1 ++ l2) = files_written l1 ++ files_written l2.
Proof. apply omap_app. Qed.

Lemma dirs_made_app l1 l2 : dirs_made (l1 ++ l2) = dirs_made l1 ++ dirs_made l2.
Proof. apply omap_app. Qed.

Lemma files_written_made path m l :
  files_written (MakeDirs path :: Print m :: l) = files_written l
  /\ dirs_made (MakeDirs path :: Print m :: l) = path :: dirs_made l.
Proof. by split. Qed.

Lemma prints_write_nothing l :
  forallb is_print l = true -> files_written l = [] /\ dirs_made l = [].
Proof.
  induction l as [|[m|p|p c] l IH]; cbn [forallb is_print andb]; try discriminate; [done|].
  exact IH.
Qed.

Lemma warnings_are_prints l : forallb is_warning l = true -> forallb is_print l = true.
Proof.
  induction l as [|[[]|p|p c] l IH]; cbn [forallb is_warning is_print andb];
    try discriminate; [done|exact IH].
Qed.

Section DriverFacts.

Variable int_of_str : str -> option Z.
Variable json_dumps : list record -> str.
Variable path_join : str -> str -> str.

(** Lines 45-46 and 61-62: the two paths of a run. *)
Definition source_json_filepath (output_dir : str) (w : world) : str :=
  path_join output_dir (lit "source_customers_" ++ now w ++ lit ".json").

Definition target_xml_filepath (output_dir : str) (w : world) : str :=
  path_join output_dir (lit "target_customers_" ++ now w ++ lit ".xml").

(** The loop prints warnings only, and when it ends normally every row
    has been collected or warned about. *)
Lemma read_rows_counts rows : forall customers_list printed read,
  read_rows int_of_str rows customers_list = (printed, read) ->
  forallb is_warning printed = true
  /\ forall kept, read = Ok kept ->
       (length printed + length kept = length customers_list + length rows)%nat.
Proof.
  induction rows as [|row rows IH]; intros acc printed read; cbn [read_rows].
  - intros [= <- <-]. split; [reflexivity|]. intros kept [= <-]. cbn [length]. lia.
  - destruct (row !! lit "Index") as [index|]; [|intros [= <- <-]; by split].
    destruct (int int_of_str index) as [z|[]] eqn:Hint;
      try (intros [= <- <-]; by split).
    + intros H. destruct (IH _ _ _ H) as [Hp Hlen]. split; [exact Hp|].
      intros kept Hk. pose proof (Hlen kept Hk) as Hl. rewrite length_app in Hl.
      cbn [length] in *. lia.
    + destruct (read_rows int_of_str rows acc) as [printed' r] eqn:Hrest.
      intros [= <- <-]. destruct (IH _ _ _ Hrest) as [Hp Hlen].
      split; [exact Hp|]. intros kept Hk. pose proof (Hlen kept Hk) as Hl.
      cbn [length]. lia.
Qed.

Lemma read_rows_prints rows customers_list printed read :
  read_rows int_of_str rows customers_list = (printed, read) ->
  files_written printed = [] /\ dirs_made printed = [].
Proof.
  intros H. apply prints_write_nothing, warnings_are_prints.
  exact (proj1 (read_rows_counts _ _ _ _ H)).
Qed.

(** Lines 56-68 write at most the XML file. *)
Lemma write_xml_files customers_list output_dir w :
  let events := write_xml path_join customers_list (now w) output_dir w in
  dirs_made events = []
  /\ (files_written events = []
      \/ exists xml_output,
           json_to_xml customers_list = Ok xml_output
           /\ files_written events = [(target_xml_filepath output_dir w, xml_output)]).
Proof.
  cbn zeta. unfold write_xml.
  destruct (json_to_xml customers_list) as [xml_output|e]; [|by split; [|left]].
  destruct (xml_write_error w); [by split; [|left]|].
  split; [reflexivity|]. right. by exists xml_output.
Qed.

(** Lines 44-68 write the JSON file and then at most the XML file. *)
Lemma write_json_files customers_list output_dir w :
  let events := write_json json_dumps path_join customers_list (now w) output_dir w in
  dirs_made events = []
  /\ (files_written events = []
      \/ files_written events = [(source_json_filepath output_dir w, json_dumps customers_list)]
      \/ exists xml_output,
           json_to_xml customers_list = Ok xml_output
           /\ files_written events
              = [(source_json_filepath output_dir w, json_dumps customers_list);
                 (target_xml_filepath output_dir w, xml_output)]).
Proof.
  cbn zeta. unfold write_json.
  destruct (json_write_error w); [by split; [|left]|].
  destruct (write_xml_files customers_list output_dir w) as [Hd [Hf|(xml_output & Hx & Hf)]];
    cbn zeta in *; rewrite dirs_made_app, files_written_app, Hd, Hf;
    (split; [reflexivity|]); right; [by left|].
  right. by exists xml_output.
Qed.

Lemma write_outputs_files customers_list output_dir w events raised :
  write_outputs json_dumps path_join customers_list output_dir w = (events, raised) ->
  (files_written events = []
   \/ files_written events = [(source_json_filepath output_dir w, json_dumps customers_list)]
   \/ exists xml_output,
        json_to_xml customers_list = Ok xml_output
        /\ files_written events
           = [(source_json_filepath output_dir w, json_dumps customers_list);
              (target_xml_filepath output_dir w, xml_output)])
  /\ (dirs_made events = [] \/ dir_exists w = false /\ dirs_made events = [output_dir])
  /\ (forall e, raised = Some e ->
        dir_exists w = false /\ makedirs_error w = Some e /\ events = []).
Proof.
  unfold write_outputs.
  destruct (write_json_files customers_list output_dir w) as [Hd Hf]. cbn zeta in Hd, Hf.
  destruct (dir_exists w).
  - intros [= <- <-]. split; [exact Hf|]. split; [by left|]. discriminate.
  - destruct (makedirs_error w) as [e|].
    + intros [= <- <-]. split; [by left|]. split; [by left|]. by intros e' [= <-].
    + intros [= <- <-].
      destruct (files_written_made output_dir (CreatedDir output_dir)
                  (write_json json_dumps path_join customers_list (now w) output_dir w))
        as [-> ->].
      rewrite Hd. split; [exact Hf|]. split; [by right|]. discriminate.
Qed.

(** Lines 7-68: what a run of the driver can write. *)
Lemma run_files csv_filepath json_schema_filepath output_dir w events raised :
  csv_to_json_and_xml int_of_str json_dumps path_join
    csv_filepath json_schema_filepath output_dir w = (events, raised) ->
  (files_written events = [] /\ dirs_made events = [] /\ raised = None)
  \/ exists rows printed customers_list written,
       csv w = Rows rows None
       /\ read_rows int_of_str rows [] = (printed, Ok customers_list)
       /\ customers_list <> []
       /\ write_outputs json_dumps path_join customers_list output_dir w = (written, raised)
       /\ files_written events = files_written written
       /\ dirs_made events = dirs_made written.
Proof.
  unfold csv_to_json_and_xml.
  destruct (csv w) as [|e|rows failure] eqn:Hcsv; [intros [= <- <-]; by left..|].
  destruct (read_rows int_of_str rows []) as [printed read] eqn:Hread.
  destruct (read_rows_prints _ _ _ _ Hread) as [Hpf Hpd].
  assert (Hstop : forall m, files_written (printed ++ [Print m]) = []
                            /\ dirs_made (printed ++ [Print m]) = []).
  { intros m. by rewrite files_written_app, dirs_made_app, Hpf, Hpd. }
  destruct read as [customers_list|e]; [|intros [= <- <-]; left; by destruct (Hstop (CsvError e))].
  destruct failure as [e|]; [intros [= <- <-]; left; by destruct (Hstop (CsvError e))|].
  destruct customers_list as [|r l]; [intros [= <- <-]; left; by destruct (Hstop NoData)|].
  destruct (write_outputs json_dumps path_join (r :: l) output_dir w) as [written raised']
    eqn:Hw.
  intros [= <- <-]. right. exists rows, printed, (r :: l), written.
  rewrite files_written_app, dirs_made_app, Hpf, Hpd. by repeat split.
Qed.

End DriverFacts.

(** ** The rows of csv.DictReader *)

Module reader_facts.
Import DictReader.

Lemma zip_lookup_notin (d : record) (items : list (str * str)) k :
  (forall v, (k, v) ∉ items) ->
  foldl (fun d kv => <[kv.1 := VStr kv.2]> d) d items !! k = d !! k.
Proof.
  revert d. induction items as [|[k' v'] items IH]; intros d H; [reflexivity|].
  cbn [foldl fst snd]. rewrite IH.
  - apply lookup_insert_ne. intros ->. apply (H v'). left.
  - intros v Hv. apply (H v). by right.
Qed.

Lemma zip_lookup_is_Some (d : record) (items : list (str * str)) k :
  is_Some (foldl (fun d kv => <[kv.1 := VStr kv.2]> d) d items !! k)
  <-> is_Some (d !! k) \/ k ∈ items.*1.
Proof.
  revert d. induction items as [|[k' v'] items IH]; intros d; cbn [foldl fmap list_fmap fst snd].
  - split; [by left|]. intros [?|H]; [done|]. by apply elem_of_nil in H.
  - rewrite IH, elem_of_cons. destruct (decide (k = k')) as [->|Hne].
    + rewrite lookup_insert_eq. split; [intros _; right; by left | intros _; left; eauto].
    + rewrite lookup_insert_ne by done. split; [intros [?|?]; eauto | intros [?|[?|?]]; eauto; done].
Qed.

Lemma zip_values (P : pyval -> Prop) (d : record) (items : list (str * str)) :
  map_Forall (fun _ v => P v) d -> Forall (fun kv => P (VStr kv.2)) items ->
  map_Forall (fun _ v => P v) (foldl (fun d kv => <[kv.1 := VStr kv.2]> d) d items).
Proof.
  revert d. induction items as [|[k' v'] items IH]; intros d Hd Hitems; [exact Hd|].
  inversion Hitems as [|? ? Hv Hrest]; subst. cbn [foldl]. apply IH; [|exact Hrest].
  by apply map_Forall_insert_2.
Qed.

Lemma fill_lookup (d : record) (keys : list str) k :
  foldl (fun d key => <[key := VNone]> d) d keys !! k
  = if decide (k ∈ keys) then Some VNone else d !! k.
Proof.
  revert d. induction keys as [|k' keys IH]; intros d; cbn [foldl].
  - destruct (decide (k ∈ [])) as [H|_]; [by apply elem_of_nil in H | reflexivity].
  - rewrite IH. destruct (decide (k ∈ keys)) as [Hin|Hnin].
    + rewrite decide_True by (by right). reflexivity.
    + destruct (decide (k = k')) as [->|Hne].
      * rewrite decide_True by left. apply lookup_insert_eq.
      * rewrite decide_False by (rewrite elem_of_cons; intros [?|?]; done).
        by apply lookup_insert_ne.
Qed.

Lemma zip_keys (fieldnames row : list str) :
  (zip fieldnames row).*1 = take (length row) fieldnames.
Proof.
  revert row. induction fieldnames as [|k fieldnames IH]; intros [|cell row]; try reflexivity.
  cbn. by rewrite IH.
Qed.

(** A row has the columns of the header, and no other. *)
Lemma next_keys fieldnames row k : is_Some (next fieldnames row !! k) <-> k ∈ fieldnames.
Proof.
  unfold next, dict_zip. rewrite fill_lookup.
  rewrite <- (take_drop (length row) fieldnames) at 3. rewrite elem_of_app.
  destruct (decide (k ∈ drop (length row) fieldnames)) as [Hin|Hnin].
  - split; [by right | eauto].
  - rewrite zip_lookup_is_Some, zip_keys, lookup_empty. split.
    + intros [[? [=]]|?]. by left.
    + intros [?|?]; [by right | done].
Qed.

(** A column holds a cell of the row, or [None]. *)
Lemma next_values fieldnames row k v :
  next fieldnames row !! k = Some v -> v = VNone \/ exists cell, v = VStr cell /\ cell ∈ row.
Proof.
  unfold next. rewrite fill_lookup.
  destruct (decide (k ∈ drop (length row) fieldnames)); [intros [= <-]; by left|].
  intros H. right.
  assert (Hall : map_Forall (fun _ v => exists cell, v = VStr cell /\ cell ∈ row)
                   (dict_zip fieldnames row)).
  { apply zip_values; [apply map_Forall_empty|].
    apply Forall_forall. intros [k' cell] Hin. exists cell. split; [reflexivity|].
    by apply elem_of_zip_r in Hin. }
  exact (Hall k v H).
Qed.

Lemma elem_of_drop_inv {A} n (l : list A) x : x ∈ drop n l -> x ∈ l.
Proof.
  revert n. induction l as [|y l IH]; intros [|n] H; try done.
  right. exact (IH n H).
Qed.

Lemma drop_past {A} (pre : list A) k post x : forall n,
  (length pre < n)%nat -> x ∈ drop n (pre ++ k :: post) -> x ∈ post.
Proof.
  induction pre as [|a pre IH]; intros [|n] Hn; cbn [length app drop] in *; try lia.
  - apply elem_of_drop_inv.
  - apply IH. lia.
Qed.

Lemma zip_lookup_cell k post cell : forall pre row (d : record),
  k ∉ post -> row !! length pre = Some cell ->
  foldl (fun d kv => <[kv.1 := VStr kv.2]> d) d (zip (pre ++ k :: post) row) !! k
  = Some (VStr cell).
Proof.
  induction pre as [|a pre IH]; intros [|c row] d Hpost Hcell; try discriminate.
  - injection Hcell as ->. cbn [app zip_with foldl fst snd]. rewrite zip_lookup_notin.
    + apply lookup_insert_eq.
    + intros v Hv. apply Hpost. by apply elem_of_zip_l in Hv.
  - cbn [app zip_with foldl]. by apply IH.
Qed.

(** The cell of a column whose name is not repeated after it. *)
Lemma next_cell pre k post row cell :
  k ∉ post -> row !! length pre = Some cell ->
  next (pre ++ k :: post) row !! k = Some (VStr cell).
Proof.
  intros Hpost Hcell. unfold next, dict_zip.
  assert (Hlen : (length pre < length row)%nat) by (by eapply lookup_lt_Some).
  rewrite fill_lookup, decide_False.
  - by apply zip_lookup_cell.
  - intros Hin. apply Hpost. by eapply drop_past.
Qed.

(** A column the row does not reach holds [None]. *)
Lemma next_short pre k post row :
  (length row <= length pre)%nat -> next (pre ++ k :: post) row !! k = Some VNone.
Proof.
  intros Hlen. unfold next. rewrite fill_lookup, decide_True; [reflexivity|].
  rewrite drop_app_le by exact Hlen. apply elem_of_app. right. left.
Qed.

End reader_facts.

(** ** Rows of cells *)

(** An object [csv.DictReader] puts in a row, [None] or a [str], here of
    XML characters. *)
Definition cell_ok (v : pyval) : bool :=
  match v with
  | VNone => true
  | VStr s => forallb is_char s
  | VInt _ => false
  end.

Definition field_cell_ok (d : record) (k : str) : bool :=
  match d !! k with
  | Some v => cell_ok v
  | None => true
  end.

(** Every field the mapper reads is absent, [None] or a [str] of XML
    characters. *)
Definition cells_ok (d : record) : bool := forallb (field_cell_ok d) mapped_fields.

Lemma cell_text_ok d k dflt :
  field_cell_ok d k = true -> forallb is_char dflt = true ->
  text_ok (get_or d k (VStr dflt)) = true /\ text_ok (get d k) = true.
Proof.
  unfold field_cell_ok, get_or, get. destruct (d !! k) as [[|z|s]|]; try discriminate; by cbn.
Qed.

Lemma cell_name d k :
  field_cell_ok d k = true ->
  get_or d k (VStr []) = VNone
  \/ exists s, get_or d k (VStr []) = VStr s /\ forallb is_char s = true.
Proof.
  unfold field_cell_ok, get_or. destruct (d !! k) as [[|z|s]|]; try discriminate; cbn; eauto.
Qed.

Lemma cells_ok_accepted d : cells_ok d = true -> accepted d = true.
Proof.
  unfold cells_ok, mapped_fields. cbn [forallb]. intros H. split_andb.
  unfold accepted.
  destruct (cell_text_ok d (lit "Company") (lit "N/A")) as [-> _]; [assumption|reflexivity|].
  destruct (cell_text_ok d (lit "Phone 1") (lit "N/A")) as [-> _]; [assumption|reflexivity|].
  destruct (cell_text_ok d (lit "Phone 2") (lit "N/A")) as [_ ->]; [assumption|reflexivity|].
  destruct (cell_text_ok d (lit "City") (lit "N/A")) as [-> _]; [assumption|reflexivity|].
  destruct (cell_text_ok d (lit "Country") (lit "N/A")) as [-> _]; [assumption|reflexivity|].
  rewrite !andb_true_r. apply andb_true_iff. split.
  - unfold contact_name_str. change (lit " ") with [SP].
    destruct (cell_name d (lit "First Name")) as [->|(f & -> & Hf)]; [assumption| |];
      (destruct (cell_name d (lit "Last Name")) as [->|(l & -> & Hl)]; [assumption| |]);
      try destruct f as [|a f]; try destruct l as [|b l];
      cbn [List.filter truthy join bind]; apply strip_forallb;
      rewrite ?forallb_app; cbn [forallb] in *; rewrite ?Hf, ?Hl; reflexivity.
  - match goal with
    | H : field_cell_ok d (lit "Customer Id") = true |- _ =>
        unfold field_cell_ok in H; unfold get;
        destruct (d !! lit "Customer Id") as [[|z|[|c s]]|]; try discriminate; try reflexivity
    end.
    cbn [default truthy negb orb py_str]. assumption.
Qed.

Lemma cells_ok_same_fields d d' : same_mapped_fields d d' -> cells_ok d = cells_ok d'.
Proof.
  unfold same_mapped_fields, cells_ok. intros H. induction H as [|k ks Hk _ IH]; [reflexivity|].
  cbn [forallb]. unfold field_cell_ok at 1 3. by rewrite Hk, IH.
Qed.

Lemma cells_ok_all rs :
  Forall (fun d => cells_ok d = true) rs -> forallb accepted rs = true.
Proof.
  induction 1 as [|d rs Hd _ IH]; [reflexivity|]. cbn [forallb].
  by rewrite (cells_ok_accepted d Hd), IH.
Qed.

(** The rows of a file whose cells hold XML characters only. *)
Lemma reader_cells_ok fieldnames lines :
  Forall (Forall (fun cell => forallb is_char cell = true)) lines ->
  Forall (fun d => cells_ok d = true) (DictReader.rows (fieldnames :: lines)).
Proof.
  intros Hlines. unfold DictReader.rows. apply Forall_map.
  apply Forall_forall. intros row Hrow. cbv beta.
  apply list_elem_of_In, filter_In in Hrow as [Hrow _]. apply list_elem_of_In in Hrow.
  pose proof (proj1 (Forall_forall _ _) Hlines row Hrow) as Hcells.
  unfold cells_ok. apply forallb_forall. intros k _. unfold field_cell_ok.
  destruct (DictReader.next fieldnames row !! k) as [v|] eqn:Hv; [|reflexivity].
  destruct (reader_facts.next_values _ _ _ _ Hv) as [->|(cell & -> & Hcell)]; [reflexivity|].
  exact (proj1 (Forall_forall _ _) Hcells cell Hcell).
Qed.

(** ** The driver on the rows of a reader *)

Section ReaderRules.

Variable int_of_str : str -> option Z.
Variable json_dumps : list record -> str.
Variable path_join : str -> str -> str.

Lemma coerced_same_fields row kept :
  coerced int_of_str row = Some kept -> same_mapped_fields kept row.
Proof.
  unfold coerced. destruct (row !! lit "Index") as [[|z|s]|]; try discriminate.
  destruct (int_of_str s) as [z|]; [|discriminate]. intros [= <-].
  unfold same_mapped_fields, mapped_fields.
  repeat constructor; apply lookup_insert_ne; vm_compute; intros [=].
Qed.

Lemma surviving_same_fields rows :
  Forall2 same_mapped_fields (surviving int_of_str rows)
    (List.filter (fun row => bool_decide (is_Some (coerced int_of_str row))) rows).
Proof.
  induction rows as [|row rows IH]; [constructor|].
  rewrite surviving_cons. cbn [List.filter].
  destruct (coerced int_of_str row) as [kept|] eqn:Hc; [|exact IH].
  cbn. constructor; [by apply coerced_same_fields | exact IH].
Qed.

Lemma surviving_cells_ok rows :
  Forall (fun d => cells_ok d = true) rows ->
  Forall (fun d => cells_ok d = true) (surviving int_of_str rows).
Proof.
  induction 1 as [|row rows Hrow _ IH]; [constructor|].
  rewrite surviving_cons. destruct (coerced int_of_str row) as [kept|] eqn:Hc; [|exact IH].
  constructor; [|exact IH]. by rewrite (cells_ok_same_fields _ _ (coerced_same_fields _ _ Hc)).
Qed.

Lemma read_rows_app l1 l2 : forall customers_list,
  Forall has_str_index l1 ->
  read_rows int_of_str (l1 ++ l2) customers_list
  = let '(printed, read) :=
      read_rows int_of_str l2 (customers_list ++ surviving int_of_str l1) in
    (warnings int_of_str l1 ++ printed, read).
Proof.
  intros acc H. revert acc. induction H as [|row rows (s & Hs) _ IH]; intros acc.
  - cbn [app]. change (surviving int_of_str []) with (@nil record).
    rewrite app_nil_r. by destruct (read_rows int_of_str l2 acc).
  - destruct (coerced_str int_of_str row s Hs) as [Hc Hg].
    cbn [app read_rows]. rewrite surviving_cons, warnings_cons, Hc, Hg, Hs. cbn [int].
    destruct (int_of_str s) as [z|].
    + rewrite IH. cbn [app]. by rewrite <- app_assoc.
    + rewrite IH. cbn [app].
      by destruct (read_rows int_of_str l2 (acc ++ surviving int_of_str rows)).
Qed.

Lemma reader_rows_app fieldnames l1 l2 :
  DictReader.rows (fieldnames :: l1 ++ l2)
  = DictReader.rows (fieldnames :: l1) ++ DictReader.rows (fieldnames :: l2).
Proof. unfold DictReader.rows. by rewrite List.filter_app, map_app. Qed.

(** The rows of a file with an "Index" column that every line reaches. *)
Lemma reader_str_index pre post lines :
  lit "Index" ∉ post ->
  Forall (fun row => row = [] \/ (length pre < length row)%nat) lines ->
  Forall has_str_index (DictReader.rows ((pre ++ lit "Index" :: post) :: lines)).
Proof.
  intros Hpost Hlines. unfold DictReader.rows. apply Forall_map.
  apply Forall_forall. intros row Hrow. cbv beta.
  apply list_elem_of_In, filter_In in Hrow as [Hrow Hne]. apply list_elem_of_In in Hrow.
  destruct (proj1 (Forall_forall _ _) Hlines row Hrow) as [->|Hlen]; [done|].
  destruct (lookup_lt_is_Some_2 row (length pre) Hlen) as (cell & Hcell).
  exists cell. by apply reader_facts.next_cell.
Qed.

End ReaderRules.

(** ** Properties of the mapper beyond the specification *)

(** X1: [json_to_xml] reads a record through eight keys only ("Customer
    Id", "Company", "First Name", "Last Name", "Phone 1", "Phone 2", "City",
    "Country"): two lists of records that agree on them give the same
    result, the same document or the same exception, whatever else the
    records hold. *)
Theorem mapper_reads_eight_fields rs rs' :
  Forall2 same_mapped_fields rs rs' -> json_to_xml rs = json_to_xml rs'.
Proof.
  intros H. unfold json_to_xml, root_element.
  by rewrite (customers_same_fields rs rs' H).
Qed.

Lemma mapper_reads_eight_fields_witness :
  json_to_xml [<[lit "Index" := VInt 1]> (<[lit "Email" := VStr (lit "a@b")]> row_1)]
  = json_to_xml [row_1].
Proof.
  apply mapper_reads_eight_fields. repeat constructor; vm_compute; reflexivity.
Defined.

(** X2: [json_to_xml] returns exactly on the lists of accepted records:
    the two names can be joined, and the contact name, the texts that are
    written and the customer id hold XML characters only. A falsy object
    ([None], [0], the empty string) is accepted in every field. *)
Theorem json_to_xml_returns_iff rs :
  (exists out, json_to_xml rs = Ok out) <-> forallb accepted rs = true.
Proof.
  rewrite accepted_all. split.
  - intros (out & Hout). destruct (json_to_xml_inv rs out Hout) as (es & Hes & Hser & _).
    eauto.
  - intros (es & Hes & Hser). eexists. exact (json_to_xml_ok rs es Hes Hser).
Qed.

(** A row as [csv.DictReader] yields it for a short line: the cells the
    line lacks are [None]. *)
Definition short_row : record :=
  {[ lit "Customer Id" := VStr (lit "ALFKI"); lit "First Name" := VStr (lit "Maria");
     lit "Last Name" := VNone; lit "Company" := VNone; lit "Phone 2" := VNone ]}.

(** X3: rows whose mapped fields are absent, [None] or strings of XML
    characters, as [csv.DictReader] yields them for a file of such
    characters, are mapped: [json_to_xml] returns a document with one
    [Customer] per row. *)
Theorem rows_of_cells_are_mapped rs :
  Forall (fun d => cells_ok d = true) rs ->
  exists out, json_to_xml rs = Ok out /\ length (read.customers_of out) = length rs.
Proof.
  intros H. destruct (proj2 (json_to_xml_accepts rs) (cells_ok_all rs H)) as (out & Hout).
  exists out. split; [exact Hout|].
  by rewrite (customers_of_output rs out Hout), length_map.
Qed.

Lemma rows_of_cells_are_mapped_witness :
  exists out, json_to_xml [short_row; maria_anders] = Ok out
    /\ length (read.customers_of out) = 2%nat.
Proof.
  apply (rows_of_cells_are_mapped [short_row; maria_anders]).
  repeat constructor; vm_compute; reflexivity.
Defined.

(** X4: [json_to_xml] raises [TypeError] exactly when one of the two
    names or of the five texts of some record is a truthy object that is not
    a [str] (a number other than zero); whatever else it raises comes from
    [minidom.parseString] and is [UnicodeEncodeError] or [ExpatError]. No
    missing key makes it raise. *)
Theorem json_to_xml_type_error rs :
  (json_to_xml rs = Raise TypeError <-> existsb wrong_type rs = true)
  /\ forall e, json_to_xml rs = Raise e ->
       e = TypeError \/ e = UnicodeEncodeError \/ e = ExpatError.
Proof.
  split; [apply json_to_xml_raises_type_error|].
  intros e. destruct (existsb wrong_type rs) eqn:Hwrong.
  { rewrite (proj2 (json_to_xml_raises_type_error rs) Hwrong). intros [= <-]. by left. }
  unfold json_to_xml, root_element.
  rewrite existsb_wrong_type in Hwrong. apply orb_false_iff in Hwrong as [Hnames Htexts].
  pose proof (customers_raises rs (ET.Element (lit "Customers"))) as Hloop.
  rewrite Hnames in Hloop. destruct Hloop as (tree & ->). cbn [bind].
  destruct (ET.tostring tree) as [s|x] eqn:Hts; cbn [bind].
  - unfold parseString. destruct (existsb is_surrogate s); [intros [= <-]; eauto|].
    destruct (parse s); cbn [bind]; [discriminate | intros [= <-]; eauto].
  - intros [= <-]. pose proof (serialize_writable tree) as Hser. unfold ET.tostring in Hts.
    destruct (writable tree); [destruct Hser as (s & Hs); congruence|].
    left. congruence.
Qed.




(** X6: for two names that are strings, the contact name is the one the
    test suite expects (line 89: the two names around a space, stripped),
    unless that is empty; the mapper then writes "N/A", and the test's
    comparison would fail. *)
Theorem contact_name_as_the_test_expects d :
  str_or_absent d (lit "First Name") -> str_or_absent d (lit "Last Name") ->
  exists e,
    customer d = Ok e
    /\ (test_customer_mapper.expected_contact_name d <> [] ->
        child_text e (lit "ContactName")
        = Some (VStr (test_customer_mapper.expected_contact_name d)))
    /\ (test_customer_mapper.expected_contact_name d = [] ->
        child_text e (lit "ContactName") = Some (VStr (lit "N/A"))).
Proof.
  intros Hf Hl. pose proof (contact_name_expected d Hf Hl) as Hname.
  assert (exists e, customer d = Ok e) as (e & He).
  { unfold customer. rewrite Hname. cbn [bind]. eauto. }
  exists e. split; [exact He|].
  destruct (contact_name_text d e He) as (name & Hname' & ->).
  rewrite Hname in Hname'. injection Hname' as <-.
  destruct (test_customer_mapper.expected_contact_name d) as [|c s]; cbn [truthy].
  - split; [done | reflexivity].
  - split; [reflexivity | discriminate].
Qed.

Lemma contact_name_as_the_test_expects_witness :
  exists e,
    customer maria_anders = Ok e
    /\ child_text e (lit "ContactName") = Some (VStr (lit "Maria Anders")).
Proof.
  destruct (contact_name_as_the_test_expects maria_anders) as (e & He & Hname & _);
    [right; eexists; vm_compute; reflexivity..|].
  exists e. split; [exact He|]. apply Hname. vm_compute. discriminate.
Defined.

(** X7: the [CustomerID] attribute a parser reads from the output is
    [str] of the "Customer Id" with a space for every tab, line feed and
    carriage return (CR LF gives one space); a non-empty string without
    these characters is read back as it is. *)
Theorem customer_id_round_trip rs out :
  json_to_xml rs = Ok out -> Forall2 customer_id_read_back rs (read.customers_of out).
Proof.
  apply output_forall2. intros d name _. apply customer_node_id.
Qed.

(** A customer id with a tab in it. *)
Definition tabbed_id : record := {[ lit "Customer Id" := VStr (lit "A" ++ [TAB] ++ lit "B") ]}.

Lemma customer_id_round_trip_witness :
  exists out,
    json_to_xml [with_id; tabbed_id] = Ok out
    /\ Forall2 customer_id_read_back [with_id; tabbed_id] (read.customers_of out)
    /\ map (fun c => read.get c (lit "CustomerID")) (read.customers_of out)
       = [Some (lit "ALFKI"); Some (lit "A B")].
Proof.
  eexists. split; [vm_compute; reflexivity|]. split; [|vm_compute; reflexivity].
  apply customer_id_round_trip. vm_compute. reflexivity.
Defined.

(** X8: in the output the children of every [Customer] come in the order
    CompanyName, ContactName, ContactTitle, Phone, Fax (when "Phone 2" is
    truthy), FullAddress, and those of FullAddress in the order Address,
    City, Region, PostalCode, Country. *)
Theorem elements_in_schema_order rs out :
  json_to_xml rs = Ok out -> Forall2 in_schema_order rs (read.customers_of out).
Proof.
  apply output_forall2. intros d name _. apply customer_node_order.
Qed.

Lemma elements_in_schema_order_witness :
  exists out, json_to_xml [with_id; short_row] = Ok out
    /\ Forall2 in_schema_order [with_id; short_row] (read.customers_of out).
Proof.
  eexists. split; [vm_compute; reflexivity|].
  apply elements_in_schema_order. vm_compute. reflexivity.
Defined.

(** X9: the mapper works record by record: it returns on a list exactly
    when it returns on each part of it, and the [Customer] elements of the
    document for [rs1 ++ rs2] are those of the document for [rs1] followed
    by those of the document for [rs2]. *)
Theorem json_to_xml_app rs1 rs2 :
  ((exists out, json_to_xml (rs1 ++ rs2) = Ok out)
   <-> (exists out1, json_to_xml rs1 = Ok out1) /\ (exists out2, json_to_xml rs2 = Ok out2))
  /\ forall out out1 out2,
       json_to_xml (rs1 ++ rs2) = Ok out ->
       json_to_xml rs1 = Ok out1 -> json_to_xml rs2 = Ok out2 ->
       read.customers_of out = read.customers_of out1 ++ read.customers_of out2.
Proof.
  split.
  - rewrite !json_to_xml_accepts, forallb_app. apply andb_true_iff.
  - intros out out1 out2 H H1 H2.
    rewrite (customers_of_output _ _ H), (customers_of_output _ _ H1),
      (customers_of_output _ _ H2).
    apply map_app.
Qed.

Lemma json_to_xml_app_witness :
  exists out out1 out2,
    json_to_xml ([with_id] ++ [short_row]) = Ok out
    /\ json_to_xml [with_id] = Ok out1 /\ json_to_xml [short_row] = Ok out2
    /\ read.customers_of out = read.customers_of out1 ++ read.customers_of out2.
Proof.
  do 3 eexists. split; [vm_compute; reflexivity|]. split; [vm_compute; reflexivity|].
  split; [vm_compute; reflexivity|].
  apply (proj2 (json_to_xml_app [with_id] [short_row])); vm_compute; reflexivity.
Defined.

(** X10: the document [json_to_xml] returns, stripped, starts with
    "<?xml"; for at least one record it ends with "</Customers>", and for no
    record with "<Customers/>" (what the test suite asserts at lines 65-67
    and allows for at lines 110-111). *)
Theorem output_starts_and_ends rs out :
  json_to_xml rs = Ok out ->
  startswith (strip out) (lit "<?xml") = true
  /\ (rs <> [] -> endswith (strip out) (lit "</Customers>") = true)
  /\ (rs = [] -> endswith (strip out) (lit "<Customers/>") = true).
Proof.
  intros Hout. destruct (json_to_xml_inv rs out Hout) as (es & Hes & _ & -> & _).
  destruct Hes as [|d e rs es He Hes].
  - split; [vm_compute; reflexivity|]. split; [done|]. intros _. vm_compute. reflexivity.
  - rewrite document_text.
    change (lit "<?xml") with (LT :: lit "?xml").
    change (lit "</Customers>") with (lit "</Customers" ++ [GT]).
    rewrite strip_line by reflexivity.
    split; [apply (startswith_app (LT :: lit "?xml"))|]. split; [|done]. intros _.
    rewrite !app_assoc. rewrite <- (app_assoc _ (lit "</Customers") [GT]).
    apply endswith_app.
Qed.

Lemma output_starts_and_ends_witness :
  exists out, json_to_xml [with_id] = Ok out
    /\ startswith (strip out) (lit "<?xml") = true
    /\ endswith (strip out) (lit "</Customers>") = true.
Proof.
  eexists. split; [vm_compute; reflexivity|].
  destruct (output_starts_and_ends [with_id] _ eq_refl) as (H1 & H2 & _).
  split; [exact H1 | by apply H2].
Defined.

(** X20: on a tree with well-formed names, [ET.tostring] followed by
    [minidom.parseString] (lines 61-62) returns exactly when every attribute
    value and every text that is written is a [str] of XML characters, and
    it then returns the same tree: the same tags, attributes and texts, with
    line ends normalized. *)
Theorem reparse_is_lossless e :
  names_ok e = true ->
  ((exists s d, ET.tostring e = Ok s /\ parseString s = Ok d) <-> serializable e = true)
  /\ forall s d, ET.tostring e = Ok s -> parseString s = Ok d -> d = to_dom e.
Proof.
  intros Hnames. split; [split|].
  - intros (s & d & Hs & Hd). exact (proj1 (parse_tostring_inv e s d Hnames Hs Hd)).
  - intros Hser. destruct (parse_tostring e Hser) as (s & Hs & _ & Hd). eauto.
  - intros s d Hs Hd. exact (proj2 (parse_tostring_inv e s d Hnames Hs Hd)).
Qed.

(** An element with an attribute and a text that need escaping. *)
Definition escaped_element : ET.element :=
  ET.Elem (lit "a") [(lit "k", lit "1 < 2")] (VStr (lit "x & y")) [].

Lemma reparse_is_lossless_witness :
  exists s, ET.tostring escaped_element = Ok s
    /\ parseString s = Ok (Element (lit "a") [(lit "k", lit "1 < 2")] [Text (lit "x & y")]).
Proof.
  destruct (reparse_is_lossless escaped_element eq_refl) as [[_ H] Hdom].
  destruct (H eq_refl) as (s & d & Hs & Hd). exists s. split; [exact Hs|].
  rewrite Hd. f_equal. exact (Hdom s d Hs Hd).
Defined.

(** ** Properties of the driver beyond the specification *)

Section DriverExtras.

Variable int_of_str : str -> option Z.
Variable json_dumps : list record -> str.
Variable path_join : str -> str -> str.

Lemma warnings_write_nothing rows :
  files_written (warnings int_of_str rows) = [] /\ dirs_made (warnings int_of_str rows) = [].
Proof.
  apply prints_write_nothing. unfold warnings.
  induction rows as [|row rows IH]; [reflexivity|]. cbn [flat_map].
  rewrite forallb_app, IH. by destruct (coerced int_of_str row).
Qed.

(** X11: whatever the file holds and whatever fails, the files a run
    writes to the end are none, or the JSON file, or the JSON file and then
    the XML file, in [output_dir] under the two names of the run; what it
    writes is [json.dumps] of the rows collected and the mapping of the same
    rows. It writes only after the whole file has been read without an
    exception and some row has been collected, and [os.makedirs] is called
    on [output_dir] only, and only when [os.path.exists] is false for it. *)
Theorem files_of_a_run csv_filepath json_schema_filepath output_dir w events raised :
  csv_to_json_and_xml int_of_str json_dumps path_join
    csv_filepath json_schema_filepath output_dir w = (events, raised) ->
  (dirs_made events = [] \/ dir_exists w = false /\ dirs_made events = [output_dir])
  /\ (files_written events = []
      \/ exists rows printed customers_list,
           csv w = Rows rows None
           /\ read_rows int_of_str rows [] = (printed, Ok customers_list)
           /\ customers_list <> [] /\ raised = None
           /\ (files_written events
               = [(source_json_filepath path_join output_dir w, json_dumps customers_list)]
               \/ exists xml_output,
                    json_to_xml customers_list = Ok xml_output
                    /\ files_written events
                       = [(source_json_filepath path_join output_dir w,
                           json_dumps customers_list);
                          (target_xml_filepath path_join output_dir w, xml_output)])).
Proof.
  intros Hrun.
  destruct (run_files _ _ _ _ _ _ _ _ _ Hrun)
    as [(Hf & Hd & _)|(rows & printed & l & written & Hcsv & Hread & Hne & Hw & Hf & Hd)].
  { split; by left. }
  destruct (write_outputs_files _ _ _ _ _ _ _ Hw) as (Hfiles & Hdirs & Hraise).
  rewrite Hf, Hd. split; [exact Hdirs|].
  destruct Hfiles as [Hnone|Hsome]; [by left|]. right. exists rows, printed, l.
  split; [exact Hcsv|]. split; [exact Hread|]. split; [exact Hne|]. split; [|exact Hsome].
  destruct raised as [e|]; [|reflexivity].
  destruct (Hraise e eq_refl) as (_ & _ & ->).
  destruct Hsome as [Hj|(xml_output & _ & Hx)]; discriminate.
Qed.

(** X12: the only exception that leaves [csv_to_json_and_xml] is the one
    [os.makedirs] raises: every failure of reading, of writing the JSON
    file, of mapping and of writing the XML file is caught and printed. A
    run that raises has read the file to its end, has collected a row, and
    has written no file. *)
Theorem only_makedirs_raises csv_filepath json_schema_filepath output_dir w events e :
  csv_to_json_and_xml int_of_str json_dumps path_join
    csv_filepath json_schema_filepath output_dir w = (events, Some e) ->
  dir_exists w = false /\ makedirs_error w = Some e
  /\ files_written events = [] /\ dirs_made events = []
  /\ exists rows printed customers_list,
       csv w = Rows rows None
       /\ read_rows int_of_str rows [] = (printed, Ok customers_list)
       /\ customers_list <> [].
Proof.
  intros Hrun.
  destruct (run_files _ _ _ _ _ _ _ _ _ Hrun)
    as [(_ & _ & [=])|(rows & printed & l & written & Hcsv & Hread & Hne & Hw & Hf & Hd)].
  destruct (write_outputs_files _ _ _ _ _ _ _ Hw) as (_ & _ & Hraise).
  destruct (Hraise e eq_refl) as (Hdir & Hmk & ->).
  rewrite Hf, Hd. repeat split; try assumption. by exists rows, printed, l.
Qed.

(** X13: when the mapper raises (on a control character in a company
    name, say), the JSON file has been written and stays; the run prints the
    error, writes no XML file and returns normally. *)
Theorem mapper_failure_keeps_json rows w csv_filepath json_schema_filepath output_dir e :
  Forall has_str_index rows -> csv w = Rows rows None ->
  dir_exists w = true \/ makedirs_error w = None ->
  json_write_error w = None ->
  json_to_xml (surviving int_of_str rows) = Raise e ->
  exists before,
    csv_to_json_and_xml int_of_str json_dumps path_join
      csv_filepath json_schema_filepath output_dir w
    = (before
       ++ [WriteFile (source_json_filepath path_join output_dir w)
             (json_dumps (surviving int_of_str rows));
           Print (JsonWritten (source_json_filepath path_join output_dir w));
           Print (XmlError e)], None)
    /\ files_written before = [].
Proof.
  intros Hrows Hcsv Hdir Hjson Hraise.
  rewrite (driver_spec int_of_str json_dumps path_join rows w _ _ _ Hrows Hcsv).
  destruct (surviving int_of_str rows) as [|r l] eqn:Hs; [discriminate|].
  unfold write_outputs, write_json, write_xml. rewrite Hjson, Hraise.
  destruct (warnings_write_nothing rows) as [Hwf _].
  destruct (dir_exists w).
  - exists (warnings int_of_str rows). by split.
  - destruct Hdir as [[=]| ->].
    exists (warnings int_of_str rows ++ [MakeDirs output_dir; Print (CreatedDir output_dir)]).
    split; [by rewrite <- app_assoc|]. by rewrite files_written_app, Hwf.
Qed.


(** X15: the conversion of "Index" to an integer (line 19) does not show
    in the XML: the mapping of the rows collected is the mapping of the same
    rows as the reader yields them, as the test suite maps them. *)
Theorem index_coercion_is_invisible rows :
  json_to_xml (surviving int_of_str rows)
  = json_to_xml (List.filter (fun row => bool_decide (is_Some (coerced int_of_str row))) rows).
Proof.
  unfold json_to_xml, root_element.
  by rewrite (customers_same_fields _ _ (surviving_same_fields int_of_str rows)).
Qed.

(** X17: when the header has no "Index" column, the first line that is
    not empty ends the run: [row['Index']] raises [KeyError], which only the
    outer handler catches; the run prints the error and writes nothing. *)
Theorem missing_index_column fieldnames lines failure w
    csv_filepath json_schema_filepath output_dir :
  lit "Index" ∉ fieldnames -> Exists (fun row => row <> []) lines ->
  csv w = Rows (DictReader.rows (fieldnames :: lines)) failure ->
  csv_to_json_and_xml int_of_str json_dumps path_join
    csv_filepath json_schema_filepath output_dir w
  = ([Print (CsvError KeyError)], None).
Proof.
  intros Hindex Hlines Hcsv. unfold csv_to_json_and_xml. rewrite Hcsv.
  assert (exists row rest, DictReader.rows (fieldnames :: lines)
                           = DictReader.next fieldnames row :: rest) as (row & rest & ->).
  { clear Hcsv. unfold DictReader.rows. induction Hlines as [row lines Hrow|row lines _ IH].
    - cbn [List.filter]. rewrite bool_decide_false by exact Hrow. cbn. eauto.
    - cbn [List.filter]. destruct (bool_decide (row = [])); cbn; [exact IH | eauto]. }
  cbn [read_rows].
  assert (DictReader.next fieldnames row !! lit "Index" = None) as ->; [|reflexivity].
  apply eq_None_not_Some. by rewrite reader_facts.next_keys.
Qed.

(** X18: with an "Index" column, a line that is not empty and does not
    reach it ends the run: its "Index" is [None], [int(None)] raises
    [TypeError], and the rows collected before it are dropped; the run
    prints the warnings of the lines before, then the error, and writes
    nothing. *)
Theorem short_line_aborts pre post good short rest failure w
    csv_filepath json_schema_filepath output_dir :
  lit "Index" ∉ post ->
  Forall (fun row => row = [] \/ (length pre < length row)%nat) good ->
  short <> [] -> (length short <= length pre)%nat ->
  csv w = Rows (DictReader.rows ((pre ++ lit "Index" :: post) :: good ++ short :: rest))
            failure ->
  csv_to_json_and_xml int_of_str json_dumps path_join
    csv_filepath json_schema_filepath output_dir w
  = (warnings int_of_str (DictReader.rows ((pre ++ lit "Index" :: post) :: good))
     ++ [Print (CsvError TypeError)], None).
Proof.
  intros Hpost Hgood Hne Hlen Hcsv. unfold csv_to_json_and_xml. rewrite Hcsv.
  rewrite reader_rows_app, (read_rows_app int_of_str) by (by apply reader_str_index).
  assert (DictReader.rows ((pre ++ lit "Index" :: post) :: short :: rest)
          = DictReader.next (pre ++ lit "Index" :: post) short
            :: DictReader.rows ((pre ++ lit "Index" :: post) :: rest)) as ->.
  { unfold DictReader.rows. cbn [List.filter]. by rewrite bool_decide_false by exact Hne. }
  cbn [read_rows]. rewrite (reader_facts.next_short pre _ post short Hlen). cbn [int].
  by rewrite app_nil_r.
Qed.

(** X19: a file with an "Index" column that every line reaches and with
    XML characters only in its cells is converted, if a row is collected and
    the directory and the two files can be written: the run writes the JSON
    file and then the XML file, raises nothing, and the XML document holds
    one [Customer] per row collected. *)
Theorem well_formed_file_is_converted pre post lines w
    csv_filepath json_schema_filepath output_dir :
  let rows := DictReader.rows ((pre ++ lit "Index" :: post) :: lines) in
  lit "Index" ∉ post ->
  Forall (fun row => row = [] \/ (length pre < length row)%nat) lines ->
  Forall (Forall (fun cell => forallb is_char cell = true)) lines ->
  csv w = Rows rows None -> surviving int_of_str rows <> [] ->
  dir_exists w = true \/ makedirs_error w = None ->
  json_write_error w = None -> xml_write_error w = None ->
  exists events xml_output,
    csv_to_json_and_xml int_of_str json_dumps path_join
      csv_filepath json_schema_filepath output_dir w = (events, None)
    /\ json_to_xml (surviving int_of_str rows) = Ok xml_output
    /\ files_written events
       = [(source_json_filepath path_join output_dir w,
           json_dumps (surviving int_of_str rows));
          (target_xml_filepath path_join output_dir w, xml_output)]
    /\ length (read.customers_of xml_output) = length (surviving int_of_str rows).
Proof.
  intros rows Hpost Hreach Hcells Hcsv Hne Hdir Hjson Hxml.
  assert (Hstr : Forall has_str_index rows) by (by apply reader_str_index).
  assert (Hok : Forall (fun d => cells_ok d = true) (surviving int_of_str rows)).
  { apply surviving_cells_ok. by apply reader_cells_ok. }
  destruct (proj2 (json_to_xml_accepts _) (cells_ok_all _ Hok)) as (xml_output & Hout).
  rewrite (driver_spec int_of_str json_dumps path_join rows w _ _ _ Hstr Hcsv).
  destruct (warnings_write_nothing rows) as [Hwf _].
  assert (Hlen : length (read.customers_of xml_output)
                 = length (surviving int_of_str rows)).
  { by rewrite (customers_of_output _ _ Hout), length_map. }
  destruct (surviving int_of_str rows) as [|r l] eqn:Hs; [done|].
  unfold write_outputs, write_json, write_xml. rewrite Hjson, Hxml, Hout.
  destruct (dir_exists w).
  - eexists _, xml_output. split; [reflexivity|]. split; [reflexivity|].
    split; [|exact Hlen]. by rewrite files_written_app, Hwf.
  - destruct Hdir as [[=]| ->]. eexists _, xml_output.
    split; [reflexivity|]. split; [reflexivity|].
    split; [|exact Hlen]. by rewrite files_written_app, Hwf.
Qed.

End DriverExtras.

(** X16: the [str] keys of a row of the reader are exactly the columns
    of the header: a column holds a cell of the line, or [None] when the
    line does not reach it. So [dict.get] never falls back on its default
    for a column of the file: the mapper uses its default "N/A" for a field
    only when the file has no such column. *)
Theorem header_decides_the_keys fieldnames lines row k :
  row ∈ DictReader.rows (fieldnames :: lines) ->
  (is_Some (row !! k) <-> k ∈ fieldnames)
  /\ (forall v, row !! k = Some v -> v = VNone \/ exists cell, v = VStr cell)
  /\ (k ∈ fieldnames -> forall dflt, get_or row k dflt = get row k).
Proof.
  unfold DictReader.rows. intros Hrow.
  apply list_elem_of_In, in_map_iff in Hrow as (line & <- & _).
  pose proof (reader_facts.next_keys fieldnames line k) as Hkeys.
  split; [exact Hkeys|]. split.
  - intros v Hv. destruct (reader_facts.next_values _ _ _ _ Hv) as [->|(cell & -> & _)]; eauto.
  - intros Hk dflt. apply Hkeys in Hk as (v & Hv). unfold get_or, get. by rewrite Hv.
Qed.

(** Runs for the examples: a file of two rows of which one has no integer
    for an index; the same with a directory that cannot be made; a file
    with a control character in a company name. *)
Definition world_two_rows : world :=
  World (Rows [row_x; row_1] None) (lit "20240101120000") false None None None.

Definition world_no_directory : world :=
  World (Rows [row_x; row_1] None) (lit "20240101120000") false (Some OSError) None None.

Definition row_control : record :=
  {[ lit "Index" := VStr (lit "1"); lit "Company" := VStr [1] ]}.

Definition world_control : world :=
  World (Rows [row_control] None) (lit "20240101120000") true None None None.

Lemma files_of_a_run_witness :
  exists events,
    csv_to_json_and_xml ascii_decimal no_json posix_join
      (lit "customers.csv") (lit "schema.json") (lit "out") world_two_rows = (events, None)
    /\ (dirs_made events = []
        \/ dir_exists world_two_rows = false /\ dirs_made events = [lit "out"]).
Proof.
  eexists. split; [vm_compute; reflexivity|].
  eapply proj1, (files_of_a_run ascii_decimal no_json posix_join
                   (lit "customers.csv") (lit "schema.json")).
  vm_compute. reflexivity.
Defined.

Lemma only_makedirs_raises_witness :
  exists events,
    csv_to_json_and_xml ascii_decimal no_json posix_join
      (lit "customers.csv") (lit "schema.json") (lit "out") world_no_directory
    = (events, Some OSError)
    /\ files_written events = [] /\ dirs_made events = [].
Proof.
  eexists. split; [vm_compute; reflexivity|].
  destruct (only_makedirs_raises ascii_decimal no_json posix_join
              (lit "customers.csv") (lit "schema.json") (lit "out") world_no_directory
              _ OSError eq_refl) as (_ & _ & Hf & Hd & _).
  split; [exact Hf | exact Hd].
Defined.

Lemma mapper_failure_keeps_json_witness :
  exists before,
    csv_to_json_and_xml ascii_decimal no_json posix_join
      (lit "customers.csv") (lit "schema.json") (lit "out") world_control
    = (before
       ++ [WriteFile (source_json_filepath posix_join (lit "out") world_control)
             (no_json (surviving ascii_decimal [row_control]));
           Print (JsonWritten (source_json_filepath posix_join (lit "out") world_control));
           Print (XmlError ExpatError)], None)
    /\ files_written before = [].
Proof.
  apply (mapper_failure_keeps_json ascii_decimal no_json posix_join [row_control]).
  - repeat constructor. eexists. vm_compute. reflexivity.
  - reflexivity.
  - left. reflexivity.
  - reflexivity.
  - vm_compute. reflexivity.
Defined.


(** A header of two columns and a line that reaches the first only. *)
Lemma header_decides_the_keys_witness :
  get_or (DictReader.next [lit "Index"; lit "Company"] [lit "1"]) (lit "Company")
    (VStr (lit "N/A"))
  = get (DictReader.next [lit "Index"; lit "Company"] [lit "1"]) (lit "Company").
Proof.
  destruct (header_decides_the_keys [lit "Index"; lit "Company"] [[lit "1"]]
              (DictReader.next [lit "Index"; lit "Company"] [lit "1"]) (lit "Company"))
    as (_ & _ & H).
  - apply list_elem_of_In. left. reflexivity.
  - apply H. apply list_elem_of_In. right. left. reflexivity.
Defined.

(** A file without an "Index" column. *)
Definition world_no_index : world :=
  World (Rows (DictReader.rows [[lit "Company"]; [lit "ACME"]]) None)
    (lit "20240101120000") true None None None.

Lemma missing_index_column_witness :
  csv_to_json_and_xml ascii_decimal no_json posix_join
    (lit "customers.csv") (lit "schema.json") (lit "out") world_no_index
  = ([Print (CsvError KeyError)], None).
Proof.
  apply (missing_index_column ascii_decimal no_json posix_join
           [lit "Company"] [[lit "ACME"]] None).
  - rewrite list_elem_of_In. vm_compute. intuition discriminate.
  - apply Exists_cons_hd. discriminate.
  - reflexivity.
Defined.

(** A file whose second line does not reach the "Index" column. *)
Definition world_short_line : world :=
  World (Rows (DictReader.rows
                 [[lit "Company"; lit "Index"]; [lit "ACME"; lit "x"]; [lit "Umbrella"]])
           None)
    (lit "20240101120000") true None None None.

Lemma short_line_aborts_witness :
  csv_to_json_and_xml ascii_decimal no_json posix_join
    (lit "customers.csv") (lit "schema.json") (lit "out") world_short_line
  = (warnings ascii_decimal
       (DictReader.rows [[lit "Company"; lit "Index"]; [lit "ACME"; lit "x"]])
     ++ [Print (CsvError TypeError)], None).
Proof.
  apply (short_line_aborts ascii_decimal no_json posix_join
           [lit "Company"] [] [[lit "ACME"; lit "x"]] [lit "Umbrella"] [] None).
  - rewrite list_elem_of_In. vm_compute. intuition.
  - constructor; [right; cbn; lia | constructor].
  - discriminate.
  - cbn. lia.
  - reflexivity.
Defined.

(** A file of three lines and an empty one, with one index that is no
    integer and one line of a single cell. *)
Definition lines_of_cells : list (list str) :=
  [[lit "1"; lit "ACME"; lit "Bob"]; []; [lit "x"; lit "Umbrella"]; [lit "2"]].

Definition world_cells : world :=
  World (Rows (DictReader.rows
                 ([lit "Index"; lit "Company"; lit "First Name"] :: lines_of_cells)) None)
    (lit "20240101120000") false None None None.

Lemma well_formed_file_is_converted_witness :
  exists events xml_output,
    csv_to_json_and_xml ascii_decimal no_json posix_join
      (lit "customers.csv") (lit "schema.json") (lit "out") world_cells = (events, None)
    /\ length (files_written events) = 2%nat
    /\ length (read.customers_of xml_output) = 2%nat.
Proof.
  destruct (well_formed_file_is_converted ascii_decimal no_json posix_join
              [] [lit "Company"; lit "First Name"] lines_of_cells world_cells
              (lit "customers.csv") (lit "schema.json") (lit "out"))
    as (events & xml_output & Hrun & _ & Hfiles & Hlen).
  - rewrite list_elem_of_In. vm_compute. intuition discriminate.
  - unfold lines_of_cells.
    repeat (constructor; [(by left) || (right; cbn; lia)|]). constructor.
  - repeat constructor.
  - reflexivity.
  - vm_compute. discriminate.
  - right. reflexivity.
  - reflexivity.
  - reflexivity.
  - exists events, xml_output. split; [exact Hrun|]. split; [by rewrite Hfiles|].
    rewrite Hlen. vm_compute. reflexivity.
Defined.
